(** * MessageAnalyzer: a windowed message-rate estimator

    A shallow embedding of the [MessageAnalyzer] class (the variant that keeps
    a running count and a running statistic over a circular buffer of
    one-second cells), together with the parts of its environment that the
    class talks to: the [circular-buffer] package, the [floor] of the
    [mathjs] package, the host's interval timers, the wall clock and the
    three overridable hooks.

    Conventions of the embedding.
    - Message counts, buffer sizes and clock readings are integers ([Z]):
      the class only counts by one and adds and subtracts counts, which is
      exact in double precision below 2^53.  Wall-clock readings are
      integer milliseconds, and the split of an elapsed time [d] into
      whole seconds and a remainder is taken to be [d / 1000] and
      [d mod 1000], which is what the class computes at clock readings of
      the present epoch ([clock_split_in_double_precision]).
    - The statistic of a message is any number the subclass returns.  The
      class is embedded over the operations it applies to statistics
      ([Arithmetic]); these are instantiated with double precision
      ([Doubles], the arithmetic of the language) and with exact integers
      ([Exact], the arithmetic the specification reasons in).
    - [NaN] as a configuration value is kept where the constructor can
      produce it.
    - A method call reads the clock once: every [new Date().getTime()] of
      one call returns the [now] the call is given.
    - A method that can throw returns a [result]. *)

From Stdlib Require Import Ascii String ZArith Floats.
From stdpp Require Import base numbers option list strings gmap.

Local Open Scope Z_scope.

(** ** Exceptions *)

Inductive Error := TypeError | RangeError.

Inductive result (A : Type) : Type :=
| Ok (a : A)
| Throw (e : Error).
Arguments Ok {A} a.
Arguments Throw {A} e.

Global Instance result_ret : MRet result := λ A a, Ok a.
Global Instance result_bind : MBind result := λ A B f m,
  match m with
  | Ok a => f a
  | Throw e => Throw e
  end.
Global Instance result_fmap : FMap result := λ A B f m,
  match m with
  | Ok a => Ok (f a)
  | Throw e => Throw e
  end.

Definition is_Ok {A} (m : result A) : bool :=
  match m with Ok _ => true | Throw _ => false end.

(** ** Double precision

    The numbers of the language.  [Math.floor] and the [floor] of the
    [mathjs] package are computed from the sign, mantissa and exponent of
    a double. *)
Module Double.

(** The double nearest to an integer. *)
Definition of_Z (z : Z) : float :=
  SF2Prim (binary_normalize prec emax z 0 false).

Definition signed (s : bool) (m : positive) : Z :=
  if s then Z.neg m else Z.pos m.

(** The integer that an integral double holds (0 for [NaN] and the
    infinities). *)
Definition to_Z (x : float) : Z :=
  match Prim2SF x with
  | S754_finite s m e =>
      if 0 <=? e then signed s m * 2 ^ e else signed s m / 2 ^ (- e)
  | _ => 0
  end.

(** [Math.floor(x)] of the language: the largest integral double not above
    [x]; zeros, infinities and [NaN] are returned as they are. *)
Definition floor (x : float) : float :=
  match Prim2SF x with
  | S754_finite s m e => if 0 <=? e then x else of_Z (signed s m / 2 ^ (- e))
  | _ => x
  end.

(** The nearest integral double, halves away from zero. *)
Definition round (x : float) : float :=
  match Prim2SF x with
  | S754_finite s m e =>
      if 0 <=? e then x
      else let n := (2 * Z.pos m + 2 ^ (- e)) / 2 ^ (1 - e) in
           of_Z (if s then - n else n)
  | _ => x
  end.

Definition is_finite (x : float) : bool :=
  match Prim2SF x with
  | S754_zero _ | S754_finite _ _ _ => true
  | _ => false
  end.

Definition max (x y : float) : float := if PrimFloat.ltb x y then y else x.

(** [Number.EPSILON], 2^-52. *)
Definition DBL_EPSILON : float := 0x1p-52%float.

(** The [epsilon] of the package's default configuration. *)
#[warnings="-inexact-float"]
Definition epsilon : float := 1e-12%float.

(** The package's comparison of two numbers up to [epsilon]: equal, or
    finite and either closer than [DBL_EPSILON] or closer than [epsilon]
    times the larger magnitude. *)
Definition nearlyEqual (x y : float) : bool :=
  if PrimFloat.eqb x y then true
  else if is_nan x || is_nan y then false
  else if is_finite x && is_finite y then
    let diff := abs (x - y) in
    if PrimFloat.ltb diff DBL_EPSILON then true
    else PrimFloat.leb diff (max (abs x) (abs y) * epsilon)
  else false.

(** The [mathjs] package is a dependency that is not part of the source
    tree.  Modelled is its [floor] on a number, which the class calls as
    [Math.floor]: a number nearly equal to its nearest integer is taken to
    be that integer, any other number is rounded down. *)
Definition mathjs_floor (x : float) : float :=
  if nearlyEqual x (round x) then round x else floor x.

End Double.

(** ** JavaScript values of the configuration object *)

Inductive JsNum := NaN | Num (z : Z).

Inductive JsValue :=
| Undefined
| Null
| Bool (b : bool)
| Number (n : JsNum)
| Str (s : string).

Global Instance JsNum_eq_dec : EqDecision JsNum.
Proof. solve_decision. Defined.
Global Instance JsValue_eq_dec : EqDecision JsValue.
Proof. solve_decision. Defined.

(** [ToBoolean]: what [!v] and [if (v)] test. *)
Definition truthy (v : JsValue) : bool :=
  match v with
  | Undefined | Null => false
  | Bool b => b
  | Number NaN => false
  | Number (Num z) => negb (z =? 0)
  | Str s => negb (String.eqb s "")
  end.

(** [a * b] on numbers. *)
Definition js_mul (a b : JsNum) : JsNum :=
  match a, b with
  | Num x, Num y => Num (x * y)
  | _, _ => NaN
  end.

(** A [string] holds the UTF-8 encoding of a string of the language. *)
Module ParseInt.

(** The white space and line terminators that are one byte long: U+0009
    to U+000D and U+0020. *)
Definition is_white_space (c : ascii) : bool :=
  let n := nat_of_ascii c in
  ((9 <=? n) && (n <=? 13))%nat || (n =? 32)%nat.

(** U+00A0, encoded in two bytes. *)
Definition is_white_space2 (c1 c2 : ascii) : bool :=
  (nat_of_ascii c1 =? 194)%nat && (nat_of_ascii c2 =? 160)%nat.

(** The white space and line terminators encoded in three bytes: U+1680,
    U+2000 to U+200A, U+2028, U+2029, U+202F, U+205F, U+3000 and
    U+FEFF. *)
Definition is_white_space3 (c1 c2 c3 : ascii) : bool :=
  let '(n1, n2, n3) := (nat_of_ascii c1, nat_of_ascii c2, nat_of_ascii c3) in
  ((n1 =? 225) && (n2 =? 154) && (n3 =? 128)
   || (n1 =? 226) && (n2 =? 128)
      && ((128 <=? n3) && (n3 <=? 138) || (n3 =? 168) || (n3 =? 169)
          || (n3 =? 175))
   || (n1 =? 226) && (n2 =? 129) && (n3 =? 159)
   || (n1 =? 227) && (n2 =? 128) && (n3 =? 128)
   || (n1 =? 239) && (n2 =? 187) && (n3 =? 191))%nat.

Fixpoint skip_white_space (s : string) : string :=
  match s with
  | String c1 s1 =>
      if is_white_space c1 then skip_white_space s1
      else
        match s1 with
        | String c2 s2 =>
            if is_white_space2 c1 c2 then skip_white_space s2
            else
              match s2 with
              | String c3 s3 =>
                  if is_white_space3 c1 c2 c3 then skip_white_space s3 else s
              | EmptyString => s
              end
        | EmptyString => s
        end
  | EmptyString => s
  end.

(** The value of [c] as a digit of radix [r], if it is one. *)
Definition digit_value (r : Z) (c : ascii) : option Z :=
  let n := Z.of_nat (nat_of_ascii c) in
  let v :=
    if (48 <=? n) && (n <=? 57) then Some (n - 48)
    else if (97 <=? n) && (n <=? 122) then Some (n - 97 + 10)
    else if (65 <=? n) && (n <=? 90) then Some (n - 65 + 10)
    else None in
  match v with
  | Some d => if d <? r then Some d else None
  | None => None
  end.

(** Reads the longest prefix of radix-[r] digits; [acc] is [None] until
    the first digit has been read. *)
Fixpoint digits (r : Z) (acc : option Z) (s : string) : option Z :=
  match s with
  | String c s' =>
      match digit_value r c with
      | Some d => digits r (Some (default 0 acc * r + d)) s'
      | None => acc
      end
  | EmptyString => acc
  end.

Definition strip_sign (s : string) : Z * string :=
  match s with
  | String "-"%char s' => (-1, s')
  | String "+"%char s' => (1, s')
  | _ => (1, s)
  end.

Definition strip_hex_prefix (s : string) : Z * string :=
  match s with
  | String "0"%char (String "x"%char s') => (16, s')
  | String "0"%char (String "X"%char s') => (16, s')
  | _ => (10, s)
  end.

(** [parseInt(s)] without a radix argument, on a string. *)
Definition of_string (s : string) : JsNum :=
  let '(sign, s1) := strip_sign (skip_white_space s) in
  let '(radix, s2) := strip_hex_prefix s1 in
  match digits radix None s2 with
  | Some n => Num (sign * n)
  | None => NaN
  end.

(** The first decimal digit of a positive integer of at most [fuel]
    digits. *)
Fixpoint leading_digit (fuel : nat) (v : Z) : Z :=
  match fuel with
  | O => v
  | S fuel => if v <? 10 then v else leading_digit fuel (v / 10)
  end.

(** The number of decimal digits of a positive integer of at most [fuel]
    digits. *)
Fixpoint decimal_length (fuel : nat) (v : Z) : Z :=
  match fuel with
  | O => 0
  | S fuel => if v <? 10 then 1 else 1 + decimal_length fuel (v / 10)
  end.

(** [parseInt(n)] on a number that holds an integer: the number is
    printed and the print is parsed.  [z] stands for the double nearest
    to it.  Below 10^21 in magnitude the number prints as an integer that
    reads back as the same double.  From 10^21 on it prints in exponent
    notation, of which [parseInt] reads the digit before the point: the
    first digit of the shortest decimal that reads back as the number,
    which is 1 if the next power of ten does and the first digit of the
    value otherwise.  An infinity prints as a word. *)
Definition of_number (z : Z) : JsNum :=
  let n := Double.of_Z z in
  if PrimFloat.is_infinity n then NaN
  else
    let v := Double.to_Z n in
    if Z.abs v <? 10 ^ 21 then Num v
    else
      let first :=
        if PrimFloat.eqb (Double.of_Z (10 ^ decimal_length 400 (Z.abs v)))
                         (PrimFloat.abs n)
        then 1
        else leading_digit 400 (Z.abs v) in
      Num (Z.sgn v * first).

End ParseInt.

(** [parseInt(v)]: the argument is converted to a string first. *)
Definition parseInt (v : JsValue) : JsNum :=
  match v with
  | Undefined => ParseInt.of_string "undefined"
  | Null => ParseInt.of_string "null"
  | Bool true => ParseInt.of_string "true"
  | Bool false => ParseInt.of_string "false"
  | Number NaN => ParseInt.of_string "NaN"
  | Number (Num z) => ParseInt.of_number z
  | Str s => ParseInt.of_string s
  end.

(** ** Numbers that carry a statistic *)

(** What the class does with the statistic of a message: it starts from
    the literal [0], adds, subtracts, compares with [!=], and scales with
    [Math.floor(x * capacity / size)], where [Math] is the [mathjs]
    package.  The last operation is also applied to a count. *)
Class Arithmetic (Stat : Type) := {
  num_zero : Stat;
  num_add : Stat → Stat → Stat;
  num_sub : Stat → Stat → Stat;
  num_eqb : Stat → Stat → bool;
  estimate : Stat → Z → Z → Stat;
  estimate_count : Z → Z → Z → Z
}.

(** The arithmetic of the language.  In [estimate_count] the count, the
    capacity and the size are doubles that hold integers. *)
Global Instance Doubles : Arithmetic float := {|
  num_zero := 0%float;
  num_add := PrimFloat.add;
  num_sub := PrimFloat.sub;
  num_eqb := PrimFloat.eqb;
  estimate x capacity size :=
    Double.mathjs_floor (x * Double.of_Z capacity / Double.of_Z size)%float;
  estimate_count n capacity size :=
    Double.to_Z
      (Double.mathjs_floor
         (Double.of_Z n * Double.of_Z capacity / Double.of_Z size)%float)
|}.

(** Exact integer arithmetic with the exact floor: what the operations
    are taken to be when statistics are integers and rounding is left out
    of the picture. *)
Global Instance Exact : Arithmetic Z := {|
  num_zero := 0;
  num_add := Z.add;
  num_sub := Z.sub;
  num_eqb := Z.eqb;
  estimate x capacity size := x * capacity / size;
  estimate_count n capacity size := n * capacity / size
|}.

(** When the arithmetic on statistics loses nothing: addition is
    associative and commutative with [0] as its unit, subtraction undoes
    it. *)
Definition add_exact (Stat : Type) `{!Arithmetic Stat} : Prop :=
  (∀ a b c : Stat, num_add a (num_add b c) = num_add (num_add a b) c)
  ∧ (∀ a b : Stat, num_add a b = num_add b a)
  ∧ (∀ a : Stat, num_add num_zero a = a)
  ∧ (∀ a b : Stat, num_sub (num_add a b) b = a).

(** When [==] on statistics is equality. *)
Definition eqb_exact (Stat : Type) `{!Arithmetic Stat} : Prop :=
  ∀ a b : Stat, num_eqb a b = true ↔ a = b.

(** ** The [circular-buffer] package *)

(** One second's tally, the object the class stores in the buffer. *)
Record Cell (Stat : Type) := { msgCount : Z; msgStatistic : Stat }.
Arguments msgCount {Stat} _.
Arguments msgStatistic {Stat} _.

(** Modelled from the spec: the [circular-buffer] package is a dependency
    that is not part of the source tree.  It is the spec's Window: fixed
    capacity, [0 <= size <= capacity], insertion at the head, eviction at
    the tail once full.  The representation is the package's own: a sparse
    array [_buffer] written at [_first], which moves downwards and wraps.
    Modelled are [new CircularBuffer(capacity)], [size], [capacity], [enq]
    and the one-argument [get]. *)
Module CircularBuffer.

Record t (Stat : Type) := {
  _buffer : gmap Z (Cell Stat);
  _capacity : Z;
  _first : Z;
  _size : Z
}.
Arguments _buffer {Stat} _.
Arguments _capacity {Stat} _.
Arguments _first {Stat} _.
Arguments _size {Stat} _.

Section operations.

Context {Stat : Type}.
Implicit Types (b : t Stat).

(** [if (typeof capacity != "number" || capacity % 1 != 0 || capacity < 1)
    throw new TypeError("Invalid capacity")]. *)
Definition new (capacity : Z) : result (t Stat) :=
  if capacity <? 1 then Throw TypeError
  else Ok {| _buffer := ∅; _capacity := capacity; _first := 0; _size := 0 |}.

Definition size b : Z := _size b.
Definition capacity b : Z := _capacity b.

Definition enq (value : Cell Stat) b : t Stat :=
  let first := if 0 <? _first b then _first b - 1 else _capacity b - 1 in
  {| _buffer := <[first := value]> (_buffer b);
     _capacity := _capacity b;
     _first := first;
     _size := if _size b <? _capacity b then _size b + 1 else _size b |}.

(** [get(start)].  Two outcomes hand back no cell: the empty array that
    [get(0)] returns on an empty buffer, and a hole of [_buffer].  The
    caller's [.msgCount] has no number to read there; both are a
    [TypeError] here, and neither occurs on a buffer that satisfies
    [wf] when the class calls [get] (lemma [cb_get_tail]). *)
Definition get (start : Z) b : result (Cell Stat) :=
  if (_size b =? 0) && (start =? 0) then Throw TypeError
  else if start <? 0 then Throw TypeError
  else if _size b <=? start then Throw RangeError
  else match _buffer b !! ((_first b + start) `mod` _capacity b) with
       | Some c => Ok c
       | None => Throw TypeError
       end.

(** The cells the buffer holds, newest first: [get(0)], ...,
    [get(size - 1)]. *)
Definition toarray b : list (Cell Stat) :=
  omap (λ i, _buffer b !! ((_first b + i) `mod` _capacity b))
       (seqZ 0 (_size b)).

(** The representation invariant of the package. *)
Definition wf b : bool :=
  (1 <=? _capacity b) && (0 <=? _first b) && (_first b <? _capacity b)
  && (0 <=? _size b) && (_size b <=? _capacity b)
  && forallb (λ i, bool_decide
                     (is_Some (_buffer b !! ((_first b + i) `mod` _capacity b))))
             (seqZ 0 (_size b)).

End operations.

End CircularBuffer.

(** ** Construction configuration *)

Record Config := {
  cfg_frequency : JsValue;
  cfg_interval : JsValue;
  cfg_pauseAtStartup : option bool;
  cfg_estimation : option bool;
  cfg_ignore : option bool
}.

(** ** The instance and its host *)

(** The fields of [this]. *)
Record State (Stat : Type) := {
  frequency : JsValue;
  paused : bool;
  estimationStartup : bool;
  ignoreStartup : bool;
  interval : Z;
  bufferSize : Z;
  circularBuffer : CircularBuffer.t Stat;
  newMsgCount : Z;
  newMsgStatistic : Stat;
  prevStartup : bool;
  prevTotalMsgCount : Z;
  prevMsgStatisticInBuffer : Stat;
  msgCountInBuffer : Z;
  msgStatisticInBuffer : Stat;
  startTime : option Z;
  endTime : option Z;
  timer : option nat
}.
Arguments frequency {Stat} _.
Arguments paused {Stat} _.
Arguments estimationStartup {Stat} _.
Arguments ignoreStartup {Stat} _.
Arguments interval {Stat} _.
Arguments bufferSize {Stat} _.
Arguments circularBuffer {Stat} _.
Arguments newMsgCount {Stat} _.
Arguments newMsgStatistic {Stat} _.
Arguments prevStartup {Stat} _.
Arguments prevTotalMsgCount {Stat} _.
Arguments prevMsgStatisticInBuffer {Stat} _.
Arguments msgCountInBuffer {Stat} _.
Arguments msgStatisticInBuffer {Stat} _.
Arguments startTime {Stat} _.
Arguments endTime {Stat} _.
Arguments timer {Stat} _.

Section MessageAnalyzer.

(** The type of messages, the type of statistics, and the
    subclass's override of [calculateMsgStatistic]. *)
Context {Msg Stat : Type} `{!Arithmetic Stat} (calculateMsgStatistic : Msg → Stat).
Implicit Types (s : State Stat).

(** A call of one of the three overridable hooks. *)
Inductive Call :=
| CalculateMsgStatistic (msg : Msg)
| ChangeStatus (msgCountInBuffer : Z) (msgStatisticInBuffer : Stat)
    (isStartup : bool)
| SendMsg (msgCountInBuffer : Z) (msgStatisticInBuffer : Stat).

(** The instance together with the host: the live interval timers (handle
    to period in milliseconds), the next fresh handle, and the hook calls
    made so far, oldest first. *)
Record World := {
  self : State Stat;
  intervals : gmap nat Z;
  nextTimer : nat;
  calls : list Call
}.

Definition with_self (f : State Stat → State Stat) (w : World) : World :=
  {| self := f (self w); intervals := intervals w;
     nextTimer := nextTimer w; calls := calls w |}.

Definition call (c : Call) (w : World) : World :=
  {| self := self w; intervals := intervals w;
     nextTimer := nextTimer w; calls := calls w ++ [c] |}.

(** [setInterval(callback, period)]: a fresh handle, registered. *)
Definition setInterval (period : Z) (w : World) : nat * World :=
  (nextTimer w,
   {| self := self w; intervals := <[nextTimer w := period]> (intervals w);
      nextTimer := S (nextTimer w); calls := calls w |}).

Definition clearInterval (handle : nat) (w : World) : World :=
  {| self := self w; intervals := delete handle (intervals w);
     nextTimer := nextTimer w; calls := calls w |}.

(** *** Field updates *)

Definition set_paused (b : bool) s : State Stat :=
  {| frequency := frequency s; paused := b;
     estimationStartup := estimationStartup s; ignoreStartup := ignoreStartup s;
     interval := interval s; bufferSize := bufferSize s;
     circularBuffer := circularBuffer s;
     newMsgCount := newMsgCount s; newMsgStatistic := newMsgStatistic s;
     prevStartup := prevStartup s; prevTotalMsgCount := prevTotalMsgCount s;
     prevMsgStatisticInBuffer := prevMsgStatisticInBuffer s;
     msgCountInBuffer := msgCountInBuffer s;
     msgStatisticInBuffer := msgStatisticInBuffer s;
     startTime := startTime s; endTime := endTime s; timer := timer s |}.

Definition set_timer (t : option nat) s : State Stat :=
  {| frequency := frequency s; paused := paused s;
     estimationStartup := estimationStartup s; ignoreStartup := ignoreStartup s;
     interval := interval s; bufferSize := bufferSize s;
     circularBuffer := circularBuffer s;
     newMsgCount := newMsgCount s; newMsgStatistic := newMsgStatistic s;
     prevStartup := prevStartup s; prevTotalMsgCount := prevTotalMsgCount s;
     prevMsgStatisticInBuffer := prevMsgStatisticInBuffer s;
     msgCountInBuffer := msgCountInBuffer s;
     msgStatisticInBuffer := msgStatisticInBuffer s;
     startTime := startTime s; endTime := endTime s; timer := t |}.

Definition set_startTime (t : option Z) s : State Stat :=
  {| frequency := frequency s; paused := paused s;
     estimationStartup := estimationStartup s; ignoreStartup := ignoreStartup s;
     interval := interval s; bufferSize := bufferSize s;
     circularBuffer := circularBuffer s;
     newMsgCount := newMsgCount s; newMsgStatistic := newMsgStatistic s;
     prevStartup := prevStartup s; prevTotalMsgCount := prevTotalMsgCount s;
     prevMsgStatisticInBuffer := prevMsgStatisticInBuffer s;
     msgCountInBuffer := msgCountInBuffer s;
     msgStatisticInBuffer := msgStatisticInBuffer s;
     startTime := t; endTime := endTime s; timer := timer s |}.

Definition set_endTime (t : option Z) s : State Stat :=
  {| frequency := frequency s; paused := paused s;
     estimationStartup := estimationStartup s; ignoreStartup := ignoreStartup s;
     interval := interval s; bufferSize := bufferSize s;
     circularBuffer := circularBuffer s;
     newMsgCount := newMsgCount s; newMsgStatistic := newMsgStatistic s;
     prevStartup := prevStartup s; prevTotalMsgCount := prevTotalMsgCount s;
     prevMsgStatisticInBuffer := prevMsgStatisticInBuffer s;
     msgCountInBuffer := msgCountInBuffer s;
     msgStatisticInBuffer := msgStatisticInBuffer s;
     startTime := startTime s; endTime := t; timer := timer s |}.

(** [this.newMsgCount = c; this.newMsgStatistic = st]. *)
Definition set_newMsg (c : Z) (st : Stat) s : State Stat :=
  {| frequency := frequency s; paused := paused s;
     estimationStartup := estimationStartup s; ignoreStartup := ignoreStartup s;
     interval := interval s; bufferSize := bufferSize s;
     circularBuffer := circularBuffer s;
     newMsgCount := c; newMsgStatistic := st;
     prevStartup := prevStartup s; prevTotalMsgCount := prevTotalMsgCount s;
     prevMsgStatisticInBuffer := prevMsgStatisticInBuffer s;
     msgCountInBuffer := msgCountInBuffer s;
     msgStatisticInBuffer := msgStatisticInBuffer s;
     startTime := startTime s; endTime := endTime s; timer := timer s |}.

(** *** The constructor *)

(** [if (!config.interval) this.interval = 1
    else this.interval = parseInt(config.interval)]. *)
Definition interval_of (config : Config) : JsNum :=
  if negb (truthy (cfg_interval config)) then Num 1
  else parseInt (cfg_interval config).

(** The [switch] on [config.frequency] (strict equality with the three
    unit names), then [this.bufferSize *= this.interval]. *)
Definition bufferSize_of (config : Config) : JsNum :=
  let bufferSize :=
    if decide (cfg_frequency config = Str "sec") then 1
    else if decide (cfg_frequency config = Str "min") then 60
    else if decide (cfg_frequency config = Str "hour") then 60 * 60
    else 1 in
  js_mul (Num bufferSize) (interval_of config).

Definition reset (w : World) : result World :=
  let s := self w in
  b ← CircularBuffer.new (bufferSize s);
  Ok (with_self (λ _,
    {| frequency := frequency s; paused := paused s;
       estimationStartup := estimationStartup s;
       ignoreStartup := ignoreStartup s;
       interval := interval s; bufferSize := bufferSize s;
       circularBuffer := b;
       newMsgCount := 0; newMsgStatistic := num_zero;
       prevStartup := false; prevTotalMsgCount := 0;
       prevMsgStatisticInBuffer := num_zero;
       msgCountInBuffer := 0; msgStatisticInBuffer := num_zero;
       startTime := None; endTime := None; timer := timer s |}) w).

(** The fields the constructor has not assigned when it calls [reset]
    are all overwritten there, except [timer], which is still
    [undefined]; the buffer below stands for the unassigned
    [circularBuffer].  With [NaN] as buffer size,
    [new CircularBuffer(NaN)] throws its [TypeError]. *)
Definition constructor (config : Config) : result World :=
  match interval_of config, bufferSize_of config with
  | Num i, Num n =>
      reset
        {| self :=
             {| frequency := cfg_frequency config;
                paused := match cfg_pauseAtStartup config with
                          | Some true => true
                          | _ => false
                          end;
                estimationStartup := default false (cfg_estimation config);
                ignoreStartup := default false (cfg_ignore config);
                interval := i; bufferSize := n;
                circularBuffer :=
                  {| CircularBuffer._buffer := ∅;
                     CircularBuffer._capacity := 0;
                     CircularBuffer._first := 0;
                     CircularBuffer._size := 0 |};
                newMsgCount := 0; newMsgStatistic := num_zero;
                prevStartup := false; prevTotalMsgCount := 0;
                prevMsgStatisticInBuffer := num_zero;
                msgCountInBuffer := 0; msgStatisticInBuffer := num_zero;
                startTime := None; endTime := None; timer := None |};
           intervals := ∅; nextTimer := 0%nat; calls := [] |}
  | _, _ => Throw TypeError
  end.

(** *** Lifecycle *)

Definition stop (w : World) : result World :=
  let w :=
    match timer (self w) with
    | Some t => with_self (set_timer None) (clearInterval t w)
    | None => w
    end in
  reset w.

Definition pause (w : World) : World :=
  if negb (paused (self w)) then
    let w := with_self (set_paused true) w in
    match timer (self w) with
    | Some t => with_self (set_timer None) (clearInterval t w)
    | None => w
    end
  else w.

(** *** The flush *)

(** The values handed to the hooks in one loop iteration, and
    [isStartup]; [b] is the buffer after the [enq]. *)
Definition report (estimationStartup : bool) (b : CircularBuffer.t Stat)
    (msgCountInBuffer : Z) (msgStatisticInBuffer : Stat) : Z * Stat * bool :=
  if CircularBuffer.size b <? CircularBuffer.capacity b then
    if estimationStartup && (0 <? CircularBuffer.size b) then
      (estimate_count (Stat:=Stat) msgCountInBuffer
         (CircularBuffer.capacity b) (CircularBuffer.size b),
       estimate msgStatisticInBuffer
         (CircularBuffer.capacity b) (CircularBuffer.size b),
       true)
    else (msgCountInBuffer, msgStatisticInBuffer, true)
  else (msgCountInBuffer, msgStatisticInBuffer, false).

(** One iteration of the [for] loop of [_analyse]. *)
Definition iteration (w : World) : result World :=
  let s := self w in
  originalCellContent ←
    (if bufferSize s <=? CircularBuffer.size (circularBuffer s)
     then CircularBuffer.get (bufferSize s - 1) (circularBuffer s)
     else Ok {| msgCount := 0; msgStatistic := num_zero |});
  let this_msgCountInBuffer :=
    msgCountInBuffer s + newMsgCount s - msgCount originalCellContent in
  let this_msgStatisticInBuffer :=
    num_sub (num_add (msgStatisticInBuffer s) (newMsgStatistic s))
            (msgStatistic originalCellContent) in
  let b :=
    CircularBuffer.enq
      {| msgCount := newMsgCount s; msgStatistic := newMsgStatistic s |}
      (circularBuffer s) in
  let '(msgCountInBuffer, msgStatisticInBuffer, isStartup) :=
    report (estimationStartup s) b
           this_msgCountInBuffer this_msgStatisticInBuffer in
  let changed :=
    negb (prevTotalMsgCount s =? this_msgCountInBuffer)
    || negb (num_eqb (prevMsgStatisticInBuffer s) this_msgStatisticInBuffer)
    || negb (eqb (prevStartup s) isStartup) in
  let send := negb (ignoreStartup s) || negb isStartup in
  Ok {| self :=
          {| frequency := frequency s; paused := paused s;
             estimationStartup := estimationStartup s;
             ignoreStartup := ignoreStartup s;
             interval := interval s; bufferSize := bufferSize s;
             circularBuffer := b;
             newMsgCount := 0; newMsgStatistic := num_zero;
             prevStartup := isStartup;
             prevTotalMsgCount :=
               if changed then msgCountInBuffer else prevTotalMsgCount s;
             prevMsgStatisticInBuffer :=
               if changed then msgStatisticInBuffer
               else prevMsgStatisticInBuffer s;
             msgCountInBuffer := this_msgCountInBuffer;
             msgStatisticInBuffer := this_msgStatisticInBuffer;
             startTime := endTime s; endTime := endTime s;
             timer := timer s |};
        intervals := intervals w; nextTimer := nextTimer w;
        calls :=
          calls w
          ++ (if changed
              then [ChangeStatus msgCountInBuffer msgStatisticInBuffer isStartup]
              else [])
          ++ (if send then [SendMsg msgCountInBuffer msgStatisticInBuffer]
              else []) |}.

(** [for (var i = 0; i < seconds; i++)]; the body does not read [i]. *)
Fixpoint for_loop (seconds : nat) (w : World) : result World :=
  match seconds with
  | O => Ok w
  | S n => w' ← iteration w; for_loop n w'
  end.

(** [this.newMsgCount += 1;
     this.newMsgStatistic += this.calculateMsgStatistic(msg)]. *)
Definition add_event (m : Msg) (w : World) : World :=
  call (CalculateMsgStatistic m)
    (with_self (λ s, set_newMsg (newMsgCount s + 1)
                       (num_add (newMsgStatistic s) (calculateMsgStatistic m))
                       s)
       w).

Definition _analyse (now : Z) (msg : option Msg) (w : World) : result World :=
  let startTime0 := default now (startTime (self w)) in
  let seconds := (now - startTime0) / 1000 in
  let remainder := (now - startTime0) `mod` 1000 in
  let w := with_self (set_startTime (Some startTime0)) w in
  let w := with_self (set_endTime (Some (now - remainder))) w in
  w ← for_loop (Z.to_nat seconds) w;
  match msg with
  | Some m => Ok (add_event m w)
  | None => Ok w
  end.

(** The period, in milliseconds, that [process] gives to [setInterval]. *)
Definition timer_period : Z := 60000.

Definition process (now : Z) (msg : option Msg) (w : World) : result World :=
  if negb (paused (self w)) then
    let w :=
      match timer (self w) with
      | Some t => clearInterval t w
      | None => w
      end in
    w ← _analyse now msg w;
    let '(t, w) := setInterval timer_period w in
    Ok (with_self (set_timer (Some t)) w)
  else Ok w.

Definition resume (now : Z) (w : World) : result World :=
  if paused (self w) then
    let w := with_self (set_paused false) w in
    let w := with_self (set_startTime (Some now)) w in
    process now None w
  else Ok w.

(** The callback that [process] registers: [that._analyse(null)].  It can
    only run while some interval timer is live. *)
Definition tick (now : Z) (w : World) : result World :=
  if decide (intervals w = ∅) then Ok w else _analyse now None w.

(** *** Drivers and observations *)

(** What the outside can do to an instance.  [Reset] is the [reset] that a
    control message triggers. *)
Inductive Op :=
| Process (now : Z) (msg : option Msg)
| Tick (now : Z)
| Pause
| Resume (now : Z)
| Stop
| Reset.

Definition step (op : Op) (w : World) : result World :=
  match op with
  | Process now msg => process now msg w
  | Tick now => tick now w
  | Pause => Ok (pause w)
  | Resume now => resume now w
  | Stop => stop w
  | Reset => reset w
  end.

Fixpoint run (ops : list Op) (w : World) : result World :=
  match ops with
  | [] => Ok w
  | op :: ops => w' ← step op w; run ops w'
  end.

(** The messages [calculateMsgStatistic] has been called on, oldest
    first. *)
Definition statistic_calls (l : list Call) : list Msg :=
  omap (λ c, match c with CalculateMsgStatistic m => Some m | _ => None end) l.

(** The arguments of the [changeStatus] calls, oldest first. *)
Definition status_calls (l : list Call) : list (Z * Stat * bool) :=
  omap (λ c, match c with ChangeStatus n st b => Some (n, st, b) | _ => None end) l.

(** [_analyse(null)] once at each of the given clock readings. *)
Fixpoint flushes (times : list Z) (w : World) : result World :=
  match times with
  | [] => Ok w
  | now :: times => w' ← _analyse now None w; flushes times w'
  end.

(** Both time cursors moved to [t]. *)
Definition retime (t : option Z) (w : World) : World :=
  with_self (λ s, set_startTime t (set_endTime t s)) w.

End MessageAnalyzer.

Arguments Call : clear implicits.
Arguments World : clear implicits.
Arguments Op : clear implicits.

Definition sum_with {Stat} (f : Cell Stat → Z) (l : list (Cell Stat)) : Z :=
  foldr (λ c acc, f c + acc) 0 l.

(** The sum of the statistics of the cells, in the arithmetic of the
    statistics. *)
Definition sum_statistic `{!Arithmetic Stat} (l : list (Cell Stat)) : Stat :=
  foldr (λ c acc, num_add (msgStatistic c) acc) num_zero l.

(** The buffer belongs to the instance: it satisfies the package's
    invariant and was built with capacity [bufferSize]. *)
Definition State_wf {Stat} (s : State Stat) : bool :=
  CircularBuffer.wf (circularBuffer s)
  && (CircularBuffer._capacity (circularBuffer s) =? bufferSize s).

(** The running count agrees with the cells the buffer holds. *)
Definition count_consistent {Stat} (s : State Stat) : Prop :=
  msgCountInBuffer s
  = sum_with msgCount (CircularBuffer.toarray (circularBuffer s)).

(** The running statistic agrees with the cells the buffer holds. *)
Definition statistic_consistent `{!Arithmetic Stat} (s : State Stat) : Prop :=
  msgStatisticInBuffer s
  = sum_statistic (CircularBuffer.toarray (circularBuffer s)).

(** At most the timer that [this.timer] holds is live. *)
Definition timers_ok {Msg Stat} (w : World Msg Stat) : bool :=
  match timer (self w) with
  | Some t => bool_decide (dom (intervals w) = {[t]})
  | None => bool_decide (intervals w = ∅)
  end.

(** The next [n] whole-second boundaries after [t]. *)
Fixpoint boundaries (t : Z) (n : nat) : list Z :=
  match n with
  | O => []
  | S n => (t + 1000) :: boundaries (t + 1000) n
  end.

Definition zero_cell `{!Arithmetic Stat} : Cell Stat :=
  {| msgCount := 0; msgStatistic := num_zero |}.

(** The cell that the next closed second will store. *)
Definition pending {Stat} (s : State Stat) : Cell Stat :=
  {| msgCount := newMsgCount s; msgStatistic := newMsgStatistic s |}.

(** ** The older variant

    The older variant of the class differs in its lifecycle in three
    places, which are embedded here over the same [World] (the fields they
    touch are common to both variants): the period given to [setInterval],
    a [stop] that does not reset, and a [resume] that does not flush. *)
Module Legacy.

Definition timer_period : Z := 1000.

Definition stop {Msg Stat} (w : World Msg Stat) : World Msg Stat :=
  match timer (self w) with
  | Some t => with_self (set_timer None) (clearInterval t w)
  | None => w
  end.

Definition resume {Msg Stat} (now : Z) (w : World Msg Stat) : World Msg Stat :=
  if paused (self w) then
    let w := with_self (set_paused false) w in
    with_self (set_startTime (Some now)) w
  else w.

End Legacy.

(** ** The window length as the specification words it *)

Definition secondsPerUnit_table : gmap string Z :=
  {[ "sec" := 1; "min" := 60; "hour" := 3600 ]}.

Definition spec_secondsPerUnit (frequency : JsValue) : Z :=
  match frequency with
  | Str f => default 1 (secondsPerUnit_table !! f)
  | _ => 1
  end.

(** An absent, non-positive or unparsable interval counts as 1. *)
Definition spec_effective_interval (interval : JsValue) : Z :=
  match interval with
  | Undefined => 1
  | _ => match parseInt interval with
         | Num n => if n <=? 0 then 1 else n
         | NaN => 1
         end
  end.

Definition spec_bufferSize (config : Config) : Z :=
  spec_secondsPerUnit (cfg_frequency config)
  * spec_effective_interval (cfg_interval config).

(** ** Concrete instances

    Messages are numbers here and the statistic of a message is the number
    itself: integers in exact arithmetic for the first instances, doubles
    for the last. *)

Definition config_of (frequency : string) (interval : JsValue)
    (estimation : bool) : Config :=
  {| cfg_frequency := Str frequency; cfg_interval := interval;
     cfg_pauseAtStartup := None; cfg_estimation := Some estimation;
     cfg_ignore := None |}.

(** A window of three seconds, freshly constructed. *)
Definition fresh_world : World Z Z :=
  {| self :=
       {| frequency := Str "sec"; paused := false;
          estimationStartup := true; ignoreStartup := false;
          interval := 3; bufferSize := 3;
          circularBuffer :=
            {| CircularBuffer._buffer := ∅; CircularBuffer._capacity := 3;
               CircularBuffer._first := 0; CircularBuffer._size := 0 |};
          newMsgCount := 0; newMsgStatistic := 0;
          prevStartup := false; prevTotalMsgCount := 0;
          prevMsgStatisticInBuffer := 0;
          msgCountInBuffer := 0; msgStatisticInBuffer := 0;
          startTime := None; endTime := None; timer := None |};
     intervals := ∅; nextTimer := 0%nat; calls := [] |}.

(** The same window one second after two messages of statistics 3 and 4. *)
Definition running_world : World Z Z :=
  {| self :=
       {| frequency := Str "sec"; paused := false;
          estimationStartup := true; ignoreStartup := false;
          interval := 3; bufferSize := 3;
          circularBuffer :=
            {| CircularBuffer._buffer := {[ 2 := {| msgCount := 2; msgStatistic := 7 |} ]};
               CircularBuffer._capacity := 3;
               CircularBuffer._first := 2; CircularBuffer._size := 1 |};
          newMsgCount := 0; newMsgStatistic := 0;
          prevStartup := true; prevTotalMsgCount := 6;
          prevMsgStatisticInBuffer := 21;
          msgCountInBuffer := 2; msgStatisticInBuffer := 7;
          startTime := Some 1000; endTime := Some 1000;
          timer := Some 1%nat |};
     intervals := {[ 1%nat := 60000 ]}; nextTimer := 2%nat;
     calls := [CalculateMsgStatistic 3; CalculateMsgStatistic 4;
               ChangeStatus 6 21 true; SendMsg 6 21] |}.

(** ** Further observations *)

(** The arguments of the [sendMsg] calls, oldest first. *)
Definition send_calls {Msg Stat} (l : list (Call Msg Stat)) : list (Z * Stat) :=
  omap (λ c, match c with SendMsg n st => Some (n, st) | _ => None end) l.

(** A message arriving or the timer firing. *)
Definition is_arrival {Msg} (op : Op Msg) : bool :=
  match op with
  | Process _ _ | Tick _ => true
  | _ => false
  end.

(** An arrival less than a second after [t]: it closes no second when
    [startTime] is [t]. *)
Definition within_second {Msg} (t : Z) (op : Op Msg) : bool :=
  match op with
  | Process now _ | Tick now => now - t <? 1000
  | _ => false
  end.

(** The messages that the steps hand to [process], in order. *)
Definition messages {Msg} (ops : list (Op Msg)) : list Msg :=
  omap (λ op, match op with Process _ msg => msg | _ => None end) ops.

(** The steps that do not go through [reset]. *)
Definition keeps_memo {Msg} (op : Op Msg) : bool :=
  match op with
  | Stop | Reset => false
  | _ => true
  end.

(** What the instance remembers of its last status notification. *)
Definition status_memo {Stat} (s : State Stat) : Z * Stat * bool :=
  (prevTotalMsgCount s, prevMsgStatisticInBuffer s, prevStartup s).

(** No two neighbours of the list are equal. *)
Fixpoint adjacent_distinct {A} (l : list A) : Prop :=
  match l with
  | x :: l' =>
      match l' with
      | y :: _ => x ≠ y ∧ adjacent_distinct l'
      | [] => True
      end
  | [] => True
  end.

(** Counts are not negative and count no more messages than
    [calculateMsgStatistic] was called on. *)
Definition counts_ok {Msg Stat} (w : World Msg Stat) : Prop :=
  0 ≤ newMsgCount (self w)
  ∧ Forall (λ c, 0 ≤ msgCount c)
           (CircularBuffer.toarray (circularBuffer (self w)))
  ∧ sum_with msgCount (CircularBuffer.toarray (circularBuffer (self w)))
    + newMsgCount (self w)
    ≤ Z.of_nat (length (statistic_calls (calls w))).

(** The status memo is what [changeStatus] was last called with, or the
    value [reset] gives it if it was never called; and no two calls in a
    row carry the same triple. *)
Definition status_ok {Msg} `{!Arithmetic Stat} (w : World Msg Stat) : Prop :=
  status_memo (self w)
  = default (0, num_zero, false) (last (status_calls (calls w)))
  ∧ adjacent_distinct (status_calls (calls w)).

(** A window of three seconds that ignores the startup period, freshly
    constructed and untouched (estimation off). *)
Definition ignoring_world : World Z Z :=
  {| self :=
       {| frequency := Str "sec"; paused := false;
          estimationStartup := false; ignoreStartup := true;
          interval := 3; bufferSize := 3;
          circularBuffer :=
            {| CircularBuffer._buffer := ∅; CircularBuffer._capacity := 3;
               CircularBuffer._first := 0; CircularBuffer._size := 0 |};
          newMsgCount := 0; newMsgStatistic := 0;
          prevStartup := false; prevTotalMsgCount := 0;
          prevMsgStatisticInBuffer := 0;
          msgCountInBuffer := 0; msgStatisticInBuffer := 0;
          startTime := None; endTime := None; timer := None |};
     intervals := ∅; nextTimer := 0%nat; calls := [] |}.

(** ** The older variant in full

    The older variant of the class, [src/msg_analyzer.js], with all its
    methods.  Its cells keep, next to the count, whatever the subclass's
    [calculateMsgStatistics] returned, so the [circular-buffer] package is
    needed at another cell type. *)

(** Modelled from the spec: the [circular-buffer] package again (a
    dependency that is not part of the source tree), for cells of any type;
    [CircularBuffer] above is this module at [Cell Stat]. *)
Module Ring.

Record t (A : Type) := {
  _buffer : gmap Z A;
  _capacity : Z;
  _first : Z;
  _size : Z
}.
Arguments _buffer {A} _.
Arguments _capacity {A} _.
Arguments _first {A} _.
Arguments _size {A} _.

Definition new {A} (capacity : Z) : result (t A) :=
  if capacity <? 1 then Throw TypeError
  else Ok {| _buffer := ∅; _capacity := capacity; _first := 0; _size := 0 |}.

Definition size {A} (b : t A) : Z := _size b.
Definition capacity {A} (b : t A) : Z := _capacity b.

Definition enq {A} (value : A) (b : t A) : t A :=
  let first := if 0 <? _first b then _first b - 1 else _capacity b - 1 in
  {| _buffer := <[first := value]> (_buffer b);
     _capacity := _capacity b;
     _first := first;
     _size := if _size b <? _capacity b then _size b + 1 else _size b |}.

(** As for [CircularBuffer.get], the empty array of [get(0)] on an empty
    buffer and a hole of [_buffer] are a [TypeError] here. *)
Definition get {A} (start : Z) (b : t A) : result A :=
  if (_size b =? 0) && (start =? 0) then Throw TypeError
  else if start <? 0 then Throw TypeError
  else if _size b <=? start then Throw RangeError
  else match _buffer b !! ((_first b + start) `mod` _capacity b) with
       | Some c => Ok c
       | None => Throw TypeError
       end.

Definition toarray {A} (b : t A) : list A :=
  omap (λ i, _buffer b !! ((_first b + i) `mod` _capacity b))
       (seqZ 0 (_size b)).

Definition wf {A} (b : t A) : bool :=
  (1 <=? _capacity b) && (0 <=? _first b) && (_first b <? _capacity b)
  && (0 <=? _size b) && (_size b <=? _capacity b)
  && forallb (λ i, bool_decide
                     (is_Some (_buffer b !! ((_first b + i) `mod` _capacity b))))
             (seqZ 0 (_size b)).

(** A [CircularBuffer.t] as a ring of [Cell]s. *)
Definition of_CircularBuffer {Stat} (b : CircularBuffer.t Stat) : t (Cell Stat) :=
  {| _buffer := CircularBuffer._buffer b;
     _capacity := CircularBuffer._capacity b;
     _first := CircularBuffer._first b;
     _size := CircularBuffer._size b |}.

End Ring.

(** The cells of the older variant: [{msgCount, msgStatistics}].  A
    [msgStatistics] that is [null] or [undefined] is [None]. *)
Module OlderCell.

Record t (Stat : Type) := { msgCount : Z; msgStatistics : option Stat }.
Arguments msgCount {Stat} _.
Arguments msgStatistics {Stat} _.

End OlderCell.

Module Older.

(** The fields of [this]. *)
Record State (Stat : Type) := {
  frequency : JsValue;
  paused : bool;
  estimationStartup : bool;
  ignoreStartup : bool;
  interval : Z;
  bufferSize : Z;
  circularBuffer : Ring.t (OlderCell.t Stat);
  msgCount : Z;
  prevStartup : bool;
  prevTotalMsgCount : Z;
  totalMsgCount : Z;
  startTime : option Z;
  endTime : option Z;
  timer : option nat
}.
Arguments frequency {Stat} _.
Arguments paused {Stat} _.
Arguments estimationStartup {Stat} _.
Arguments ignoreStartup {Stat} _.
Arguments interval {Stat} _.
Arguments bufferSize {Stat} _.
Arguments circularBuffer {Stat} _.
Arguments msgCount {Stat} _.
Arguments prevStartup {Stat} _.
Arguments prevTotalMsgCount {Stat} _.
Arguments totalMsgCount {Stat} _.
Arguments startTime {Stat} _.
Arguments endTime {Stat} _.
Arguments timer {Stat} _.

Section OlderAnalyzer.

(** The types of messages and of statistics, and the subclass's override
    of [calculateMsgStatistics], with its arguments in the order of the
    call: the added count, the statistics of the evicted cell, the
    message. *)
Context {Msg Stat : Type}
  (calculateMsgStatistics : Z → option Stat → option Msg → option Stat).

Inductive Call :=
| CalculateMsgStatistics (addedMsgCount : Z) (msgStatistics : option Stat)
    (msg : option Msg)
| ChangeStatus (totalMsgCount : Z) (isStartup : bool)
| SendMsg (totalMsgCount : Z) (msgStatistics : option Stat).

Record World := {
  self : State Stat;
  intervals : gmap nat Z;
  nextTimer : nat;
  calls : list Call
}.

Definition with_self (f : State Stat → State Stat) (w : World) : World :=
  {| self := f (self w); intervals := intervals w;
     nextTimer := nextTimer w; calls := calls w |}.

Definition setInterval (period : Z) (w : World) : nat * World :=
  (nextTimer w,
   {| self := self w; intervals := <[nextTimer w := period]> (intervals w);
      nextTimer := S (nextTimer w); calls := calls w |}).

Definition clearInterval (handle : nat) (w : World) : World :=
  {| self := self w; intervals := delete handle (intervals w);
     nextTimer := nextTimer w; calls := calls w |}.

Definition set_paused (b : bool) (s : State Stat) : State Stat :=
  {| frequency := frequency s; paused := b;
     estimationStartup := estimationStartup s; ignoreStartup := ignoreStartup s;
     interval := interval s; bufferSize := bufferSize s;
     circularBuffer := circularBuffer s; msgCount := msgCount s;
     prevStartup := prevStartup s; prevTotalMsgCount := prevTotalMsgCount s;
     totalMsgCount := totalMsgCount s;
     startTime := startTime s; endTime := endTime s; timer := timer s |}.

Definition set_timer (t : option nat) (s : State Stat) : State Stat :=
  {| frequency := frequency s; paused := paused s;
     estimationStartup := estimationStartup s; ignoreStartup := ignoreStartup s;
     interval := interval s; bufferSize := bufferSize s;
     circularBuffer := circularBuffer s; msgCount := msgCount s;
     prevStartup := prevStartup s; prevTotalMsgCount := prevTotalMsgCount s;
     totalMsgCount := totalMsgCount s;
     startTime := startTime s; endTime := endTime s; timer := t |}.

Definition set_startTime (t : option Z) (s : State Stat) : State Stat :=
  {| frequency := frequency s; paused := paused s;
     estimationStartup := estimationStartup s; ignoreStartup := ignoreStartup s;
     interval := interval s; bufferSize := bufferSize s;
     circularBuffer := circularBuffer s; msgCount := msgCount s;
     prevStartup := prevStartup s; prevTotalMsgCount := prevTotalMsgCount s;
     totalMsgCount := totalMsgCount s;
     startTime := t; endTime := endTime s; timer := timer s |}.

Definition set_endTime (t : option Z) (s : State Stat) : State Stat :=
  {| frequency := frequency s; paused := paused s;
     estimationStartup := estimationStartup s; ignoreStartup := ignoreStartup s;
     interval := interval s; bufferSize := bufferSize s;
     circularBuffer := circularBuffer s; msgCount := msgCount s;
     prevStartup := prevStartup s; prevTotalMsgCount := prevTotalMsgCount s;
     totalMsgCount := totalMsgCount s;
     startTime := startTime s; endTime := t; timer := timer s |}.

Definition set_msgCount (n : Z) (s : State Stat) : State Stat :=
  {| frequency := frequency s; paused := paused s;
     estimationStartup := estimationStartup s; ignoreStartup := ignoreStartup s;
     interval := interval s; bufferSize := bufferSize s;
     circularBuffer := circularBuffer s; msgCount := n;
     prevStartup := prevStartup s; prevTotalMsgCount := prevTotalMsgCount s;
     totalMsgCount := totalMsgCount s;
     startTime := startTime s; endTime := endTime s; timer := timer s |}.

Definition reset (w : World) : result World :=
  let s := self w in
  b ← Ring.new (bufferSize s);
  Ok (with_self (λ _,
    {| frequency := frequency s; paused := paused s;
       estimationStartup := estimationStartup s;
       ignoreStartup := ignoreStartup s;
       interval := interval s; bufferSize := bufferSize s;
       circularBuffer := b; msgCount := 0;
       prevStartup := false; prevTotalMsgCount := 0; totalMsgCount := 0;
       startTime := None; endTime := None; timer := timer s |}) w).

(** The constructor is that of the current variant, line for line; the
    buffer below stands for the [circularBuffer] field that is unassigned
    when [reset] is called. *)
Definition constructor (config : Config) : result World :=
  match interval_of config, bufferSize_of config with
  | Num i, Num n =>
      reset
        {| self :=
             {| frequency := cfg_frequency config;
                paused := match cfg_pauseAtStartup config with
                          | Some true => true
                          | _ => false
                          end;
                estimationStartup := default false (cfg_estimation config);
                ignoreStartup := default false (cfg_ignore config);
                interval := i; bufferSize := n;
                circularBuffer :=
                  {| Ring._buffer := ∅; Ring._capacity := 0;
                     Ring._first := 0; Ring._size := 0 |};
                msgCount := 0;
                prevStartup := false; prevTotalMsgCount := 0;
                totalMsgCount := 0;
                startTime := None; endTime := None; timer := None |};
           intervals := ∅; nextTimer := 0%nat; calls := [] |}
  | _, _ => Throw TypeError
  end.

(** [stop] only clears the timer. *)
Definition stop (w : World) : World :=
  match timer (self w) with
  | Some t => with_self (set_timer None) (clearInterval t w)
  | None => w
  end.

(** [resume] restarts the timing and arms no timer. *)
Definition resume (now : Z) (w : World) : World :=
  if paused (self w) then
    let w := with_self (set_paused false) w in
    with_self (set_startTime (Some now)) w
  else w.

Definition pause (w : World) : World :=
  if negb (paused (self w)) then
    let w := with_self (set_paused true) w in
    match timer (self w) with
    | Some t => with_self (set_timer None) (clearInterval t w)
    | None => w
    end
  else w.

(** One iteration of the [for] loop of [_analyse], with loop index [i].
    The estimate of the total is the [Math.floor(x * capacity / size)] of
    the current variant, in double precision. *)
Definition iteration (i : Z) (msg : option Msg) (w : World) : result World :=
  let s := self w in
  let addedMsgCount :=
    if i =? 0 then Z.max 0 (msgCount s - 1) else Z.max 0 (msgCount s) in
  originalCellContent ←
    (if bufferSize s <=? Ring.size (circularBuffer s)
     then Ring.get (bufferSize s - 1) (circularBuffer s)
     else Ok {| OlderCell.msgCount := 0; OlderCell.msgStatistics := None |});
  let removedMsgCount := OlderCell.msgCount originalCellContent in
  let this_totalMsgCount := totalMsgCount s + addedMsgCount - removedMsgCount in
  let this_msgCount := Z.max 0 (msgCount s - addedMsgCount) in
  let newMsgStatistics :=
    calculateMsgStatistics addedMsgCount
      (OlderCell.msgStatistics originalCellContent) msg in
  let b :=
    Ring.enq {| OlderCell.msgCount := addedMsgCount;
                OlderCell.msgStatistics := newMsgStatistics |}
             (circularBuffer s) in
  let isStartup := Ring.size b <? Ring.capacity b in
  let totalMsgCount :=
    if isStartup && estimationStartup s && (0 <? Ring.size b)
    then estimate_count (Arithmetic:=Doubles) this_totalMsgCount
           (Ring.capacity b) (Ring.size b)
    else this_totalMsgCount in
  let changed :=
    negb (prevTotalMsgCount s =? this_totalMsgCount)
    || negb (eqb (prevStartup s) isStartup) in
  let send := negb (ignoreStartup s) || negb isStartup in
  Ok {| self :=
          {| frequency := frequency s; paused := paused s;
             estimationStartup := estimationStartup s;
             ignoreStartup := ignoreStartup s;
             interval := interval s; bufferSize := bufferSize s;
             circularBuffer := b; msgCount := this_msgCount;
             prevStartup := isStartup;
             prevTotalMsgCount :=
               if changed then totalMsgCount else prevTotalMsgCount s;
             totalMsgCount := this_totalMsgCount;
             startTime := startTime s; endTime := endTime s;
             timer := timer s |};
        intervals := intervals w; nextTimer := nextTimer w;
        calls :=
          calls w
          ++ [CalculateMsgStatistics addedMsgCount
                (OlderCell.msgStatistics originalCellContent) msg]
          ++ (if changed then [ChangeStatus totalMsgCount isStartup] else [])
          ++ (if send
              then [SendMsg totalMsgCount
                      (OlderCell.msgStatistics originalCellContent)]
              else []) |}.

(** [for (var i = ...; i < seconds; i++)], from index [i], [n] iterations
    to go. *)
Fixpoint for_loop (i : Z) (n : nat) (msg : option Msg) (w : World)
    : result World :=
  match n with
  | O => Ok w
  | S n => w' ← iteration i msg w; for_loop (i + 1) n msg w'
  end.

Definition _analyse (now : Z) (msg : option Msg) (w : World) : result World :=
  let startTime0 := default now (startTime (self w)) in
  let seconds := (now - startTime0) / 1000 in
  let remainder := (now - startTime0) `mod` 1000 in
  let w := with_self (set_startTime (Some startTime0)) w in
  let w := with_self (set_endTime (Some (now - remainder))) w in
  w ← for_loop 0 (Z.to_nat seconds) msg w;
  Ok (if 0 <? seconds
      then with_self (λ s, set_startTime (endTime s) s) w
      else w).

Definition timer_period : Z := 1000.

Definition process (now : Z) (msg : option Msg) (w : World) : result World :=
  if negb (paused (self w)) then
    let w :=
      match timer (self w) with
      | Some t => clearInterval t w
      | None => w
      end in
    let w := with_self (λ s, set_msgCount (msgCount s + 1) s) w in
    w ← _analyse now msg w;
    let '(t, w) := setInterval timer_period w in
    Ok (with_self (set_timer (Some t)) w)
  else Ok w.

(** The timer callback, [that._analyse(null)]; it can only run while some
    interval timer is live. *)
Definition tick (now : Z) (w : World) : result World :=
  if decide (intervals w = ∅) then Ok w else _analyse now None w.

Inductive Op :=
| Process (now : Z) (msg : option Msg)
| Tick (now : Z)
| Pause
| Resume (now : Z)
| Stop
| Reset.

Definition step (op : Op) (w : World) : result World :=
  match op with
  | Process now msg => process now msg w
  | Tick now => tick now w
  | Pause => Ok (pause w)
  | Resume now => Ok (resume now w)
  | Stop => Ok (stop w)
  | Reset => reset w
  end.

Fixpoint run (ops : list Op) (w : World) : result World :=
  match ops with
  | [] => Ok w
  | op :: ops => w' ← step op w; run ops w'
  end.

(** The [msg] arguments of the [calculateMsgStatistics] calls, oldest
    first. *)
Definition statistics_calls (l : list Call) : list (option Msg) :=
  omap (λ c, match c with
             | CalculateMsgStatistics _ _ m => Some m
             | _ => None
             end) l.

End OlderAnalyzer.

Arguments Call : clear implicits.
Arguments World : clear implicits.
Arguments Op : clear implicits.

(** The buffer belongs to the instance. *)
Definition State_wf {Stat} (s : State Stat) : bool :=
  Ring.wf (circularBuffer s)
  && (Ring._capacity (circularBuffer s) =? bufferSize s).

(** The counts of the cells the buffer holds, newest first. *)
Definition counts {Stat} (s : State Stat) : list Z :=
  OlderCell.msgCount <$> Ring.toarray (circularBuffer s).

Definition sum_Z (l : list Z) : Z := foldr Z.add 0 l.

(** The running total agrees with the cells the buffer holds. *)
Definition total_consistent {Stat} (s : State Stat) : Prop :=
  totalMsgCount s = sum_Z (counts s).

(** A timer tick. *)
Definition is_tick {Msg} (op : Op Msg) : bool :=
  match op with
  | Tick _ => true
  | _ => false
  end.

(** The counts that a flush closing [n] seconds stores when [k] messages
    are waiting, newest first: all but one in the first second, the last
    one in the second second, none after that. *)
Definition pushed_counts (k : Z) (n : nat) : list Z :=
  match n with
  | O => []
  | S O => [Z.max 0 (k - 1)]
  | S (S m) => replicate m 0 ++ [Z.min (Z.max 0 k) 1; Z.max 0 (k - 1)]
  end.

End Older.

(** ** Concrete instances of the older variant

    Messages and statistics are numbers; the statistics of a second are
    the message of the flush that closed it. *)

Definition older_hook (addedMsgCount : Z) (msgStatistics : option Z)
    (msg : option Z) : option Z := msg.

(** A window of three seconds, 300 milliseconds after the first of two
    messages. *)
Definition older_waiting_world : Older.World Z Z :=
  {| Older.self :=
       {| Older.frequency := Str "sec"; Older.paused := false;
          Older.estimationStartup := true; Older.ignoreStartup := false;
          Older.interval := 3; Older.bufferSize := 3;
          Older.circularBuffer :=
            {| Ring._buffer := ∅; Ring._capacity := 3;
               Ring._first := 0; Ring._size := 0 |};
          Older.msgCount := 2;
          Older.prevStartup := false; Older.prevTotalMsgCount := 0;
          Older.totalMsgCount := 0;
          Older.startTime := Some 0; Older.endTime := Some 0;
          Older.timer := Some 1%nat |};
     Older.intervals := {[ 1%nat := 1000 ]}; Older.nextTimer := 2%nat;
     Older.calls := [] |}.

(** * Facts about the embedding *)

Example parseInt_examples :
  parseInt (Str "12") = Num 12 ∧ parseInt (Str " -5px") = Num (-5)
  ∧ parseInt (Str "abc") = NaN ∧ parseInt (Str "0x1f") = Num 31
  ∧ parseInt (Str "") = NaN ∧ parseInt (Bool true) = NaN.
Proof. repeat split; reflexivity. Qed.

(** Beyond small integers and ASCII: 10^21 prints as [1e+21], 2^53 + 1 is
    the double 2^53, and a no-break space (the bytes 194 and 160) is
    skipped. *)
Example parseInt_number_and_space :
  parseInt (Number (Num (10 ^ 21))) = Num 1
  ∧ parseInt (Number (Num (2 ^ 53 + 1))) = Num (2 ^ 53)
  ∧ parseInt (Str (String (ascii_of_nat 194) (String (ascii_of_nat 160) "12")))
    = Num 12.
Proof. repeat split; vm_compute; reflexivity. Qed.


(** ** The circular buffer *)

Section CircularBuffer_facts.
Import CircularBuffer.

Context {Stat : Type}.
Implicit Types (b : t Stat).

Lemma cb_wf_spec (b : t Stat) :
  wf b = true ↔
  1 ≤ _capacity b ∧ 0 ≤ _first b < _capacity b ∧ 0 ≤ _size b ≤ _capacity b
  ∧ ∀ i, 0 ≤ i < _size b →
         is_Some (_buffer b !! ((_first b + i) `mod` _capacity b)).
Proof.
  unfold wf. rewrite !andb_true_iff, forallb_forall.
  rewrite !Z.leb_le, Z.ltb_lt. split.
  - intros [[[[[? ?] ?] ?] ?] Hall]. repeat split; try lia.
    intros i Hi. eapply bool_decide_eq_true, Hall.
    apply list_elem_of_In, elem_of_seqZ. lia.
  - intros (? & ? & ? & Hall). repeat split; try lia.
    intros i Hi%list_elem_of_In%elem_of_seqZ.
    apply bool_decide_eq_true, Hall. lia.
Qed.

Lemma cb_wf_new (capacity : Z) (b : t Stat) :
  new capacity = Ok b → wf b = true ∧ _capacity b = capacity ∧ _size b = 0.
Proof.
  unfold new. destruct (Z.ltb_spec capacity 1); [done|].
  intros [= <-]. split; [|done]. apply cb_wf_spec; simpl.
  repeat split; try lia.
Qed.

Lemma length_omap_total {A B} (f : A → option B) (l : list A) :
  Forall (λ x, is_Some (f x)) l → length (omap f l) = length l.
Proof.
  induction 1 as [|x l [y Hy] _ IH]; [done|].
  csimpl. rewrite Hy. simpl. by rewrite IH.
Qed.

Lemma cb_length_toarray (b : t Stat) :
  wf b = true → length (toarray b) = Z.to_nat (_size b).
Proof.
  intros (? & ? & ? & Hall)%cb_wf_spec. unfold toarray.
  rewrite length_omap_total, length_seqZ; [done|].
  apply Forall_seqZ. intros i Hi. apply Hall. lia.
Qed.

(** Where the slot [j + 1] places after the new head sits. *)
Lemma cb_enq_index (b : t Stat) (first j : Z) :
  first = (if 0 <? _first b then _first b - 1 else _capacity b - 1) →
  1 ≤ _capacity b → 0 ≤ _first b < _capacity b → 0 ≤ j < _capacity b - 1 →
  (first + (1 + j)) `mod` _capacity b = (_first b + j) `mod` _capacity b
  ∧ (_first b + j) `mod` _capacity b ≠ first.
Proof.
  intros -> Hc Hf Hj.
  destruct (Z.ltb_spec 0 (_first b)).
  - split; [f_equal; lia|].
    destruct (decide (_first b + j < _capacity b)).
    + rewrite Z.mod_small by lia. lia.
    + replace (_first b + j) with ((_first b + j - _capacity b) + 1 * _capacity b) by lia.
      rewrite Z_mod_plus_full, Z.mod_small by lia. lia.
  - assert (_first b = 0) as -> by lia. split.
    + replace (_capacity b - 1 + (1 + j)) with (0 + j + 1 * _capacity b) by lia.
      by rewrite Z_mod_plus_full.
    + rewrite Z.mod_small by lia. lia.
Qed.

Lemma cb_toarray_enq (value : Cell Stat) (b : t Stat) :
  wf b = true →
  toarray (enq value b) = value :: take (Z.to_nat (_capacity b - 1)) (toarray b).
Proof.
  intros Hwf. pose proof (cb_length_toarray b Hwf) as Hlen.
  apply cb_wf_spec in Hwf as (Hc & Hf & Hs & Hall).
  unfold toarray at 1. unfold enq; simpl.
  set (first := if 0 <? _first b then _first b - 1 else _capacity b - 1).
  set (size := if _size b <? _capacity b then _size b + 1 else _size b).
  assert (0 ≤ first < _capacity b) as Hfirst
    by (subst first; destruct (Z.ltb_spec 0 (_first b)); lia).
  assert (0 < size ∧ Z.pred size ≤ _capacity b - 1 ∧ Z.pred size ≤ _size b
          ∧ (Z.pred size = _size b ∨ Z.pred size = _capacity b - 1)) as (? & ? & ? & Hcase)
    by (subst size; destruct (Z.ltb_spec (_size b) (_capacity b)); lia).
  rewrite seqZ_cons by done. csimpl.
  rewrite Z.add_0_r, Z.mod_small, lookup_insert_eq by done. simpl. f_equal.
  change (Z.succ 0) with (1 + 0). rewrite <-fmap_add_seqZ.
  transitivity (omap (λ i, _buffer b !! ((_first b + i) `mod` _capacity b))
                     (seqZ 0 (Z.pred size))).
  - apply list_omap_ext, Forall2_fmap_l, Forall_Forall2_diag, Forall_seqZ.
    intros j Hj. simpl.
    destruct (cb_enq_index b first j) as [-> Hne]; [done|lia..|].
    by rewrite lookup_insert_ne.
  - unfold toarray in *. destruct Hcase as [Heq|Heq].
    + rewrite Heq, take_ge; [done|]. rewrite Hlen. lia.
    + assert (seqZ 0 (_size b)
              = seqZ 0 (Z.pred size) ++ seqZ (0 + Z.pred size) (_size b - Z.pred size))
        as -> by (rewrite <-seqZ_app by lia; f_equal; lia).
      rewrite omap_app, take_app_length'; [done|].
      rewrite length_omap_total, length_seqZ; [lia|].
      apply Forall_seqZ. intros i Hi. apply Hall. lia.
Qed.

Lemma cb_wf_enq (value : Cell Stat) (b : t Stat) : wf b = true → wf (enq value b) = true.
Proof.
  intros Hwf. pose proof Hwf as (Hc & Hf & Hs & Hall)%cb_wf_spec.
  apply cb_wf_spec. unfold enq; simpl.
  set (first := if 0 <? _first b then _first b - 1 else _capacity b - 1).
  assert (0 ≤ first < _capacity b) as Hfirst
    by (subst first; destruct (Z.ltb_spec 0 (_first b)); lia).
  repeat split; try lia; try (destruct (Z.ltb_spec (_size b) (_capacity b)); lia).
  intros i Hi. destruct (decide (i = 0)) as [->|].
  - rewrite Z.add_0_r, Z.mod_small, lookup_insert_eq by done. eauto.
  - destruct (cb_enq_index b first (i - 1)) as [Heq Hne]; [done|..].
    1-3: destruct (Z.ltb_spec (_size b) (_capacity b)); lia.
    replace (1 + (i - 1)) with i in Heq by lia.
    rewrite Heq, lookup_insert_ne by done. apply Hall.
    destruct (Z.ltb_spec (_size b) (_capacity b)); lia.
Qed.

(** On a full buffer [get(capacity - 1)] is the oldest cell. *)
Lemma cb_get_tail (b : t Stat) :
  wf b = true → _capacity b ≤ _size b →
  ∃ c, get (_capacity b - 1) b = Ok c
       ∧ toarray b = take (Z.to_nat (_capacity b - 1)) (toarray b) ++ [c].
Proof.
  intros Hwf Hfull. pose proof (cb_length_toarray b Hwf) as Hlen.
  apply cb_wf_spec in Hwf as (Hc & Hf & Hs & Hall).
  destruct (Hall (_capacity b - 1)) as [c Hc']; [lia|].
  exists c. unfold get. rewrite Hc'.
  destruct (Z.eqb_spec (_size b) 0); [lia|]. simpl.
  destruct (Z.ltb_spec (_capacity b - 1) 0); [lia|].
  destruct (Z.leb_spec (_size b) (_capacity b - 1)); [lia|].
  split; [done|]. unfold toarray in *.
  assert (seqZ 0 (_size b) = seqZ 0 (_capacity b - 1) ++ [_capacity b - 1]) as ->.
  { replace (_size b) with ((_capacity b - 1) + 1) by lia.
    by rewrite seqZ_app by lia. }
  rewrite omap_app, take_app_length'.
  - f_equal. csimpl. by rewrite Hc'.
  - rewrite length_omap_total, length_seqZ; [lia|].
    apply Forall_seqZ. intros i Hi. apply Hall. lia.
Qed.

End CircularBuffer_facts.

(** ** Sums over cells and windows of lists *)

Lemma sum_with_app {Stat} (f : Cell Stat → Z) (l k : list (Cell Stat)) :
  sum_with f (l ++ k) = sum_with f l + sum_with f k.
Proof. induction l as [|c l IH]; simpl; [done|]. rewrite IH. lia. Qed.

Lemma sum_statistic_app `{!Arithmetic Stat} (l k : list (Cell Stat)) :
  add_exact Stat →
  sum_statistic (l ++ k) = num_add (sum_statistic l) (sum_statistic k).
Proof.
  intros (Hassoc & _ & Hzero & _). induction l as [|c l IH]; simpl.
  - by rewrite Hzero.
  - by rewrite IH, Hassoc.
Qed.

(** The update of the running statistic: with exact arithmetic, adding
    the new cell and subtracting the evicted one gives the sum of the
    cells that remain. *)
Lemma sum_statistic_evict `{!Arithmetic Stat} (l : list (Cell Stat))
    (c p : Cell Stat) :
  add_exact Stat →
  num_sub (num_add (sum_statistic (l ++ [c])) (msgStatistic p))
          (msgStatistic c)
  = sum_statistic (p :: l).
Proof.
  intros Hex. pose proof Hex as (Hassoc & Hcomm & Hzero & Hsub).
  rewrite sum_statistic_app by done. simpl.
  rewrite (Hcomm (msgStatistic c) num_zero), Hzero.
  rewrite <-Hassoc, (Hcomm (msgStatistic c)), Hassoc, Hsub.
  apply Hcomm.
Qed.

(** The same update while nothing is evicted. *)
Lemma sum_statistic_push `{!Arithmetic Stat} (l : list (Cell Stat))
    (p : Cell Stat) :
  add_exact Stat →
  num_sub (num_add (sum_statistic l) (msgStatistic p)) num_zero
  = sum_statistic (p :: l).
Proof.
  intros (Hassoc & Hcomm & Hzero & Hsub). simpl.
  rewrite <-(Hzero (num_add (sum_statistic l) (msgStatistic p))) at 1.
  rewrite (Hcomm num_zero), Hsub. apply Hcomm.
Qed.

Lemma take_app_take {A} (n : nat) (l k : list A) :
  take n (l ++ take n k) = take n (l ++ k).
Proof. rewrite !take_app, take_take. do 2 f_equal. lia. Qed.

Lemma take_push {A} (n : Z) (c : A) (l : list A) :
  1 ≤ n → c :: take (Z.to_nat (n - 1)) l = take (Z.to_nat n) (c :: l).
Proof.
  intros Hn. replace (Z.to_nat n) with (S (Z.to_nat (n - 1))) by lia. done.
Qed.

Lemma replicate_shift {A} (n : nat) (x : A) (l : list A) :
  replicate n x ++ x :: l = replicate (S n) x ++ l.
Proof. induction n as [|n IH]; simpl; [done|]. by rewrite IH. Qed.

(** ** The flush loop *)

Section MessageAnalyzer_facts.

Context {Msg Stat : Type} `{!Arithmetic Stat}
  (calculateMsgStatistic : Msg → Stat).
Implicit Types (w : World Msg Stat) (s : State Stat).

Lemma State_wf_spec s :
  State_wf s = true ↔
  CircularBuffer.wf (circularBuffer s) = true
  ∧ CircularBuffer._capacity (circularBuffer s) = bufferSize s.
Proof. unfold State_wf. by rewrite andb_true_iff, Z.eqb_eq. Qed.

(** One iteration on a well-formed instance: it does not throw, pushes
    the pending cell and keeps the running count in step with the
    cells. *)
Lemma iteration_Ok w :
  State_wf (self w) = true →
  ∃ w', iteration w = Ok w'
    ∧ State_wf (self w') = true
    ∧ bufferSize (self w') = bufferSize (self w)
    ∧ CircularBuffer.toarray (circularBuffer (self w'))
      = take (Z.to_nat (bufferSize (self w)))
             (pending (self w)
                :: CircularBuffer.toarray (circularBuffer (self w)))
    ∧ (count_consistent (self w) → count_consistent (self w'))
    ∧ pending (self w') = zero_cell.
Proof.
  intros Hs. pose proof Hs as [Hwf Hcap]%State_wf_spec.
  pose proof Hwf as (Hc & Hf & Hsz & _)%cb_wf_spec.
  pose proof (cb_length_toarray _ Hwf) as Hlen.
  pose proof (cb_toarray_enq (pending (self w)) _ Hwf) as Harr.
  rewrite take_push, Hcap in Harr by lia.
  unfold iteration, CircularBuffer.size.
  set (b := CircularBuffer.enq _ _) in *.
  assert (State_wf_after : CircularBuffer.wf b = true
                           ∧ CircularBuffer._capacity b = bufferSize (self w))
    by (split; [by apply cb_wf_enq|done]).
  destruct (Z.leb_spec (bufferSize (self w))
              (CircularBuffer._size (circularBuffer (self w)))) as [Hfull|Hroom].
  - destruct (cb_get_tail _ Hwf) as (c & Hget & Hlast); [lia|].
    rewrite Hcap in Hget, Hlast. rewrite Hget. simpl.
    destruct (report _ _ _ _) as [[n st] isStartup].
    eexists; split; [done|]. simpl.
    split; [by apply State_wf_spec|]. split; [done|]. split; [done|].
    split; [|done]. intros Hn. unfold count_consistent in *; simpl.
    rewrite Harr, Hn. rewrite Hlast at 1.
    rewrite <-Hcap, <-(take_push _ (pending (self w))) by lia.
    rewrite !sum_with_app; simpl. lia.
  - simpl. destruct (report _ _ _ _) as [[n st] isStartup].
    eexists; split; [done|]. simpl.
    split; [by apply State_wf_spec|]. split; [done|]. split; [done|].
    split; [|done]. intros Hn. unfold count_consistent in *; simpl.
    rewrite Harr, Hn.
    rewrite <-(take_push _ (pending (self w))), take_ge by lia.
    simpl. lia.
Qed.

(** With exact arithmetic an iteration keeps the running statistic in
    step with the cells as well. *)
Lemma iteration_statistic w w' :
  add_exact Stat → State_wf (self w) = true → iteration w = Ok w' →
  statistic_consistent (self w) → statistic_consistent (self w').
Proof.
  intros Hex Hs Hit Hst. pose proof Hs as [Hwf Hcap]%State_wf_spec.
  pose proof Hwf as (Hc & Hf & Hsz & _)%cb_wf_spec.
  pose proof (cb_length_toarray _ Hwf) as Hlen.
  pose proof (cb_toarray_enq (pending (self w)) _ Hwf) as Harr.
  rewrite take_push, Hcap in Harr by lia.
  revert Hit. unfold iteration, CircularBuffer.size.
  set (b := CircularBuffer.enq _ _) in *.
  destruct (Z.leb_spec (bufferSize (self w))
              (CircularBuffer._size (circularBuffer (self w)))) as [Hfull|Hroom].
  - destruct (cb_get_tail _ Hwf) as (c & Hget & Hlast); [lia|].
    rewrite Hcap in Hget, Hlast. rewrite Hget. simpl.
    destruct (report _ _ _ _) as [[n st] isStartup]. intros [= <-].
    unfold statistic_consistent in *; simpl.
    rewrite Harr, Hst. rewrite Hlast at 1.
    rewrite <-Hcap, <-(take_push _ (pending (self w))) by lia.
    by apply (sum_statistic_evict _ c (pending (self w))).
  - simpl. destruct (report _ _ _ _) as [[n st] isStartup]. intros [= <-].
    unfold statistic_consistent in *; simpl.
    rewrite Harr, Hst.
    rewrite <-(take_push _ (pending (self w))), take_ge by lia.
    by apply (sum_statistic_push _ (pending (self w))).
Qed.

(** What an iteration leaves alone. *)
Lemma iteration_frame w w' :
  iteration w = Ok w' →
  paused (self w') = paused (self w) ∧ timer (self w') = timer (self w)
  ∧ bufferSize (self w') = bufferSize (self w)
  ∧ estimationStartup (self w') = estimationStartup (self w)
  ∧ ignoreStartup (self w') = ignoreStartup (self w)
  ∧ intervals w' = intervals w ∧ nextTimer w' = nextTimer w
  ∧ statistic_calls (calls w') = statistic_calls (calls w).
Proof.
  unfold iteration.
  destruct (if _ <=? _ then _ else _) as [c|]; [simpl|done].
  destruct (report _ _ _ _) as [[n st] isStartup]. intros [= <-]. simpl.
  repeat split. unfold statistic_calls. rewrite !omap_app.
  destruct (_ || _ || _), (_ || _); simpl; by rewrite ?app_nil_r.
Qed.

Lemma for_loop_frame n w w' :
  for_loop n w = Ok w' →
  paused (self w') = paused (self w) ∧ timer (self w') = timer (self w)
  ∧ bufferSize (self w') = bufferSize (self w)
  ∧ estimationStartup (self w') = estimationStartup (self w)
  ∧ ignoreStartup (self w') = ignoreStartup (self w)
  ∧ intervals w' = intervals w ∧ nextTimer w' = nextTimer w
  ∧ statistic_calls (calls w') = statistic_calls (calls w).
Proof.
  revert w. induction n as [|n IH]; intros w; simpl.
  - by intros [= <-].
  - destruct (iteration w) as [w1|] eqn:Hit; [simpl|done].
    intros Hloop. apply iteration_frame in Hit. apply IH in Hloop.
    destruct_and!. repeat split; congruence.
Qed.

Lemma for_loop_Ok n w :
  State_wf (self w) = true →
  ∃ w', for_loop n w = Ok w'
    ∧ State_wf (self w') = true
    ∧ (count_consistent (self w) → count_consistent (self w')).
Proof.
  revert w. induction n as [|n IH]; intros w Hwf; simpl; [by eauto|].
  destruct (iteration_Ok w Hwf) as (w1 & -> & Hwf1 & _ & _ & Hsum1 & _).
  destruct (IH w1 Hwf1) as (w' & Hloop & ? & ?). simpl. eauto 10.
Qed.

(** A pass that closes [S n] seconds pushes the pending cell and then
    [n] empty ones. *)
Lemma for_loop_cells n w :
  State_wf (self w) = true →
  ∃ w', for_loop (S n) w = Ok w'
    ∧ CircularBuffer.toarray (circularBuffer (self w'))
      = take (Z.to_nat (bufferSize (self w)))
             (replicate n zero_cell
                ++ pending (self w)
                :: CircularBuffer.toarray (circularBuffer (self w)))
    ∧ pending (self w') = zero_cell.
Proof.
  revert w. induction n as [|n IH]; intros w Hwf.
  - destruct (iteration_Ok w Hwf) as (w1 & Hit & _ & _ & Harr & _ & Hp).
    exists w1. simpl. rewrite Hit. done.
  - destruct (iteration_Ok w Hwf) as (w1 & Hit & Hwf1 & Hsz & Harr & _ & Hp).
    destruct (IH w1 Hwf1) as (w' & Hloop & Harr' & Hp').
    exists w'. split; [|split; [|done]].
    + change (for_loop (S (S n)) w) with (iteration w ≫= for_loop (S n)).
      by rewrite Hit.
    + rewrite Harr', Hp, Hsz, Harr, replicate_shift. apply take_app_take.
Qed.

(** ** The methods on a well-formed instance *)

Lemma analyse_Ok now msg w :
  State_wf (self w) = true →
  ∃ w', _analyse calculateMsgStatistic now msg w = Ok w'
    ∧ State_wf (self w') = true
    ∧ (count_consistent (self w) → count_consistent (self w')).
Proof.
  intros Hwf. unfold _analyse.
  set (w0 := with_self (set_endTime _) _).
  destruct (for_loop_Ok (Z.to_nat ((now - default now (startTime (self w))) / 1000)) w0)
    as (w1 & -> & Hwf1 & Hsum1); [done|]. simpl.
  destruct msg as [m|]; eauto.
Qed.

Lemma analyse_frame now msg w w' :
  _analyse calculateMsgStatistic now msg w = Ok w' →
  paused (self w') = paused (self w) ∧ timer (self w') = timer (self w)
  ∧ bufferSize (self w') = bufferSize (self w)
  ∧ intervals w' = intervals w ∧ nextTimer w' = nextTimer w.
Proof.
  unfold _analyse. set (w0 := with_self (set_endTime _) _).
  destruct (for_loop _ w0) as [w1|] eqn:Hloop; [simpl|done].
  apply for_loop_frame in Hloop. subst w0. simpl in Hloop. destruct_and!.
  destruct msg; intros [= <-]; simpl; repeat split; congruence.
Qed.

Lemma process_Ok now msg w :
  State_wf (self w) = true →
  ∃ w', process calculateMsgStatistic now msg w = Ok w'
    ∧ State_wf (self w') = true
    ∧ (count_consistent (self w) → count_consistent (self w')).
Proof.
  intros Hwf. unfold process. destruct (paused (self w)); simpl; [by eauto|].
  set (w0 := match timer (self w) with Some t => clearInterval t w | None => w end).
  assert (self w0 = self w) as Hself by (subst w0; by destruct (timer (self w))).
  destruct (analyse_Ok now msg w0) as (w1 & -> & Hwf1 & Hsum1); [by rewrite Hself|].
  rewrite Hself in Hsum1. simpl. eauto.
Qed.

Lemma State_wf_bufferSize s : State_wf s = true → 1 ≤ bufferSize s.
Proof. intros [(? & _)%cb_wf_spec <-]%State_wf_spec. done. Qed.

Lemma reset_Ok w :
  1 ≤ bufferSize (self w) →
  ∃ w', reset w = Ok w'
    ∧ State_wf (self w') = true ∧ count_consistent (self w').
Proof.
  intros Hsz. unfold reset, CircularBuffer.new.
  destruct (Z.ltb_spec (bufferSize (self w)) 1); [lia|]. simpl.
  eexists; split; [done|]. split; [|done].
  apply State_wf_spec; simpl. split; [|done].
  apply cb_wf_spec; simpl. repeat split; lia.
Qed.

(** Every driver step on a well-formed instance whose running count
    agrees with its cells returns, and
    returns such an instance. *)
Lemma step_Ok op w :
  State_wf (self w) = true → count_consistent (self w) →
  ∃ w', step calculateMsgStatistic op w = Ok w'
    ∧ State_wf (self w') = true ∧ count_consistent (self w').
Proof.
  intros Hwf Hsum. destruct op as [now msg|now| |now| |]; simpl.
  - destruct (process_Ok now msg w Hwf) as (w' & ? & ? & ?). eauto.
  - unfold tick. case_decide; [by eauto|].
    destruct (analyse_Ok now None w Hwf) as (w' & ? & ? & ?). eauto.
  - eexists; split; [done|]. unfold pause.
    destruct (paused (self w)); simpl; [done|].
    by destruct (timer (self w)).
  - unfold resume. destruct (paused (self w)); [|by eauto].
    set (w0 := with_self (set_startTime _) _).
    destruct (process_Ok now None w0) as (w' & ? & ? & ?); [done|]. eauto.
  - unfold stop. apply reset_Ok.
    destruct (timer (self w)); simpl; by apply State_wf_bufferSize.
  - apply reset_Ok. by apply State_wf_bufferSize.
Qed.

Lemma constructor_Ok config w :
  constructor config = Ok w →
  State_wf (self w) = true ∧ count_consistent (self w).
Proof.
  unfold constructor.
  destruct (interval_of config) as [|i]; [done|].
  destruct (bufferSize_of config) as [|n]; [done|].
  unfold reset, CircularBuffer.new; simpl.
  destruct (Z.ltb_spec n 1); [done|]. simpl. intros [= <-]. simpl.
  split; [|done]. apply State_wf_spec; simpl. split; [|done].
  apply cb_wf_spec; simpl. repeat split; lia.
Qed.

(** *** The running statistic under exact arithmetic *)

Lemma for_loop_statistic n w w' :
  add_exact Stat → State_wf (self w) = true → for_loop n w = Ok w' →
  statistic_consistent (self w) → statistic_consistent (self w').
Proof.
  intros Hex. revert w. induction n as [|n IH]; intros w Hwf; simpl.
  - by intros [= <-].
  - destruct (iteration_Ok w Hwf) as (w1 & Hit & Hwf1 & _).
    rewrite Hit. simpl. intros Hloop Hst.
    apply (IH w1 Hwf1 Hloop). by apply (iteration_statistic w w1).
Qed.

Lemma analyse_statistic now msg w w' :
  add_exact Stat → State_wf (self w) = true →
  _analyse calculateMsgStatistic now msg w = Ok w' →
  statistic_consistent (self w) → statistic_consistent (self w').
Proof.
  intros Hex Hwf. unfold _analyse. cbv zeta.
  destruct (for_loop _ _) as [w1|] eqn:Hloop; [simpl|done].
  intros Hw' Hst. apply for_loop_statistic in Hloop; [|done|done|exact Hst].
  destruct msg; injection Hw' as <-; exact Hloop.
Qed.

Lemma process_statistic now msg w w' :
  add_exact Stat → State_wf (self w) = true →
  process calculateMsgStatistic now msg w = Ok w' →
  statistic_consistent (self w) → statistic_consistent (self w').
Proof.
  intros Hex Hwf. unfold process. destruct (paused (self w)); simpl;
    [by intros [= <-]|].
  set (w0 := match timer (self w) with Some t => clearInterval t w | None => w end).
  assert (self w0 = self w) as Hself by (subst w0; by destruct (timer (self w))).
  destruct (_analyse _ _ _ w0) as [w1|] eqn:Ha; [simpl|done].
  intros [= <-] Hst. apply analyse_statistic in Ha; [exact Ha|done| |];
    by rewrite Hself.
Qed.

Lemma reset_statistic w w' : reset w = Ok w' → statistic_consistent (self w').
Proof.
  unfold reset, CircularBuffer.new.
  destruct (_ <? 1); simpl; [done|]. by intros [= <-].
Qed.

Lemma step_statistic op w w' :
  add_exact Stat → State_wf (self w) = true →
  step calculateMsgStatistic op w = Ok w' →
  statistic_consistent (self w) → statistic_consistent (self w').
Proof.
  intros Hex Hwf. destruct op as [now msg|now| |now| |]; simpl.
  - by apply process_statistic.
  - unfold tick. case_decide; [by intros [= <-]|]. by apply analyse_statistic.
  - intros [= <-]. unfold pause. destruct (paused (self w)); simpl; [done|].
    by destruct (timer (self w)).
  - unfold resume. destruct (paused (self w)); [|by intros [= <-]].
    intros Hp Hst. by apply process_statistic in Hp.
  - unfold stop. intros Hr _. by apply reset_statistic in Hr.
  - intros Hr _. by apply reset_statistic in Hr.
Qed.


(** ** Catching up *)

Lemma retime_retime (t t' : option Z) w : retime t (retime t' w) = retime t w.
Proof. done. Qed.

(** The loop body reads [endTime] only to copy it into [startTime]. *)
Lemma iteration_set_times (x e : option Z) w :
  iteration (with_self (set_endTime e) (with_self (set_startTime x) w))
  = retime e <$> iteration w.
Proof.
  unfold iteration; simpl.
  destruct (if _ <=? _ then _ else _) as [c|]; [simpl|done].
  by destruct (report _ _ _ _) as [[n st] isStartup].
Qed.

Lemma for_loop_retime (e : option Z) n w :
  for_loop n (retime e w) = retime e <$> for_loop n w.
Proof.
  revert w. induction n as [|n IH]; intros w; simpl; [done|].
  unfold retime at 1.
  change (with_self (λ s, set_startTime e (set_endTime e s)) w)
    with (with_self (set_endTime e) (with_self (set_startTime e) w)).
  rewrite iteration_set_times.
  destruct (iteration w) as [w1|]; simpl; [|done]. apply IH.
Qed.

Lemma for_loop_set_times (x e : option Z) n w :
  for_loop (S n) (with_self (set_endTime e) (with_self (set_startTime x) w))
  = retime e <$> for_loop (S n) w.
Proof.
  simpl. rewrite iteration_set_times.
  destruct (iteration w) as [w1|]; simpl; [|done]. apply for_loop_retime.
Qed.

(** A flush without a message, [n > 0] whole seconds (and [r]
    milliseconds) after [startTime], is [n] iterations, after which both
    cursors stand on the last whole-second boundary. *)
Lemma analyse_None_catch_up (t n r : Z) w :
  startTime (self w) = Some t → 0 < n → 0 ≤ r < 1000 →
  _analyse calculateMsgStatistic (t + 1000 * n + r) None w
  = retime (Some (t + 1000 * n)) <$> for_loop (Z.to_nat n) w.
Proof.
  intros Hstart Hn Hr. unfold _analyse. cbv zeta. rewrite Hstart. simpl default.
  replace (t + 1000 * n + r - t) with (r + n * 1000) by lia.
  rewrite Z_div_plus_full, Z_mod_plus_full, Z.div_small, Z.mod_small by lia.
  replace (t + 1000 * n + r - r) with (t + 1000 * n) by lia.
  rewrite Z.add_0_l.
  destruct (Z.to_nat n) as [|m] eqn:Hm; [lia|].
  rewrite for_loop_set_times. by destruct (for_loop (S m) w).
Qed.

Lemma flushes_boundaries (t : Z) n w :
  startTime (self w) = Some t →
  flushes calculateMsgStatistic (boundaries t (S n)) w
  = retime (Some (t + 1000 * Z.of_nat (S n))) <$> for_loop (S n) w.
Proof.
  revert t w. induction n as [|n IH]; intros t w Hstart.
  - cbn [boundaries flushes].
    pose proof (analyse_None_catch_up t 1 0 w Hstart) as Hone.
    rewrite Z.add_0_r in Hone. rewrite Z.mul_1_r in Hone at 1.
    rewrite Hone by lia.
    change (Z.to_nat 1) with 1%nat.
    by destruct (for_loop 1 w).
  - cbn [boundaries flushes] in *.
    pose proof (analyse_None_catch_up t 1 0 w Hstart) as Hone.
    rewrite Z.add_0_r in Hone. rewrite Z.mul_1_r in Hone at 1.
    rewrite Hone by lia.
    change (Z.to_nat 1) with 1%nat.
    change (for_loop (S (S n)) w) with (iteration w ≫= for_loop (S n)).
    change (for_loop 1 w) with (iteration w ≫= Ok).
    destruct (iteration w) as [w1|]; [|done].
    cbn [mbind result_bind fmap result_fmap].
    specialize (IH (t + 1000) (retime (Some (t + 1000 * 1)) w1)).
    rewrite Z.mul_1_r in IH at 1.
    rewrite IH by done.
    rewrite for_loop_retime.
    replace (t + 1000 + 1000 * Z.of_nat (S n)) with (t + 1000 * Z.of_nat (S (S n))) by lia.
    by destruct (for_loop (S n) w1).
Qed.

(** C2. From a well-formed state with a set [startTime] and nothing
    pending, one [_analyse(null)] five seconds (plus any fraction of a
    second) later returns; the buffer then holds five new [{0, 0}] cells
    in front of the old ones (cut to the capacity); and the resulting
    state, hook calls included, is the one that five [_analyse(null)]
    calls reach, one at each of the five whole-second boundaries. *)
Theorem catch_up_equivalence (t0 r : Z) w :
  State_wf (self w) = true →
  startTime (self w) = Some t0 →
  newMsgCount (self w) = 0 → newMsgStatistic (self w) = num_zero →
  0 ≤ r < 1000 →
  ∃ w', _analyse calculateMsgStatistic (t0 + 5000 + r) None w = Ok w'
    ∧ CircularBuffer.toarray (circularBuffer (self w'))
      = take (Z.to_nat (bufferSize (self w)))
             (replicate 5 {| msgCount := 0; msgStatistic := num_zero |}
                ++ CircularBuffer.toarray (circularBuffer (self w)))
    ∧ flushes calculateMsgStatistic
        [t0 + 1000; t0 + 2000; t0 + 3000; t0 + 4000; t0 + 5000] w
      = Ok w'.
Proof.
  intros Hwf Hstart Hcount Hstat Hr.
  destruct (for_loop_cells 4 w Hwf) as (w5 & Hloop & Harr & _).
  exists (retime (Some (t0 + 5000)) w5). split; [|split].
  - replace (t0 + 5000 + r) with (t0 + 1000 * 5 + r) by lia.
    rewrite (analyse_None_catch_up t0 5 r w) by (done || lia).
    change (Z.to_nat 5) with 5%nat. by rewrite Hloop.
  - simpl. rewrite Harr. unfold pending. rewrite Hcount, Hstat.
    by rewrite replicate_shift.
  - pose proof (flushes_boundaries t0 4 w Hstart) as Hfive.
    rewrite Hloop in Hfive. cbn [boundaries] in Hfive.
    replace (t0 + 1000 + 1000) with (t0 + 2000) in Hfive by lia.
    replace (t0 + 2000 + 1000) with (t0 + 3000) in Hfive by lia.
    replace (t0 + 3000 + 1000) with (t0 + 4000) in Hfive by lia.
    replace (t0 + 4000 + 1000) with (t0 + 5000) in Hfive by lia.
    exact Hfive.
Qed.

(** ** Recording an event *)

Lemma analyse_Some now m w :
  _analyse calculateMsgStatistic now (Some m) w
  = add_event calculateMsgStatistic m
      <$> _analyse calculateMsgStatistic now None w.
Proof. unfold _analyse. cbv zeta. by destruct (for_loop _ _). Qed.

Lemma analyse_None_calls now w w' :
  _analyse calculateMsgStatistic now None w = Ok w' →
  statistic_calls (calls w') = statistic_calls (calls w).
Proof.
  unfold _analyse. cbv zeta.
  destruct (for_loop _ _) as [w1|] eqn:Hloop; [simpl|done].
  intros [= <-]. by apply for_loop_frame in Hloop as (_&_&_&_&_&_&_&->).
Qed.

Lemma analyse_startTime now msg w w' :
  _analyse calculateMsgStatistic now msg w = Ok w' →
  is_Some (startTime (self w')).
Proof.
  unfold _analyse. cbv zeta.
  destruct (Z.to_nat _) as [|n].
  - simpl. destruct msg; intros [= <-]; simpl; eauto.
  - rewrite for_loop_set_times.
    destruct (for_loop (S n) w) as [w1|]; [simpl|done].
    destruct msg; intros [= <-]; simpl; eauto.
Qed.

(** A flush that closes [S n] seconds stores the pending cell and [n]
    empty cells; what is pending afterwards is the new message alone. *)
Lemma analyse_cells now msg (t : Z) n w :
  State_wf (self w) = true →
  startTime (self w) = Some t → (now - t) / 1000 = Z.of_nat (S n) →
  ∃ w', _analyse calculateMsgStatistic now msg w = Ok w'
    ∧ CircularBuffer.toarray (circularBuffer (self w'))
      = take (Z.to_nat (bufferSize (self w)))
             (replicate n zero_cell
                ++ pending (self w)
                :: CircularBuffer.toarray (circularBuffer (self w)))
    ∧ pending (self w')
      = match msg with
        | Some m' =>
            {| msgCount := 1;
               msgStatistic := num_add num_zero (calculateMsgStatistic m') |}
        | None => zero_cell
        end.
Proof.
  intros Hwf Hstart Hn. unfold _analyse. cbv zeta.
  rewrite Hstart. simpl default. rewrite Hn, Nat2Z.id.
  set (w0 := with_self (set_endTime _) _).
  destruct (for_loop_cells n w0) as (w1 & -> & Harr & Hp); [done|].
  simpl in Harr. unfold pending in *. simpl in Hp.
  injection Hp as Hc Hst.
  destruct msg as [m'|]; simpl; eexists; (split; [done|]); simpl;
    rewrite ?Hc, ?Hst; done.
Qed.

(** A flush less than a second after [startTime] only moves [endTime]
    and records the message. *)
Lemma analyse_within_second now msg (t : Z) w :
  startTime (self w) = Some t → now - t < 1000 →
  _analyse calculateMsgStatistic now msg w
  = Ok (let w0 := with_self (set_endTime (Some (now - (now - t) `mod` 1000)))
                    (with_self (set_startTime (Some t)) w) in
        match msg with
        | Some m => add_event calculateMsgStatistic m w0
        | None => w0
        end).
Proof.
  intros Hstart Hlt. unfold _analyse. cbv zeta. rewrite Hstart. simpl default.
  assert ((now - t) / 1000 < 1) as Hq by (apply Z.div_lt_upper_bound; lia).
  destruct (Z.to_nat _) eqn:Hn; [|lia]. simpl. by destruct msg.
Qed.

Lemma messages_cons (op : Op Msg) (ops : list (Op Msg)) :
  messages (op :: ops) = messages [op] ++ messages ops.
Proof. apply (omap_app _ [op] ops). Qed.

(** An arrival less than a second after [startTime] closes no second:
    the buffer stays and the message, if there is one, joins what is
    pending. *)
Lemma arrival_within_second (t : Z) (op : Op Msg) w :
  State_wf (self w) = true → paused (self w) = false →
  startTime (self w) = Some t → within_second t op = true →
  ∃ w', step calculateMsgStatistic op w = Ok w'
    ∧ State_wf (self w') = true ∧ paused (self w') = false
    ∧ startTime (self w') = Some t
    ∧ bufferSize (self w') = bufferSize (self w)
    ∧ circularBuffer (self w') = circularBuffer (self w)
    ∧ newMsgCount (self w')
      = newMsgCount (self w) + Z.of_nat (length (messages [op]))
    ∧ newMsgStatistic (self w')
      = foldl (λ a m, num_add a (calculateMsgStatistic m))
              (newMsgStatistic (self w)) (messages [op])
    ∧ statistic_calls (calls w')
      = statistic_calls (calls w) ++ messages [op].
Proof.
  intros Hwf Hrun Hstart Hop.
  destruct op as [now msg|now| |now| |]; try done; simpl in Hop;
    apply Z.ltb_lt in Hop; simpl step.
  - unfold process. rewrite Hrun. simpl negb. cbv iota.
    set (w0 := match timer (self w) with Some t => clearInterval t w | None => w end).
    assert (self w0 = self w ∧ calls w0 = calls w) as [Hself Hcalls]
      by (subst w0; by destruct (timer (self w))).
    rewrite (analyse_within_second now msg t w0) by (by rewrite ?Hself).
    eexists. split; [reflexivity|].
    destruct msg as [m|]; cbn -[Z.sub Z.modulo Z.add]; rewrite Hself, ?Hcalls;
      repeat split; try done; try lia;
      unfold statistic_calls; by rewrite ?omap_app, ?app_nil_r.
  - unfold tick. case_decide.
    + exists w. simpl. rewrite Z.add_0_r, app_nil_r. done.
    + rewrite (analyse_within_second now None t w) by done.
      eexists. split; [reflexivity|]. cbn -[Z.sub Z.modulo Z.add].
      rewrite Z.add_0_r, app_nil_r. done.
Qed.

Lemma run_within_second (t : Z) (ops : list (Op Msg)) w :
  State_wf (self w) = true → paused (self w) = false →
  startTime (self w) = Some t → forallb (within_second t) ops = true →
  ∃ w', run calculateMsgStatistic ops w = Ok w'
    ∧ State_wf (self w') = true ∧ paused (self w') = false
    ∧ startTime (self w') = Some t
    ∧ bufferSize (self w') = bufferSize (self w)
    ∧ circularBuffer (self w') = circularBuffer (self w)
    ∧ newMsgCount (self w')
      = newMsgCount (self w) + Z.of_nat (length (messages ops))
    ∧ newMsgStatistic (self w')
      = foldl (λ a m, num_add a (calculateMsgStatistic m))
              (newMsgStatistic (self w)) (messages ops)
    ∧ statistic_calls (calls w')
      = statistic_calls (calls w) ++ messages ops.
Proof.
  revert w. induction ops as [|op ops IH]; intros w Hwf Hrun Hstart Hops.
  - exists w. simpl. rewrite Z.add_0_r, app_nil_r. done.
  - simpl in Hops. apply andb_true_iff in Hops as [Hop Hops].
    destruct (arrival_within_second t op w Hwf Hrun Hstart Hop)
      as (w1 & Hstep & Hwf1 & Hrun1 & Hstart1 & Hsz1 & Hcb1 & Hc1 & Hs1 & Hcalls1).
    destruct (IH w1 Hwf1 Hrun1 Hstart1 Hops)
      as (w' & Hrest & Hwf' & Hrun' & Hstart' & Hsz' & Hcb' & Hc' & Hs' & Hcalls').
    exists w'. simpl run. rewrite Hstep. cbn [mbind result_bind].
    split; [done|].
    rewrite messages_cons, length_app, foldl_app.
    rewrite Hsz', Hcb', Hc', Hs', Hcalls', Hsz1, Hcb1, Hc1, Hs1, Hcalls1.
    rewrite <-app_assoc. repeat split; try done. lia.
Qed.

(** C3. A [process] call with a message on an instance that is not
    paused returns; it calls [calculateMsgStatistic] exactly once, on
    that message; it differs from the same call without a message only
    in that, after the loop, the pending count is one higher and the
    pending statistic has the function's result added, so the message is
    in no second closed by this call.  The message then stays pending
    through every later arrival that closes no second, each of which only
    adds its own message.  The first flush that closes seconds pushes the
    pending cell once: its count is the count that was pending, plus one
    for the message, plus one for each later message; every other pushed
    cell is [{0, 0}], and what stays pending holds only that flush's own
    message. *)
Theorem event_counted_once now (m : Msg) w :
  State_wf (self w) = true → paused (self w) = false →
  ∃ w1 w2 (t : Z),
    process calculateMsgStatistic now None w = Ok w1
    ∧ process calculateMsgStatistic now (Some m) w = Ok w2
    ∧ w2 = add_event calculateMsgStatistic m w1
    ∧ newMsgCount (self w2) = newMsgCount (self w1) + 1
    ∧ newMsgStatistic (self w2)
      = num_add (newMsgStatistic (self w1)) (calculateMsgStatistic m)
    ∧ statistic_calls (calls w2) = statistic_calls (calls w) ++ [m]
    ∧ startTime (self w2) = Some t
    ∧ ∀ (ops : list (Op Msg)) now' msg' n,
        forallb (within_second t) ops = true →
        (now' - t) / 1000 = Z.of_nat (S n) →
        ∃ w3 w4,
          run calculateMsgStatistic ops w2 = Ok w3
          ∧ circularBuffer (self w3) = circularBuffer (self w2)
          ∧ statistic_calls (calls w3)
            = statistic_calls (calls w) ++ m :: messages ops
          ∧ _analyse calculateMsgStatistic now' msg' w3 = Ok w4
          ∧ CircularBuffer.toarray (circularBuffer (self w4))
            = take (Z.to_nat (bufferSize (self w)))
                   (replicate n {| msgCount := 0; msgStatistic := num_zero |}
                      ++ {| msgCount := newMsgCount (self w1) + 1
                                        + Z.of_nat (length (messages ops));
                            msgStatistic :=
                              foldl (λ a m', num_add a (calculateMsgStatistic m'))
                                    (num_add (newMsgStatistic (self w1))
                                             (calculateMsgStatistic m))
                                    (messages ops) |}
                      :: CircularBuffer.toarray (circularBuffer (self w1)))
          ∧ newMsgCount (self w4)
            = match msg' with Some _ => 1 | None => 0 end
          ∧ newMsgStatistic (self w4)
            = match msg' with
              | Some m' => num_add num_zero (calculateMsgStatistic m')
              | None => num_zero
              end.
Proof.
  intros Hwf Hrun. unfold process. rewrite Hrun. simpl negb. cbv iota.
  set (w0 := match timer (self w) with Some t => clearInterval t w | None => w end).
  assert (self w0 = self w ∧ calls w0 = calls w) as [Hself Hcalls]
    by (subst w0; by destruct (timer (self w))).
  rewrite analyse_Some.
  destruct (analyse_Ok now None w0) as (wa & Ha & Hwfa & _); [by rewrite Hself|].
  pose proof (analyse_None_calls _ _ _ Ha) as Hsc.
  pose proof (analyse_frame _ _ _ _ Ha) as (Hpa & _ & Hsz & _).
  destruct (analyse_startTime _ _ _ _ Ha) as [t Ht].
  rewrite Ha. simpl.
  eexists _, _, t. split; [done|]. split; [done|]. split; [done|].
  split; [done|]. split; [done|].
  assert (statistic_calls
            (calls (with_self (set_timer (Some (nextTimer wa)))
                      (setInterval timer_period
                         (add_event calculateMsgStatistic m wa)).2))
          = statistic_calls (calls w) ++ [m]) as Hsc2.
  { simpl. unfold statistic_calls in *. rewrite omap_app, Hsc, Hcalls. done. }
  split; [exact Hsc2|]. split; [done|]. intros ops now' msg' n Hops Hn.
  set (w2 := with_self (set_timer _) _) in *.
  destruct (run_within_second t ops w2)
    as (w3 & Hrun3 & Hwf3 & _ & Ht3 & Hsz3 & Hcb3 & Hc3 & Hs3 & Hcalls3);
    [done|by rewrite <-Hrun, <-Hself, <-Hpa|done|done|].
  destruct (analyse_cells now' msg' t n w3) as (w4 & Hflush & Harr & Hp);
    [done..|].
  exists w3, w4. split; [done|]. split; [done|].
  split; [by rewrite Hcalls3, Hsc2, <-app_assoc|]. split; [done|].
  rewrite Hsz3, Hcb3 in Harr. unfold pending in Harr. rewrite Hc3, Hs3 in Harr.
  simpl in Harr. rewrite Hsz, Hself in Harr.
  split; [exact Harr|]. unfold pending in Hp.
  destruct msg'; injection Hp as -> ->; done.
Qed.

(** ** What an iteration reports *)


(** ** Lifecycle *)

Lemma stop_Ok w :
  1 ≤ bufferSize (self w) →
  ∃ w', stop w = Ok w' ∧ paused (self w') = paused (self w).
Proof.
  intros Hsz. unfold stop, reset, CircularBuffer.new. cbv zeta.
  destruct (timer (self w)) as [t|] eqn:Ht; simpl;
    destruct (Z.ltb_spec (bufferSize (self w)) 1); try lia; simpl;
    by eexists.
Qed.

(** C7. [stop], on a running or a paused instance alike, clears the
    timer that [this.timer] holds, sets [this.timer] to null and then
    resets: the new buffer is empty, the running sums and the pending
    counters are 0 and both time cursors are null. *)
Theorem stop_reinitializes w :
  1 ≤ bufferSize (self w) →
  ∃ w', stop w = Ok w'
    ∧ timer (self w') = None
    ∧ intervals w' = match timer (self w) with
                     | Some t => delete t (intervals w)
                     | None => intervals w
                     end
    ∧ CircularBuffer.toarray (circularBuffer (self w')) = []
    ∧ CircularBuffer.size (circularBuffer (self w')) = 0
    ∧ CircularBuffer.capacity (circularBuffer (self w')) = bufferSize (self w)
    ∧ msgCountInBuffer (self w') = 0
    ∧ msgStatisticInBuffer (self w') = num_zero
    ∧ newMsgCount (self w') = 0 ∧ newMsgStatistic (self w') = num_zero
    ∧ startTime (self w') = None ∧ endTime (self w') = None
    ∧ paused (self w') = paused (self w).
Proof.
  intros Hsz. unfold stop, reset, CircularBuffer.new. cbv zeta.
  destruct (timer (self w)) as [t|] eqn:Ht; simpl;
    destruct (Z.ltb_spec (bufferSize (self w)) 1); try lia; simpl;
    eexists; (split; [done|]); simpl; rewrite ?Ht; repeat split; done.
Qed.

Lemma process_paused now msg w w' :
  process calculateMsgStatistic now msg w = Ok w' →
  paused (self w') = paused (self w).
Proof.
  unfold process. destruct (paused (self w)) eqn:Hp; simpl.
  - by intros [= <-].
  - set (w0 := match timer (self w) with Some t => clearInterval t w | None => w end).
    assert (self w0 = self w) as Hself by (subst w0; by destruct (timer (self w))).
    destruct (_analyse _ _ _ w0) as [w1|] eqn:Ha; [simpl|done].
    apply analyse_frame in Ha as (Hp1 & _). intros [= <-]. simpl.
    by rewrite Hp1, Hself.
Qed.

Lemma resume_Ok now w :
  ∃ w', resume calculateMsgStatistic now w = Ok w' ∧ paused (self w') = false.
Proof.
  unfold resume. destruct (paused (self w)) eqn:Hp; [|by eauto].
  unfold process, _analyse.
  destruct (timer (self w)) as [t|] eqn:Ht;
    cbn -[Z.sub Z.div Z.modulo Z.to_nat for_loop]; rewrite ?Ht;
    cbn -[Z.sub Z.div Z.modulo Z.to_nat for_loop];
    rewrite Z.sub_diag; by eexists.
Qed.

(** C9. A second [pause] right after a [pause] changes nothing, and a
    second [resume] right after a [resume] (which always returns)
    changes nothing, whenever the two are called. *)
Theorem pause_resume_idempotent (now1 now2 : Z) w :
  pause (pause w) = pause w
  ∧ ∃ w1, resume calculateMsgStatistic now1 w = Ok w1
          ∧ resume calculateMsgStatistic now2 w1 = Ok w1.
Proof.
  split.
  - unfold pause. destruct (paused (self w)) eqn:Hp; simpl; [by rewrite Hp|].
    by destruct (timer (self w)).
  - destruct (resume_Ok now1 w) as (w1 & Hres & Hp). exists w1.
    split; [done|]. unfold resume. by rewrite Hp.
Qed.

(** C10. [reset] leaves [paused] as it was, and so does [stop], which
    calls it: an instance reset while paused stays paused. *)
Theorem reset_keeps_paused w :
  1 ≤ bufferSize (self w) →
  (∃ w', reset w = Ok w' ∧ paused (self w') = paused (self w))
  ∧ (∃ w', stop w = Ok w' ∧ paused (self w') = paused (self w)).
Proof.
  intros Hsz. split.
  - unfold reset, CircularBuffer.new.
    destruct (Z.ltb_spec (bufferSize (self w)) 1); [lia|]. simpl. by eexists.
  - by apply stop_Ok.
Qed.

End MessageAnalyzer_facts.

(** ** The window length *)

Lemma switch_is_table (frequency : JsValue) :
  (if decide (frequency = Str "sec") then 1
   else if decide (frequency = Str "min") then 60
   else if decide (frequency = Str "hour") then 60 * 60
   else 1)
  = spec_secondsPerUnit frequency.
Proof.
  unfold spec_secondsPerUnit, secondsPerUnit_table.
  repeat case_decide; subst; try done.
  destruct frequency as [| | | |f]; try done.
  rewrite !lookup_insert_ne, lookup_singleton_ne by congruence. done.
Qed.

(** C8, as the code has it. The buffer size is the seconds per unit
    (sec 1, min 60, hour 3600, anything else 1) times the interval, where
    the interval is 1 when [config.interval] is absent or falsy in another
    way (null, 0, NaN, the empty string, false) and [parseInt] of it
    otherwise: a negative value is kept as it is, and a value without
    leading digits gives NaN. *)
Theorem bufferSize_of_config (config : Config) :
  bufferSize_of config
  = match truthy (cfg_interval config), parseInt (cfg_interval config) with
    | false, _ => Num (spec_secondsPerUnit (cfg_frequency config))
    | true, Num n => Num (spec_secondsPerUnit (cfg_frequency config) * n)
    | true, NaN => NaN
    end.
Proof.
  unfold bufferSize_of, interval_of. rewrite switch_is_table.
  destruct (truthy (cfg_interval config)); simpl.
  - by destruct (parseInt (cfg_interval config)).
  - by rewrite Z.mul_1_r.
Qed.

(** Where the code and the specification's fallback rule agree: on a falsy
    interval and on one that parses to a positive number. *)
Lemma bufferSize_of_spec (config : Config) :
  truthy (cfg_interval config) = false
  ∨ (∃ n, parseInt (cfg_interval config) = Num n ∧ 0 < n) →
  bufferSize_of config = Num (spec_bufferSize config).
Proof.
  unfold bufferSize_of, interval_of, spec_bufferSize, spec_effective_interval.
  rewrite switch_is_table. intros [Hfalsy|(n & Hn & Hpos)].
  - rewrite Hfalsy. simpl. do 2 f_equal.
    destruct (cfg_interval config) as [| |[]|[|z]|s];
      cbn [truthy] in Hfalsy; try discriminate; try done.
    + by apply negb_false_iff, Z.eqb_eq in Hfalsy as ->.
    + by apply negb_false_iff, String.eqb_eq in Hfalsy as ->.
  - rewrite Hn. destruct (Z.leb_spec n 0); [lia|].
    destruct (cfg_interval config) as [| |[]|[|z]|s]; cbn [truthy].
    1-5: by vm_compute in Hn.
    + destruct (Z.eqb_spec z 0) as [->|]; [|done].
      vm_compute in Hn. injection Hn as <-. lia.
    + destruct (String.eqb_spec s "") as [->|]; [|done].
      by vm_compute in Hn.
Qed.

(** C8, as stated, fails: with [interval: "-5"] and [frequency: "min"] the
    buffer size is -300, not 60. *)
Lemma bufferSize_negative_interval :
  bufferSize_of (config_of "min" (Str "-5") false) = Num (-300)
  ∧ spec_bufferSize (config_of "min" (Str "-5") false) = 60
  ∧ bufferSize_of (config_of "min" (Str "-5") false)
    ≠ Num (spec_bufferSize (config_of "min" (Str "-5") false)).
Proof. split; [reflexivity|]. split; [reflexivity|]. discriminate. Qed.

Example bufferSize_unparsable_interval :
  bufferSize_of (config_of "hour" (Str "abc") false) = NaN
  ∧ spec_bufferSize (config_of "hour" (Str "abc") false) = 3600.
Proof. split; reflexivity. Qed.

(** With such a buffer size the constructor throws: the circular buffer
    rejects the capacity. *)
Lemma constructor_throws {Msg} (config : Config) :
  (∀ n, bufferSize_of config = Num n → n < 1) →
  constructor (Msg:=Msg) config = Throw TypeError.
Proof.
  intros Hbad. unfold constructor.
  destruct (interval_of config); [done|].
  destruct (bufferSize_of config) as [|n]; [done|].
  unfold reset, CircularBuffer.new. simpl.
  destruct (Z.ltb_spec n 1); [done|]. specialize (Hbad n eq_refl). lia.
Qed.

(** ** The idle timer *)

Section Timers.

Context {Msg Stat : Type} `{!Arithmetic Stat}
  (calculateMsgStatistic : Msg → Stat).
Implicit Types (w : World Msg Stat).

Lemma delete_only (m : gmap nat Z) (t : nat) : dom m = {[t]} → delete t m = ∅.
Proof.
  intros Hdom. apply (dom_empty_inv_L (D:=gset nat)).
  rewrite dom_delete_L, Hdom. apply difference_diag_L.
Qed.

(** [process] on a running instance cancels the timer it holds before it
    flushes and leaves exactly one live timer, of period
    [timer_period]. *)
Lemma process_rearms now msg w :
  State_wf (self w) = true → paused (self w) = false → timers_ok w = true →
  ∃ w' t, process calculateMsgStatistic now msg w = Ok w'
    ∧ timer (self w') = Some t
    ∧ intervals w' = {[t := timer_period]}.
Proof.
  intros Hwf Hrun Hok. unfold process. rewrite Hrun. simpl negb. cbv iota.
  set (w0 := match timer (self w) with Some t => clearInterval t w | None => w end).
  assert (self w0 = self w ∧ intervals w0 = ∅) as [Hself Hnone].
  { subst w0. unfold timers_ok in Hok.
    destruct (timer (self w)) as [t|]; apply bool_decide_eq_true in Hok;
      simpl; [by rewrite delete_only|done]. }
  destruct (analyse_Ok calculateMsgStatistic now msg w0)
    as (w1 & Ha & _); [by rewrite Hself|].
  pose proof (analyse_frame _ _ _ _ _ Ha) as (_ & _ & _ & Hint & _).
  rewrite Ha. simpl. eexists _, _. split; [done|]. simpl.
  split; [done|]. by rewrite Hint, Hnone, insert_empty.
Qed.

(** In every state that a driver step reaches, at most the timer that
    [this.timer] names is live. *)
Lemma step_timers_ok op w w' :
  State_wf (self w) = true →
  step calculateMsgStatistic op w = Ok w' →
  timers_ok w = true → timers_ok w' = true.
Proof.
  intros Hwf Hstep Hok. destruct op as [now msg|now| |now| |]; simpl in Hstep.
  - destruct (paused (self w)) eqn:Hp.
    + unfold process in Hstep. rewrite Hp in Hstep. by injection Hstep as <-.
    + destruct (process_rearms now msg w Hwf Hp Hok) as (w1 & t & Hpr & Ht & Hint).
      rewrite Hpr in Hstep. injection Hstep as <-.
      unfold timers_ok. rewrite Ht, Hint. apply bool_decide_eq_true.
      by rewrite dom_singleton_L.
  - unfold tick in Hstep. case_decide; [by injection Hstep as <-|].
    apply analyse_frame in Hstep as (_ & Ht & _ & Hint & _).
    unfold timers_ok in *. by rewrite Ht, Hint.
  - injection Hstep as <-. unfold pause, timers_ok in *.
    destruct (paused (self w)); simpl; [done|].
    destruct (timer (self w)) as [t|] eqn:Ht; simpl; rewrite ?Ht; [|done].
    apply bool_decide_eq_true in Hok. apply bool_decide_eq_true.
    by apply delete_only.
  - unfold resume in Hstep. destruct (paused (self w)) eqn:Hp;
      [|by injection Hstep as <-].
    set (w0 := with_self (set_startTime _) _) in Hstep.
    destruct (process_rearms now None w0) as (w1 & t & Hpr & Ht & Hint); [done..|].
    rewrite Hpr in Hstep. injection Hstep as <-.
    unfold timers_ok. rewrite Ht, Hint. apply bool_decide_eq_true.
    by rewrite dom_singleton_L.
  - unfold stop, reset in Hstep. unfold timers_ok in *.
    destruct (timer (self w)) as [t|] eqn:Ht; simpl in Hstep;
      destruct (CircularBuffer.new _); simpl in Hstep; try done;
      injection Hstep as <-; simpl; rewrite ?Ht; [|done].
    apply bool_decide_eq_true in Hok. apply bool_decide_eq_true.
    by apply delete_only.
  - unfold reset in Hstep. unfold timers_ok in *.
    destruct (CircularBuffer.new _); simpl in Hstep; [|done].
    by injection Hstep as <-.
Qed.

End Timers.

(** ** Concrete runs *)

Example running_world_reached :
  constructor (config_of "sec" (Number (Num 3)) true) = Ok fresh_world
  ∧ run id [Process 0 (Some 3); Process 400 (Some 4); Tick 1000] fresh_world
    = Ok running_world.
Proof. split; reflexivity. Qed.

(** C4 on the code. A window of ten seconds with startup estimation on;
    one message, then a second one five seconds later.  The five closed
    seconds report 10, 5, 3, 2 and 2 (times ten over the size, rounded
    down): the last two reports are the same triple, and [changeStatus] is
    called for both. *)
Theorem status_repeated_during_startup :
  status_calls ∘ calls
    <$> (constructor (config_of "sec" (Number (Num 10)) true)
           ≫= run id [Process 0 (Some 1); Process 5000 (Some 1)])
  = Ok [(10, 10, true); (5, 5, true); (3, 3, true); (2, 2, true); (2, 2, true)].
Proof. reflexivity. Qed.

(** The other way round: the reported triple changes from (3, 3, true) to
    (4, 4, true) and [changeStatus] is not called, because the raw sum 3
    equals the value reported before. *)
Example status_change_missed :
  calls
    <$> (run id [Process 0 (Some 1); Process 1000 (Some 1);
                 Process 1500 (Some 1); Tick 2000] fresh_world)
  = Ok [CalculateMsgStatistic 1; ChangeStatus 3 3 true; SendMsg 3 3;
        CalculateMsgStatistic 1; CalculateMsgStatistic 1; SendMsg 4 4].
Proof. reflexivity. Qed.

(** C6 on the code. The timer that [process] arms on a fresh instance has
    a period of 60000 milliseconds, not 1000. *)
Theorem process_arms_sixty_seconds :
  ∃ w, process id 0 (Some 3) fresh_world = Ok w
       ∧ timer (self w) = Some 0%nat
       ∧ intervals w = {[ 0%nat := 60000 ]}
       ∧ intervals w !! 0%nat ≠ Some 1000.
Proof. eexists. split; [reflexivity|]. repeat split. discriminate. Qed.

(** The older variant arms one second, and its [stop] keeps the history. *)
Example legacy_differences :
  Legacy.timer_period = 1000 ∧ timer_period = 60000
  ∧ circularBuffer (self (Legacy.stop running_world))
    = circularBuffer (self running_world)
  ∧ msgCountInBuffer (self (Legacy.stop running_world)) = 2.
Proof. repeat split. Qed.

(** ** Exact arithmetic and double precision *)

Lemma Exact_add_exact : add_exact Z.
Proof. unfold add_exact; simpl. repeat split; intros; lia. Qed.

Lemma Exact_eqb_exact : eqb_exact Z.
Proof. intros a b. apply Z.eqb_eq. Qed.


(** Integer statistics do not help once they are large: on a window of
    one second, a statistic of 2^53 followed by one of 1 leaves the cell
    of 1 in the buffer and a running statistic of 0. *)
Example running_statistic_absorbed :
  ∃ w : World float float,
    constructor (config_of "sec" (Number (Num 1)) false)
      ≫= run id [Process 0 (Some 9007199254740992%float);
                 Process 1000 (Some 1%float); Tick 2000]
    = Ok w
    ∧ CircularBuffer.toarray (circularBuffer (self w))
      = [ {| msgCount := 1; msgStatistic := 1%float |} ]
    ∧ msgStatisticInBuffer (self w) = 0%float.
Proof. eexists. split; [vm_compute; reflexivity|]. split; vm_compute; reflexivity. Qed.


(** The running statistic after the same messages and a silence longer
    than the window: every cell is [{0, 0}] and what is left of the
    running statistic is 2^-53. *)
#[warnings="-inexact-float"]
Example silence_leaves_rounding_error :
  ∃ w : World float float,
    constructor (config_of "sec" (Number (Num 2)) false)
      ≫= run id [Process 0 (Some 0.1%float); Process 1000 (Some 0.2%float);
                 Process 2000 (Some 0.3%float); Tick 3000; Tick 6000]
    = Ok w
    ∧ CircularBuffer.toarray (circularBuffer (self w))
      = [ {| msgCount := 0; msgStatistic := 0%float |};
          {| msgCount := 0; msgStatistic := 0%float |} ]
    ∧ msgCountInBuffer (self w) = 0
    ∧ msgStatisticInBuffer (self w) = 0x1p-53%float.
Proof.
  eexists. split; [vm_compute; reflexivity|].
  repeat split; vm_compute; reflexivity.
Qed.

(** Counts are affected as well: with 11577465 messages in 86399 of
    86400 cells the reported count is 11577599, and the floor of
    11577465 * 86400 / 86399 is 11577598. *)
Example estimate_count_exceeds_floor (b : CircularBuffer.t float) (st : float) :
  CircularBuffer.size b = 86399 → CircularBuffer.capacity b = 86400 →
  (report true b 11577465 st).1.1 = 11577599
  ∧ 11577465 * 86400 / 86399 = 11577598.
Proof.
  intros Hsize Hcap. unfold report. rewrite Hsize, Hcap.
  split; vm_compute; reflexivity.
Qed.

(** C4 in double precision: the run of [status_repeated_during_startup]
    gives the same five notifications. *)
Example status_repeated_in_double_precision :
  status_calls ∘ calls
    <$> (constructor (config_of "sec" (Number (Num 10)) true)
           ≫= run (Stat:=float) id
                [Process 0 (Some 1%float); Process 5000 (Some 1%float)])
  = Ok [(10, 10%float, true); (5, 5%float, true); (3, 3%float, true);
        (2, 2%float, true); (2, 2%float, true)].
Proof. vm_compute. reflexivity. Qed.

(** The split of an elapsed time as [_analyse] computes it, in double
    precision, at clock readings of the present epoch: 1400 milliseconds
    after 1700000000000 the whole seconds are 1 and the end time, less
    the remainder, is the boundary 1700000001000; 999999 milliseconds
    after it they are 999 and 1700000999000. *)
Example clock_split_in_double_precision :
  let split (startTime endTime : float) :=
    let seconds := ((endTime - startTime) / 1000)%float in
    let remainder := ((seconds - Double.mathjs_floor seconds) * 1000)%float in
    (Double.mathjs_floor seconds, (endTime - remainder)%float) in
  split 1700000000000%float 1700000001400%float
  = (Double.of_Z ((1700000001400 - 1700000000000) / 1000),
     Double.of_Z (1700000001400 - (1700000001400 - 1700000000000) `mod` 1000))
  ∧ split 1700000000000%float 1700000999999%float
    = (Double.of_Z ((1700000999999 - 1700000000000) / 1000),
       Double.of_Z (1700000999999 - (1700000999999 - 1700000000000) `mod` 1000)).
Proof. split; vm_compute; reflexivity. Qed.

(** In exact arithmetic the estimate is the floor of the quotient; in
    double precision it is the [floor] of the [mathjs] package on the
    quotient of the doubles. *)
Example Exact_estimate (x n capacity size : Z) :
  estimate x capacity size = x * capacity / size
  ∧ estimate_count (Arithmetic:=Exact) n capacity size = n * capacity / size.
Proof. done. Qed.

Example Doubles_estimate (x : float) (n capacity size : Z) :
  estimate x capacity size
  = Double.mathjs_floor (x * Double.of_Z capacity / Double.of_Z size)%float
  ∧ estimate_count (Arithmetic:=Doubles) n capacity size
    = Double.to_Z
        (Double.mathjs_floor
           (Double.of_Z n * Double.of_Z capacity / Double.of_Z size)%float).
Proof. split; reflexivity. Qed.

(** ** The theorems at concrete instances *)

(** Cells and sums after a run that leaves two seconds in the window. *)
Example running_sums_example :
  ∃ w, run id [Process 0 (Some 3); Process 400 (Some 4); Tick 1000; Pause;
               Resume 9000; Process 12500 (Some 1); Reset;
               Process 13000 (Some 2); Process 14200 (Some 5); Tick 15100]
           fresh_world = Ok w
       ∧ CircularBuffer.toarray (circularBuffer (self w))
         = [ {| msgCount := 1; msgStatistic := 5 |};
             {| msgCount := 1; msgStatistic := 2 |} ]
       ∧ msgCountInBuffer (self w) = 2 ∧ msgStatisticInBuffer (self w) = 7.
Proof. eexists. split; [vm_compute; reflexivity|]. repeat split. Qed.


Lemma catch_up_equivalence_witness :
  ∃ w', _analyse id (1000 + 5000 + 250) None running_world = Ok w'
    ∧ CircularBuffer.toarray (circularBuffer (self w'))
      = take (Z.to_nat (bufferSize (self running_world)))
             (replicate 5 {| msgCount := 0; msgStatistic := 0 |}
                ++ CircularBuffer.toarray (circularBuffer (self running_world)))
    ∧ flushes id [1000 + 1000; 1000 + 2000; 1000 + 3000; 1000 + 4000; 1000 + 5000]
        running_world
      = Ok w'.
Proof.
  exact (catch_up_equivalence id 1000 250 running_world
           eq_refl eq_refl eq_refl eq_refl ltac:(lia)).
Defined.

(** Two messages in the same second, a tick in between, and the flush
    that closes the second: both are in the one cell pushed. *)
Example event_survives_flushes :
  ∃ w, run id [Process 1200 (Some 7); Process 1400 (Some 5); Tick 1900;
               Process 2100 None] running_world = Ok w
       ∧ CircularBuffer.toarray (circularBuffer (self w))
         = [ {| msgCount := 2; msgStatistic := 12 |};
             {| msgCount := 2; msgStatistic := 7 |} ]
       ∧ newMsgCount (self w) = 0.
Proof. eexists. split; [vm_compute; reflexivity|]. split; reflexivity. Qed.

Lemma event_counted_once_witness :
  State_wf (self running_world) = true ∧ paused (self running_world) = false
  ∧ ∃ w1 w2 (t : Z),
      process id 1200 None running_world = Ok w1
      ∧ process id 1200 (Some 7) running_world = Ok w2
      ∧ w2 = add_event id 7 w1
      ∧ newMsgCount (self w2) = newMsgCount (self w1) + 1
      ∧ newMsgStatistic (self w2) = newMsgStatistic (self w1) + id 7
      ∧ statistic_calls (calls w2) = statistic_calls (calls running_world) ++ [7]
      ∧ startTime (self w2) = Some t
      ∧ ∀ (ops : list (Op Z)) now' msg' n,
          forallb (within_second t) ops = true →
          (now' - t) / 1000 = Z.of_nat (S n) →
          ∃ w3 w4,
            run id ops w2 = Ok w3
            ∧ circularBuffer (self w3) = circularBuffer (self w2)
            ∧ statistic_calls (calls w3)
              = statistic_calls (calls running_world) ++ 7 :: messages ops
            ∧ _analyse id now' msg' w3 = Ok w4
            ∧ CircularBuffer.toarray (circularBuffer (self w4))
              = take (Z.to_nat (bufferSize (self running_world)))
                     (replicate n {| msgCount := 0; msgStatistic := 0 |}
                        ++ {| msgCount := newMsgCount (self w1) + 1
                                          + Z.of_nat (length (messages ops));
                              msgStatistic :=
                                foldl (λ a m', a + id m')
                                      (newMsgStatistic (self w1) + id 7)
                                      (messages ops) |}
                        :: CircularBuffer.toarray (circularBuffer (self w1)))
            ∧ newMsgCount (self w4)
              = match msg' with Some _ => 1 | None => 0 end
            ∧ newMsgStatistic (self w4)
              = match msg' with
                | Some m' => 0 + id m'
                | None => 0
                end.
Proof.
  split; [reflexivity|]. split; [reflexivity|].
  exact (event_counted_once id 1200 7 running_world eq_refl eq_refl).
Defined.


Lemma stop_reinitializes_witness :
  1 ≤ bufferSize (self running_world)
  ∧ ∃ w', stop running_world = Ok w'
      ∧ timer (self w') = None
      ∧ intervals w' = match timer (self running_world) with
                       | Some t => delete t (intervals running_world)
                       | None => intervals running_world
                       end
      ∧ CircularBuffer.toarray (circularBuffer (self w')) = []
      ∧ CircularBuffer.size (circularBuffer (self w')) = 0
      ∧ CircularBuffer.capacity (circularBuffer (self w'))
        = bufferSize (self running_world)
      ∧ msgCountInBuffer (self w') = 0 ∧ msgStatisticInBuffer (self w') = 0
      ∧ newMsgCount (self w') = 0 ∧ newMsgStatistic (self w') = 0
      ∧ startTime (self w') = None ∧ endTime (self w') = None
      ∧ paused (self w') = paused (self running_world).
Proof.
  split; [simpl; lia|].
  refine (stop_reinitializes running_world _). simpl. lia.
Defined.

Lemma reset_keeps_paused_witness :
  1 ≤ bufferSize (self (pause running_world))
  ∧ (∃ w', reset (pause running_world) = Ok w' ∧ paused (self w') = true)
  ∧ (∃ w', stop (pause running_world) = Ok w' ∧ paused (self w') = true).
Proof.
  split; [simpl; lia|].
  apply (reset_keeps_paused (pause running_world)). simpl. lia.
Defined.

(** * Further properties of the current variant *)

Section MessageAnalyzer_more.

Context {Msg Stat : Type} `{!Arithmetic Stat}
  (calculateMsgStatistic : Msg → Stat).
Implicit Types (w : World Msg Stat) (s : State Stat).

(** A property that the constructor establishes and every driver step
    keeps holds after every run, and every run returns. *)
Lemma run_invariant (P : World Msg Stat → Prop) :
  (∀ op w w', State_wf (self w) = true → count_consistent (self w) →
              step calculateMsgStatistic op w = Ok w' → P w → P w') →
  ∀ ops w0, State_wf (self w0) = true → count_consistent (self w0) → P w0 →
  ∃ w, run calculateMsgStatistic ops w0 = Ok w
       ∧ State_wf (self w) = true ∧ count_consistent (self w) ∧ P w.
Proof.
  intros Hstep ops. induction ops as [|op ops IH]; intros w0 Hwf Hsum HP.
  - exists w0. done.
  - destruct (step_Ok calculateMsgStatistic op w0 Hwf Hsum)
      as (w1 & Hop & Hwf1 & Hsum1).
    destruct (IH w1 Hwf1 Hsum1) as (w & Hrun & Hres); [by apply (Hstep op w0 w1)|].
    exists w. simpl. by rewrite Hop.
Qed.

Lemma process_frame now msg w w' :
  process calculateMsgStatistic now msg w = Ok w' →
  paused (self w') = paused (self w) ∧ bufferSize (self w') = bufferSize (self w).
Proof.
  intros Hp. split; [by eapply process_paused|]. revert Hp.
  unfold process. destruct (paused (self w)); simpl; [by intros [= <-]|].
  set (w0 := match timer (self w) with Some t => clearInterval t w | None => w end).
  assert (self w0 = self w) as Hself by (subst w0; by destruct (timer (self w))).
  destruct (_analyse _ _ _ w0) as [w1|] eqn:Ha; [simpl|done].
  apply analyse_frame in Ha as (_ & _ & Hsz & _). intros [= <-]. simpl.
  by rewrite Hsz, Hself.
Qed.

Lemma step_bufferSize op w w' :
  step calculateMsgStatistic op w = Ok w' →
  bufferSize (self w') = bufferSize (self w).
Proof.
  destruct op as [now msg|now| |now| |]; simpl.
  - intros Hp. by apply process_frame in Hp as [_ ?].
  - unfold tick. case_decide; [by intros [= <-]|].
    intros Ha. by apply analyse_frame in Ha as (_ & _ & ? & _).
  - intros [= <-]. unfold pause. destruct (paused (self w)); simpl; [done|].
    by destruct (timer (self w)).
  - unfold resume. destruct (paused (self w)); [|by intros [= <-]].
    intros Hp. by apply process_frame in Hp as [_ ?].
  - unfold stop, reset. cbv zeta.
    destruct (timer (self w)); simpl;
      destruct (CircularBuffer.new _); simpl; try done; by intros [= <-].
  - unfold reset. destruct (CircularBuffer.new _); simpl; [|done].
    by intros [= <-].
Qed.

(** X1. The window never outgrows its capacity: in every state a
    constructed instance reaches, the buffer's capacity is the buffer size
    computed at construction (at least 1), its size lies between 0 and that
    capacity, and it holds exactly [size] cells. *)
Theorem window_bounded (config : Config) (w0 : World Msg Stat) (ops : list (Op Msg)) :
  constructor config = Ok w0 →
  ∃ w, run calculateMsgStatistic ops w0 = Ok w
       ∧ bufferSize (self w) = bufferSize (self w0)
       ∧ bufferSize_of config = Num (bufferSize (self w))
       ∧ 1 ≤ bufferSize (self w)
       ∧ CircularBuffer.capacity (circularBuffer (self w)) = bufferSize (self w)
       ∧ 0 ≤ CircularBuffer.size (circularBuffer (self w)) ≤ bufferSize (self w)
       ∧ length (CircularBuffer.toarray (circularBuffer (self w)))
         = Z.to_nat (CircularBuffer.size (circularBuffer (self w))).
Proof.
  intros Hnew. pose proof (constructor_Ok _ _ Hnew) as [Hwf0 Hsum0].
  assert (bufferSize_of config = Num (bufferSize (self w0))) as Hcfg.
  { revert Hnew. unfold constructor.
    destruct (interval_of config); [done|].
    destruct (bufferSize_of config) as [|n]; [done|].
    unfold reset. simpl. destruct (CircularBuffer.new n); simpl; [|done].
    by intros [= <-]. }
  destruct (run_invariant (λ w, bufferSize (self w) = bufferSize (self w0))
              (λ op w w' _ _ Hstep HP, eq_trans (step_bufferSize op w w' Hstep) HP)
              ops w0 Hwf0 Hsum0 eq_refl) as (w & Hrun & Hwf & _ & Hsz).
  exists w. split; [done|]. split; [done|]. rewrite Hsz. split; [done|].
  pose proof (cb_length_toarray _ (proj1 (proj1 (State_wf_spec _) Hwf))) as Hlen.
  apply State_wf_spec in Hwf as [(? & ? & ? & _)%cb_wf_spec Hcap].
  unfold CircularBuffer.capacity, CircularBuffer.size.
  rewrite <-Hsz, <-Hcap. repeat split; (done || lia).
Qed.

(** The timer table of an instance: nothing is live while [this.timer] is
    null, and otherwise exactly the timer it names, with the period that
    [process] gives it, on an instance that is not paused. *)
Lemma step_timer_table op w w' :
  State_wf (self w) = true →
  step calculateMsgStatistic op w = Ok w' →
  (timer (self w) = None ∧ intervals w = ∅)
  ∨ (∃ t, timer (self w) = Some t ∧ paused (self w) = false
          ∧ intervals w = {[t := timer_period]}) →
  (timer (self w') = None ∧ intervals w' = ∅)
  ∨ (∃ t, timer (self w') = Some t ∧ paused (self w') = false
          ∧ intervals w' = {[t := timer_period]}).
Proof.
  intros Hwf Hstep Htab.
  assert (timers_ok w = true) as Hok.
  { unfold timers_ok. destruct Htab as [[-> ->]|(t & -> & _ & ->)];
      apply bool_decide_eq_true; [done|]. by rewrite dom_singleton_L. }
  assert (∀ now msg w1, State_wf (self w1) = true → timers_ok w1 = true →
            paused (self w1) = false →
            process calculateMsgStatistic now msg w1 = Ok w' →
            ∃ t, timer (self w') = Some t ∧ paused (self w') = false
                 ∧ intervals w' = {[t := timer_period]}) as Hproc.
  { intros now msg w1 Hwf1 Hok1 Hrun Hp.
    destruct (process_rearms calculateMsgStatistic now msg w1 Hwf1 Hrun Hok1)
      as (w2 & t & Hp2 & Ht & Hint).
    rewrite Hp in Hp2. injection Hp2 as <-. exists t.
    split; [done|]. split; [|done].
    apply process_frame in Hp as [-> _]. done. }
  destruct op as [now msg|now| |now| |]; simpl in Hstep.
  - destruct (paused (self w)) eqn:Hp.
    + unfold process in Hstep. rewrite Hp in Hstep. injection Hstep as <-.
      destruct Htab as [?|(? & ? & ? & ?)]; [by left|done].
    + right. by eapply Hproc.
  - unfold tick in Hstep. case_decide; [by injection Hstep as <-|].
    apply analyse_frame in Hstep as (Hp & Ht & _ & Hint & _).
    by rewrite Hp, Ht, Hint.
  - left. injection Hstep as <-. unfold pause.
    destruct (paused (self w)) eqn:Hp; simpl.
    + destruct Htab as [?|(t & _ & ? & _)]; [done|congruence].
    + destruct Htab as [[Ht Hint]|(t & Ht & _ & Hint)]; rewrite Ht; simpl;
        [done|]. split; [done|]. rewrite Hint. apply delete_singleton_eq.
  - unfold resume in Hstep. destruct (paused (self w)) eqn:Hp.
    + right.
      apply (Hproc now None
               (with_self (set_startTime (Some now))
                  (with_self (set_paused false) w)));
        [done|exact Hok|done|exact Hstep].
    + injection Hstep as <-.
      destruct Htab as [?|(t & ? & _ & ?)]; [by left|right; by exists t].
  - left. unfold stop, reset in Hstep. cbv zeta in Hstep.
    destruct Htab as [[Ht Hint]|(t & Ht & _ & Hint)]; rewrite Ht in Hstep;
      simpl in Hstep; destruct (CircularBuffer.new _); simpl in Hstep;
      try done; injection Hstep as <-; simpl; rewrite ?Ht; [done|].
    split; [done|]. rewrite Hint. apply delete_singleton_eq.
  - unfold reset in Hstep. destruct (CircularBuffer.new _); simpl in Hstep; [|done].
    by injection Hstep as <-.
Qed.

(** X2. In every state a constructed instance reaches, at most one interval
    timer is live: none while [this.timer] is null, and otherwise exactly
    the one [this.timer] names, with the period [process] passes to
    [setInterval]; a paused instance has no live timer. *)
Theorem one_timer_at_most (config : Config) (w0 : World Msg Stat) (ops : list (Op Msg)) :
  constructor config = Ok w0 →
  ∃ w, run calculateMsgStatistic ops w0 = Ok w
       ∧ ((timer (self w) = None ∧ intervals w = ∅)
          ∨ (∃ t, timer (self w) = Some t ∧ paused (self w) = false
                  ∧ intervals w = {[t := timer_period]})).
Proof.
  intros Hnew. pose proof (constructor_Ok _ _ Hnew) as [Hwf0 Hsum0].
  destruct (run_invariant
              (λ w, (timer (self w) = None ∧ intervals w = ∅)
                    ∨ (∃ t, timer (self w) = Some t ∧ paused (self w) = false
                            ∧ intervals w = {[t := timer_period]}))
              (λ op w w' Hwf _ Hstep HP, step_timer_table op w w' Hwf Hstep HP)
              ops w0 Hwf0 Hsum0) as (w & Hrun & _ & _ & Htab); [|by eauto].
  left. revert Hnew. unfold constructor.
  destruct (interval_of config); [done|].
  destruct (bufferSize_of config) as [|n]; [done|].
  unfold reset. simpl. destruct (CircularBuffer.new n); simpl; [|done].
  by intros [= <-].
Qed.

(** X3. While an instance is paused and no timer is live, messages and
    timer ticks are dropped: any sequence of [process] calls and ticks
    leaves the whole state as it is, hook calls included. *)
Theorem paused_drops_arrivals (ops : list (Op Msg)) w :
  paused (self w) = true → intervals w = ∅ →
  forallb is_arrival ops = true →
  run calculateMsgStatistic ops w = Ok w.
Proof.
  intros Hp Hint. induction ops as [|op ops IH]; simpl; [done|].
  intros [Hop Hops]%andb_true_iff.
  destruct op as [now msg|now| |now| |]; try done; simpl.
  - unfold process. rewrite Hp. simpl. by apply IH.
  - unfold tick. rewrite decide_True by done. simpl. by apply IH.
Qed.

(** X4. Pausing and resuming keeps the history and fabricates no elapsed
    time: whatever the time of the [resume], [pause] followed by [resume]
    returns, closes no second and calls no hook; the buffer, the sums, the
    pending counters and the status memo are untouched, both time cursors
    stand at the time of the [resume], and a fresh timer is armed. *)
Theorem pause_resume_keeps_history (now : Z) w :
  ∃ w', resume calculateMsgStatistic now (pause w) = Ok w'
    ∧ self w'
      = set_timer (Some (nextTimer w))
          (set_endTime (Some now)
             (set_startTime (Some now) (set_paused false (self w))))
    ∧ calls w' = calls w
    ∧ intervals w' !! nextTimer w = Some timer_period.
Proof.
  unfold resume, pause.
  destruct (paused (self w)) eqn:Hp; simpl negb; cbv iota.
  - rewrite Hp. unfold process, _analyse.
    cbn -[Z.sub Z.div Z.modulo Z.to_nat for_loop].
    destruct (timer (self w)) as [t|] eqn:Ht;
      cbn -[Z.sub Z.div Z.modulo Z.to_nat for_loop];
      rewrite Z.sub_diag; cbn -[Z.sub];
      eexists; (split; [reflexivity|]); cbn -[Z.sub];
      rewrite Z.sub_0_r, lookup_insert_eq; done.
  - cbn -[Z.sub Z.div Z.modulo Z.to_nat for_loop process].
    destruct (timer (self w)) as [t|] eqn:Ht;
      unfold process, _analyse;
      cbn -[Z.sub Z.div Z.modulo Z.to_nat for_loop]; rewrite ?Ht;
      cbn -[Z.sub Z.div Z.modulo Z.to_nat for_loop];
      rewrite Z.sub_diag; cbn -[Z.sub];
      eexists; (split; [reflexivity|]); cbn -[Z.sub];
      rewrite Z.sub_0_r, lookup_insert_eq; done.
Qed.


(** ** Flushes *)

Lemma analyse_unfold now msg w :
  _analyse calculateMsgStatistic now msg w
  = (let t := default now (startTime (self w)) in
     w1 ← for_loop (Z.to_nat ((now - t) / 1000))
            (with_self (set_endTime (Some (now - (now - t) `mod` 1000)))
               (with_self (set_startTime (Some t)) w));
     Ok (match msg with
         | Some m => add_event calculateMsgStatistic m w1
         | None => w1
         end)).
Proof. unfold _analyse. cbv zeta. destruct (for_loop _ _); by destruct msg. Qed.

(** X5. A flush less than a second after [startTime] (or before it, when
    the clock went back, or on the first activity) closes no second: the
    buffer, the running sums and the status memo are untouched, no output
    or status hook is called, [startTime] stays, and a message is only
    added to the pending counters. *)
Theorem flush_within_second now (msg : option Msg) w :
  now - default now (startTime (self w)) < 1000 →
  ∃ w', _analyse calculateMsgStatistic now msg w = Ok w'
    ∧ circularBuffer (self w') = circularBuffer (self w)
    ∧ msgCountInBuffer (self w') = msgCountInBuffer (self w)
    ∧ msgStatisticInBuffer (self w') = msgStatisticInBuffer (self w)
    ∧ status_memo (self w') = status_memo (self w)
    ∧ startTime (self w') = Some (default now (startTime (self w)))
    ∧ newMsgCount (self w')
      = newMsgCount (self w) + match msg with Some _ => 1 | None => 0 end
    ∧ newMsgStatistic (self w')
      = match msg with
        | Some m => num_add (newMsgStatistic (self w)) (calculateMsgStatistic m)
        | None => newMsgStatistic (self w)
        end
    ∧ calls w'
      = calls w ++ match msg with
                   | Some m => [CalculateMsgStatistic m]
                   | None => []
                   end.
Proof.
  intros Hlt. rewrite analyse_unfold. cbv zeta.
  assert ((now - default now (startTime (self w))) / 1000 < 1) as Hq
    by (apply Z.div_lt_upper_bound; lia).
  destruct (Z.to_nat _) eqn:Hn; [|lia]. simpl.
  destruct msg as [m|]; eexists; (split; [done|]); simpl;
    rewrite ?Z.add_0_r, ?app_nil_r; done.
Qed.

(** X6. After a flush [startTime] stands on a whole-second boundary that
    is less than a second behind the clock: it has advanced by exactly the
    whole seconds elapsed (not at all if the clock went back), and
    [endTime] is the clock reading rounded down to such a boundary. *)
Theorem cursor_on_boundary now (msg : option Msg) (t : Z) w :
  State_wf (self w) = true → startTime (self w) = Some t →
  ∃ w', _analyse calculateMsgStatistic now msg w = Ok w'
    ∧ startTime (self w') = Some (t + 1000 * Z.max 0 ((now - t) / 1000))
    ∧ endTime (self w') = Some (t + 1000 * ((now - t) / 1000))
    ∧ (t ≤ now → ∀ t', startTime (self w') = Some t' → 0 ≤ now - t' < 1000).
Proof.
  intros Hwf Hstart.
  destruct (analyse_Ok calculateMsgStatistic now msg w Hwf) as (w' & Ha & _).
  exists w'. split; [done|]. revert Ha. rewrite analyse_unfold. cbv zeta.
  rewrite Hstart. simpl default.
  pose proof (Z.div_mod (now - t) 1000 ltac:(done)) as Hdm.
  pose proof (Z.mod_pos_bound (now - t) 1000 ltac:(done)) as Hmod.
  assert (now - (now - t) `mod` 1000 = t + 1000 * ((now - t) / 1000)) as -> by lia.
  destruct (Z.to_nat _) as [|n] eqn:Hn.
  - simpl. assert (Z.max 0 ((now - t) / 1000) = 0) as Hmax by lia.
    rewrite Hmax, Z.mul_0_r, Z.add_0_r.
    intros Hw'. assert (startTime (self w') = Some t
                        ∧ endTime (self w') = Some (t + 1000 * ((now - t) / 1000)))
      as [Hs He] by (destruct msg; injection Hw' as <-; done).
    rewrite Hs, He. split; [done|]. split; [done|]. intros Hle t' [= <-]. lia.
  - rewrite for_loop_set_times.
    destruct (for_loop (S n) w) as [w1|]; [simpl|done].
    assert (Z.max 0 ((now - t) / 1000) = (now - t) / 1000) as -> by lia.
    intros Hw'. assert (startTime (self w') = Some (t + 1000 * ((now - t) / 1000))
                        ∧ endTime (self w') = Some (t + 1000 * ((now - t) / 1000)))
      as [Hs He] by (destruct msg; injection Hw' as <-; done).
    rewrite Hs, He. split; [done|]. split; [done|]. intros Hle t' [= <-]. lia.
Qed.

(** What one iteration does to the size and to the [sendMsg] calls. *)
Lemma iteration_size_send w w' :
  iteration w = Ok w' →
  CircularBuffer.capacity (circularBuffer (self w'))
  = CircularBuffer.capacity (circularBuffer (self w))
  ∧ CircularBuffer.size (circularBuffer (self w'))
    = (if CircularBuffer.size (circularBuffer (self w))
          <? CircularBuffer.capacity (circularBuffer (self w))
       then CircularBuffer.size (circularBuffer (self w)) + 1
       else CircularBuffer.size (circularBuffer (self w)))
  ∧ ignoreStartup (self w') = ignoreStartup (self w)
  ∧ ∃ r, send_calls (calls w')
         = send_calls (calls w)
           ++ (if negb (ignoreStartup (self w))
                  || negb (CircularBuffer.size (circularBuffer (self w'))
                           <? CircularBuffer.capacity (circularBuffer (self w')))
               then [r] else []).
Proof.
  unfold iteration.
  destruct (if _ <=? _ then _ else _) as [c|]; [simpl|done].
  unfold report.
  remember (CircularBuffer.enq _ (circularBuffer (self w))) as b eqn:Hb.
  assert (CircularBuffer.capacity b
          = CircularBuffer.capacity (circularBuffer (self w))
          ∧ CircularBuffer.size b
            = (if CircularBuffer.size (circularBuffer (self w))
                  <? CircularBuffer.capacity (circularBuffer (self w))
               then CircularBuffer.size (circularBuffer (self w)) + 1
               else CircularBuffer.size (circularBuffer (self w))))
    as [Hcap Hsize] by (by subst b).
  clear Hb.
  destruct (CircularBuffer.size b <? CircularBuffer.capacity b) eqn:Hstartup;
    [destruct (_ && _)|]; intros [= <-];
    cbn [self calls circularBuffer ignoreStartup];
    rewrite Hstartup; (split; [done|]); (split; [done|]); (split; [done|]);
    eexists; unfold send_calls; rewrite !omap_app;
    destruct (_ || _ || _), (ignoreStartup (self w)); cbn; reflexivity.
Qed.

Lemma for_loop_send_all n w w' :
  ignoreStartup (self w) = false → for_loop n w = Ok w' →
  length (send_calls (calls w')) = (length (send_calls (calls w)) + n)%nat.
Proof.
  revert w. induction n as [|n IH]; intros w Hig; simpl.
  - intros [= <-]. lia.
  - destruct (iteration w) as [w1|] eqn:Hit; [simpl|done].
    apply iteration_size_send in Hit as (_ & _ & Hig1 & r & Hsend).
    intros Hloop. apply IH in Hloop; [|congruence].
    rewrite Hloop, Hsend, Hig, length_app. simpl. lia.
Qed.

(** X7. With [ignoreStartup] off, a flush calls [sendMsg] exactly once for
    every second it closes. *)
Theorem sendMsg_once_per_second now (msg : option Msg) w :
  State_wf (self w) = true → ignoreStartup (self w) = false →
  ∃ w', _analyse calculateMsgStatistic now msg w = Ok w'
    ∧ length (send_calls (calls w'))
      = (length (send_calls (calls w))
         + Z.to_nat ((now - default now (startTime (self w))) / 1000))%nat.
Proof.
  intros Hwf Hig.
  destruct (analyse_Ok calculateMsgStatistic now msg w Hwf) as (w' & Ha & _).
  exists w'. split; [done|]. revert Ha. rewrite analyse_unfold. cbv zeta.
  destruct (for_loop _ _) as [w1|] eqn:Hloop; [simpl|done].
  apply for_loop_send_all in Hloop; [|done]. simpl in Hloop.
  destruct msg; intros [= <-]; simpl; [|done].
  unfold send_calls in *. rewrite omap_app, length_app. simpl. lia.
Qed.

Lemma for_loop_size_send n w w' :
  CircularBuffer.size (circularBuffer (self w))
  ≤ CircularBuffer.capacity (circularBuffer (self w)) →
  for_loop n w = Ok w' →
  CircularBuffer.capacity (circularBuffer (self w'))
  = CircularBuffer.capacity (circularBuffer (self w))
  ∧ CircularBuffer.size (circularBuffer (self w'))
    = Z.min (CircularBuffer.size (circularBuffer (self w)) + Z.of_nat n)
            (CircularBuffer.capacity (circularBuffer (self w)))
  ∧ (ignoreStartup (self w) = true →
     length (send_calls (calls w'))
     = (length (send_calls (calls w))
        + Z.to_nat (Z.of_nat n
                    - Z.max 0 (CircularBuffer.capacity (circularBuffer (self w))
                               - CircularBuffer.size (circularBuffer (self w))
                               - 1)))%nat).
Proof.
  revert w. induction n as [|n IH]; intros w Hle; simpl for_loop.
  - intros [= <-]. split; [done|]. split; [lia|]. intros _. lia.
  - destruct (iteration w) as [w1|] eqn:Hit; [simpl|done].
    apply iteration_size_send in Hit as (Hcap & Hsize & Hig1 & r & Hsend).
    rewrite Hcap, Hsize in Hsend.
    revert Hle Hcap Hsize Hsend.
    generalize (CircularBuffer.size (circularBuffer (self w))) as sz.
    generalize (CircularBuffer.capacity (circularBuffer (self w))) as cp.
    intros cp sz Hle Hcap Hsize Hsend Hloop.
    apply IH in Hloop as (Hcap' & Hsize' & Hcount).
    2:{ rewrite Hcap, Hsize. destruct (Z.ltb_spec sz cp); lia. }
    rewrite Hcap', Hsize', Hcap, Hsize.
    split; [done|]. split; [destruct (Z.ltb_spec sz cp); lia|].
    intros Hig. rewrite Hcount, Hsend, length_app, Hig, Hcap, Hsize by congruence.
    simpl negb. simpl orb.
    destruct (Z.ltb_spec sz cp) as [Hlt|Hge].
    + destruct (Z.ltb_spec (sz + 1) cp); simpl; lia.
    + destruct (Z.ltb_spec sz cp); simpl; lia.
Qed.

(** X8. A flush fills the window by one cell for every second it closes
    until the capacity is reached, and never beyond. *)
Theorem window_fills now (msg : option Msg) w :
  State_wf (self w) = true →
  ∃ w', _analyse calculateMsgStatistic now msg w = Ok w'
    ∧ CircularBuffer.size (circularBuffer (self w'))
      = Z.min (CircularBuffer.size (circularBuffer (self w))
               + Z.max 0 ((now - default now (startTime (self w))) / 1000))
              (bufferSize (self w)).
Proof.
  intros Hwf.
  destruct (analyse_Ok calculateMsgStatistic now msg w Hwf) as (w' & Ha & _).
  exists w'. split; [done|]. revert Ha. rewrite analyse_unfold. cbv zeta.
  apply State_wf_spec in Hwf as [(? & ? & ? & _)%cb_wf_spec Hcap].
  generalize ((now - default now (startTime (self w))) / 1000) as q. intros q.
  destruct (for_loop _ _) as [w1|] eqn:Hloop; [simpl|done].
  apply for_loop_size_send in Hloop as (_ & Hsize & _);
    [|unfold CircularBuffer.size, CircularBuffer.capacity; simpl; lia].
  simpl in Hsize. unfold CircularBuffer.capacity in Hsize.
  rewrite Hcap in Hsize.
  destruct msg; intros [= <-]; simpl; rewrite Hsize; f_equal; lia.
Qed.

(** X9. With [ignoreStartup] on, a flush calls [sendMsg] only for the
    seconds after which the window is full: of the [n] seconds it closes,
    the first [capacity - size - 1] (if that many) send nothing. *)
Theorem sendMsg_after_startup now (msg : option Msg) w :
  State_wf (self w) = true → ignoreStartup (self w) = true →
  ∃ w', _analyse calculateMsgStatistic now msg w = Ok w'
    ∧ length (send_calls (calls w'))
      = (length (send_calls (calls w))
         + Z.to_nat (Z.max 0 ((now - default now (startTime (self w))) / 1000)
                     - Z.max 0 (bufferSize (self w)
                                - CircularBuffer.size (circularBuffer (self w))
                                - 1)))%nat.
Proof.
  intros Hwf Hig.
  destruct (analyse_Ok calculateMsgStatistic now msg w Hwf) as (w' & Ha & _).
  exists w'. split; [done|]. revert Ha. rewrite analyse_unfold. cbv zeta.
  apply State_wf_spec in Hwf as [(? & ? & ? & _)%cb_wf_spec Hcap].
  generalize ((now - default now (startTime (self w))) / 1000) as q. intros q.
  destruct (for_loop _ _) as [w1|] eqn:Hloop; [simpl|done].
  apply for_loop_size_send in Hloop as (_ & _ & Hcount);
    [|unfold CircularBuffer.size, CircularBuffer.capacity; simpl; lia].
  specialize (Hcount Hig). simpl in Hcount.
  unfold CircularBuffer.capacity in Hcount. rewrite Hcap in Hcount.
  assert (length (send_calls (calls w')) = length (send_calls (calls w1))
          → length (send_calls (calls w'))
            = (length (send_calls (calls w))
               + Z.to_nat (Z.max 0 q
                           - Z.max 0 (bufferSize (self w)
                                      - CircularBuffer.size (circularBuffer (self w))
                                      - 1)))%nat) as Hfin.
  { intros ->. rewrite Hcount. f_equal. f_equal. lia. }
  destruct msg; intros [= <-]; apply Hfin; simpl; [|done].
  unfold send_calls. rewrite omap_app, length_app. simpl. lia.
Qed.


(** ** Silence and counts *)

Lemma sum_with_replicate_zero (f : Cell Stat → Z) (n : nat) :
  f zero_cell = 0 → sum_with f (replicate n zero_cell) = 0.
Proof. intros Hf. induction n as [|n IH]; simpl; [done|]. rewrite Hf, IH. done. Qed.

Lemma sum_statistic_replicate_zero (n : nat) :
  add_exact Stat → sum_statistic (replicate n zero_cell) = num_zero.
Proof.
  intros (_ & _ & Hzero & _). induction n as [|n IH]; simpl; [done|].
  by rewrite IH, Hzero.
Qed.


Lemma sum_with_nonneg (f : Cell Stat → Z) (l : list (Cell Stat)) :
  Forall (λ c, 0 ≤ f c) l → 0 ≤ sum_with f l.
Proof. induction 1 as [|c l Hc _ IH]; simpl; lia. Qed.

Lemma sum_with_take_le (f : Cell Stat → Z) (n : nat) (l : list (Cell Stat)) :
  Forall (λ c, 0 ≤ f c) l → sum_with f (take n l) ≤ sum_with f l.
Proof.
  intros Hall. revert n. induction Hall as [|c l Hc Hall IH]; intros [|n]; simpl;
    try lia.
  - pose proof (sum_with_nonneg f l Hall). lia.
  - specialize (IH n). lia.
Qed.

Lemma iteration_counts w w' :
  State_wf (self w) = true → iteration w = Ok w' → counts_ok w → counts_ok w'.
Proof.
  intros Hwf Hit (Hnew & Hall & Hle).
  pose proof (iteration_frame _ _ Hit) as (_&_&_&_&_&_&_& Hcalls).
  destruct (iteration_Ok w Hwf) as (w'' & Hit' & _ & _ & Harr & _ & Hp).
  rewrite Hit in Hit'. injection Hit' as <-.
  unfold counts_ok. rewrite Harr, Hcalls.
  injection Hp as -> _.
  assert (Forall (λ c, 0 ≤ msgCount c)
            (pending (self w) :: CircularBuffer.toarray (circularBuffer (self w))))
    as Hall' by (by constructor).
  pose proof (sum_with_take_le msgCount (Z.to_nat (bufferSize (self w))) _ Hall')
    as Htake.
  split; [done|]. split; [by apply Forall_take|]. simpl in Htake. lia.
Qed.

Lemma for_loop_counts n w w' :
  State_wf (self w) = true → for_loop n w = Ok w' → counts_ok w → counts_ok w'.
Proof.
  revert w. induction n as [|n IH]; intros w Hwf; simpl.
  - by intros [= <-].
  - destruct (iteration_Ok w Hwf) as (w1 & Hit & Hwf1 & _).
    rewrite Hit. simpl. intros Hloop Hc.
    apply (IH w1 Hwf1 Hloop). by apply (iteration_counts w w1).
Qed.

Lemma add_event_counts (m : Msg) w :
  counts_ok w → counts_ok (add_event calculateMsgStatistic m w).
Proof.
  intros (Hnew & Hall & Hle). unfold counts_ok, statistic_calls. simpl.
  rewrite omap_app, length_app. simpl. split; [lia|]. split; [done|].
  unfold statistic_calls in Hle. lia.
Qed.

Lemma analyse_counts now msg w w' :
  State_wf (self w) = true →
  _analyse calculateMsgStatistic now msg w = Ok w' → counts_ok w → counts_ok w'.
Proof.
  intros Hwf. rewrite analyse_unfold. cbv zeta.
  destruct (for_loop _ _) as [w1|] eqn:Hloop; [simpl|done].
  intros [= <-] Hc. apply for_loop_counts in Hloop; [|done|exact Hc].
  destruct msg; [by apply add_event_counts|done].
Qed.

Lemma process_counts now msg w w' :
  State_wf (self w) = true →
  process calculateMsgStatistic now msg w = Ok w' → counts_ok w → counts_ok w'.
Proof.
  intros Hwf. unfold process. destruct (paused (self w)); simpl;
    [by intros [= <-]|].
  set (w0 := match timer (self w) with Some t => clearInterval t w | None => w end).
  assert (self w0 = self w ∧ calls w0 = calls w) as [Hself Hcalls]
    by (subst w0; by destruct (timer (self w))).
  destruct (_analyse _ _ _ w0) as [w1|] eqn:Ha; [simpl|done].
  intros [= <-] Hc. apply analyse_counts in Ha; [exact Ha|by rewrite Hself|].
  unfold counts_ok. by rewrite Hself, Hcalls.
Qed.

Lemma reset_counts w w' : reset w = Ok w' → counts_ok w'.
Proof.
  unfold reset, CircularBuffer.new.
  destruct (_ <? 1); simpl; [done|]. intros [= <-].
  unfold counts_ok. simpl. split; [done|]. split; [constructor|lia].
Qed.

Lemma step_counts op w w' :
  State_wf (self w) = true →
  step calculateMsgStatistic op w = Ok w' → counts_ok w → counts_ok w'.
Proof.
  intros Hwf. destruct op as [now msg|now| |now| |]; simpl.
  - by apply process_counts.
  - unfold tick. case_decide; [by intros [= <-]|]. by apply analyse_counts.
  - intros [= <-]. unfold pause. destruct (paused (self w)); simpl; [done|].
    by destruct (timer (self w)).
  - unfold resume. destruct (paused (self w)); [|by intros [= <-]].
    intros Hp Hc. by apply process_counts in Hp.
  - unfold stop. intros Hr _. by apply reset_counts in Hr.
  - intros Hr _. by apply reset_counts in Hr.
Qed.

(** X11. The rate is never negative and never counts a message that was
    not processed: in every state a constructed instance reaches,
    [msgCountInBuffer] is at least 0, no cell has a negative count, and
    [msgCountInBuffer] plus the pending count is at most the number of
    [calculateMsgStatistic] calls made so far. *)
Theorem count_bounds (config : Config) (w0 : World Msg Stat) (ops : list (Op Msg)) :
  constructor config = Ok w0 →
  ∃ w, run calculateMsgStatistic ops w0 = Ok w
       ∧ 0 ≤ msgCountInBuffer (self w) ∧ 0 ≤ newMsgCount (self w)
       ∧ Forall (λ c, 0 ≤ msgCount c)
                (CircularBuffer.toarray (circularBuffer (self w)))
       ∧ msgCountInBuffer (self w) + newMsgCount (self w)
         ≤ Z.of_nat (length (statistic_calls (calls w))).
Proof.
  intros Hnew. pose proof (constructor_Ok _ _ Hnew) as [Hwf0 Hsum0].
  destruct (run_invariant counts_ok
              (λ op w w' Hwf _ Hstep HP, step_counts op w w' Hwf Hstep HP)
              ops w0 Hwf0 Hsum0) as (w & Hrun & _ & Hn & Hnew' & Hall & Hle).
  { revert Hnew. unfold constructor.
    destruct (interval_of config); [done|].
    destruct (bufferSize_of config) as [|n]; [done|]. apply reset_counts. }
  exists w. split; [done|]. unfold count_consistent in Hn. rewrite Hn.
  pose proof (sum_with_nonneg msgCount _ Hall). done.
Qed.

End MessageAnalyzer_more.

(** ** Status notifications without estimation *)

Lemma adjacent_distinct_snoc {A} (l : list A) (x : A) :
  adjacent_distinct l → (∀ y, last l = Some y → y ≠ x) →
  adjacent_distinct (l ++ [x]).
Proof.
  induction l as [|a [|b l] IH]; intros Hl Hlast.
  - done.
  - simpl. split; [by apply Hlast|done].
  - destruct Hl as [Hab Hl]. split; [done|]. apply IH; [done|].
    intros y Hy. by apply Hlast.
Qed.

Section Status.

Context {Msg Stat : Type} `{!Arithmetic Stat}
  (calculateMsgStatistic : Msg → Stat).
Implicit Types (w : World Msg Stat).

(** The guard of the status notification tests statistics with [!=]. *)
Hypothesis eqb_is_eq : eqb_exact Stat.

Lemma iteration_status w w' :
  estimationStartup (self w) = false →
  iteration w = Ok w' → status_ok w → status_ok w'.
Proof.
  intros Hest. unfold iteration.
  destruct (if _ <=? _ then _ else _) as [c|]; [simpl|done].
  unfold report. rewrite Hest.
  remember (CircularBuffer.enq _ _) as b eqn:Hb. clear Hb.
  remember (_ + _ - msgCount c) as x eqn:Hx. clear Hx.
  remember (num_sub _ (msgStatistic c)) as y eqn:Hy. clear Hy.
  assert ((if CircularBuffer.size b <? CircularBuffer.capacity b
             then if false && (0 <? CircularBuffer.size b)
                  then (estimate_count (Stat:=Stat) x
                          (CircularBuffer.capacity b) (CircularBuffer.size b),
                        estimate y (CircularBuffer.capacity b)
                          (CircularBuffer.size b), true)
                  else (x, y, true)
             else (x, y, false))
          = (x, y, CircularBuffer.size b <? CircularBuffer.capacity b)) as ->
    by (by destruct (_ <? _)).
  generalize (CircularBuffer.size b <? CircularBuffer.capacity b) as flag.
  intros flag [= <-] [Hmemo Hadj].
  unfold status_ok, status_memo in *. cbn [self calls prevTotalMsgCount
    prevMsgStatisticInBuffer prevStartup].
  unfold status_calls in *. rewrite !omap_app.
  assert (omap (λ c0 : Call Msg Stat,
                  match c0 with
                  | ChangeStatus n st b0 => Some (n, st, b0)
                  | _ => None
                  end)
               (if negb (ignoreStartup (self w)) || negb flag
                then [SendMsg x y] else []) = []) as ->
    by (by destruct (_ || _)).
  rewrite app_nil_r.
  assert (reflect (prevMsgStatisticInBuffer (self w) = y)
                  (num_eqb (prevMsgStatisticInBuffer (self w)) y)) as Hreflect
    by (apply iff_reflect; symmetry; apply eqb_is_eq).
  destruct (Z.eqb_spec (prevTotalMsgCount (self w)) x) as [Hx|Hx];
    destruct Hreflect as [Hy|Hy];
    destruct (eqb_spec (prevStartup (self w)) flag) as [Hf|Hf];
    cbn [negb orb omap list_omap app];
    rewrite ?app_nil_r, ?last_snoc;
    try (split; [reflexivity|]; apply adjacent_distinct_snoc; [done|];
         intros t Ht; rewrite Ht in Hmemo; simpl in Hmemo; congruence).
  split; [|done]. rewrite <-Hmemo. congruence.
Qed.

Lemma for_loop_status n w w' :
  estimationStartup (self w) = false →
  for_loop n w = Ok w' → status_ok w → status_ok w'.
Proof.
  revert w. induction n as [|n IH]; intros w Hest; simpl.
  - by intros [= <-].
  - destruct (iteration w) as [w1|] eqn:Hit; [simpl|done].
    intros Hloop Hok. apply (IH w1); [|done|by apply (iteration_status w w1)].
    apply iteration_frame in Hit. destruct_and!. congruence.
Qed.

Lemma analyse_status now msg w w' :
  estimationStartup (self w) = false →
  _analyse calculateMsgStatistic now msg w = Ok w' →
  estimationStartup (self w') = false ∧ (status_ok w → status_ok w').
Proof.
  intros Hest. rewrite analyse_unfold. cbv zeta.
  destruct (for_loop _ _) as [w1|] eqn:Hloop; [simpl|done].
  pose proof (for_loop_frame _ _ _ Hloop) as (_&_&_& Hest1 &_).
  pose proof (λ H, for_loop_status _ _ w1 H Hloop) as Hst.
  simpl in Hst, Hest1. specialize (Hst Hest).
  intros [= <-]. destruct msg as [m|]; simpl; (split; [congruence|]);
    [|exact Hst].
  intros Hok. apply Hst in Hok. unfold status_ok, status_calls in *. simpl.
  by rewrite omap_app, app_nil_r.
Qed.

Lemma process_status now msg w w' :
  estimationStartup (self w) = false →
  process calculateMsgStatistic now msg w = Ok w' →
  estimationStartup (self w') = false ∧ (status_ok w → status_ok w').
Proof.
  intros Hest. unfold process. destruct (paused (self w)); simpl;
    [by intros [= <-]|].
  set (w0 := match timer (self w) with Some t => clearInterval t w | None => w end).
  assert (self w0 = self w ∧ calls w0 = calls w) as [Hself Hcalls]
    by (subst w0; by destruct (timer (self w))).
  destruct (_analyse _ _ _ w0) as [w1|] eqn:Ha; [simpl|done].
  apply analyse_status in Ha as [Hest1 Hok1]; [|by rewrite Hself].
  intros [= <-]. split; [done|]. intros Hok. apply Hok1.
  unfold status_ok. by rewrite Hself, Hcalls.
Qed.

Lemma step_status op w w' :
  keeps_memo op = true → estimationStartup (self w) = false →
  step calculateMsgStatistic op w = Ok w' →
  estimationStartup (self w') = false ∧ (status_ok w → status_ok w').
Proof.
  intros Hop Hest. destruct op as [now msg|now| |now| |]; try done; simpl.
  - by apply process_status.
  - unfold tick. case_decide; [by intros [= <-]|]. by apply analyse_status.
  - intros [= <-]. unfold pause. destruct (paused (self w)); simpl; [done|].
    by destruct (timer (self w)).
  - unfold resume. destruct (paused (self w)); [|by intros [= <-]].
    intros Hp. by apply process_status in Hp.
Qed.


(** X15. [stop] and [reset] absorb each other: a second [stop], or a
    [reset], right after a [stop] changes nothing (and throws if the first
    one threw), and so does a second [reset] after a [reset]. *)
Theorem stop_reset_absorb w :
  stop w ≫= stop = stop w
  ∧ stop w ≫= reset = stop w
  ∧ reset w ≫= reset = reset w.
Proof.
  unfold stop, reset, CircularBuffer.new. cbv zeta.
  destruct (timer (self w)) as [t|] eqn:Ht; simpl;
    destruct (bufferSize (self w) <? 1) eqn:Hsz; simpl;
    rewrite ?Hsz, ?Ht; simpl; rewrite ?Hsz; done.
Qed.

End Status.

(** * The older variant *)

(** ** The ring buffer *)

Section Ring_facts.

Context {A : Type}.
Implicit Types (b : Ring.t A).

Lemma ring_wf_spec b :
  Ring.wf b = true ↔
  1 ≤ Ring._capacity b ∧ 0 ≤ Ring._first b < Ring._capacity b
  ∧ 0 ≤ Ring._size b ≤ Ring._capacity b
  ∧ ∀ i, 0 ≤ i < Ring._size b →
         is_Some (Ring._buffer b !! ((Ring._first b + i) `mod` Ring._capacity b)).
Proof.
  unfold Ring.wf. rewrite !andb_true_iff, forallb_forall.
  rewrite !Z.leb_le, Z.ltb_lt. split.
  - intros [[[[[? ?] ?] ?] ?] Hall]. repeat split; try lia.
    intros i Hi. eapply bool_decide_eq_true, Hall.
    apply list_elem_of_In, elem_of_seqZ. lia.
  - intros (? & ? & ? & Hall). repeat split; try lia.
    intros i Hi%list_elem_of_In%elem_of_seqZ.
    apply bool_decide_eq_true, Hall. lia.
Qed.

Lemma ring_length_toarray b :
  Ring.wf b = true → length (Ring.toarray b) = Z.to_nat (Ring._size b).
Proof.
  intros (? & ? & ? & Hall)%ring_wf_spec. unfold Ring.toarray.
  rewrite length_omap_total, length_seqZ; [done|].
  apply Forall_seqZ. intros i Hi. apply Hall. lia.
Qed.

(** The slot that [enq] writes, and where the older slots are seen from
    it. *)
Lemma ring_enq_index (cap first0 first j : Z) :
  first = (if 0 <? first0 then first0 - 1 else cap - 1) →
  1 ≤ cap → 0 ≤ first0 < cap → 0 ≤ j < cap - 1 →
  (first + (1 + j)) `mod` cap = (first0 + j) `mod` cap
  ∧ (first0 + j) `mod` cap ≠ first.
Proof.
  intros -> Hc Hf Hj. destruct (Z.ltb_spec 0 first0).
  - split; [f_equal; lia|].
    destruct (decide (first0 + j < cap)).
    + rewrite Z.mod_small by lia. lia.
    + replace (first0 + j) with ((first0 + j - cap) + 1 * cap) by lia.
      rewrite Z_mod_plus_full, Z.mod_small by lia. lia.
  - assert (first0 = 0) as -> by lia. split.
    + replace (cap - 1 + (1 + j)) with (0 + j + 1 * cap) by lia.
      by rewrite Z_mod_plus_full.
    + rewrite Z.mod_small by lia. lia.
Qed.

Lemma ring_toarray_enq (value : A) b :
  Ring.wf b = true →
  Ring.toarray (Ring.enq value b)
  = take (Z.to_nat (Ring._capacity b)) (value :: Ring.toarray b).
Proof.
  intros Hwf. pose proof (ring_length_toarray b Hwf) as Hlen.
  apply ring_wf_spec in Hwf as (Hc & Hf & Hs & Hall).
  rewrite <-take_push by done.
  unfold Ring.toarray at 1. unfold Ring.enq; simpl.
  set (first := if 0 <? Ring._first b then Ring._first b - 1
                else Ring._capacity b - 1).
  set (size := if Ring._size b <? Ring._capacity b then Ring._size b + 1
               else Ring._size b).
  assert (0 ≤ first < Ring._capacity b) as Hfirst
    by (subst first; destruct (Z.ltb_spec 0 (Ring._first b)); lia).
  assert (0 < size ∧ Z.pred size ≤ Ring._capacity b - 1
          ∧ Z.pred size ≤ Ring._size b
          ∧ (Z.pred size = Ring._size b ∨ Z.pred size = Ring._capacity b - 1))
    as (? & ? & ? & Hcase)
    by (subst size; destruct (Z.ltb_spec (Ring._size b) (Ring._capacity b)); lia).
  rewrite seqZ_cons by done. csimpl.
  rewrite Z.add_0_r, Z.mod_small, lookup_insert_eq by done. simpl. f_equal.
  change (Z.succ 0) with (1 + 0). rewrite <-fmap_add_seqZ.
  transitivity (omap (λ i, Ring._buffer b
                             !! ((Ring._first b + i) `mod` Ring._capacity b))
                     (seqZ 0 (Z.pred size))).
  - apply list_omap_ext, Forall2_fmap_l, Forall_Forall2_diag, Forall_seqZ.
    intros j Hj. simpl.
    destruct (ring_enq_index (Ring._capacity b) (Ring._first b) first j)
      as [-> Hne]; [done|lia..|].
    by rewrite lookup_insert_ne.
  - unfold Ring.toarray in *. destruct Hcase as [Heq|Heq].
    + rewrite Heq, take_ge; [done|]. rewrite Hlen. lia.
    + assert (seqZ 0 (Ring._size b)
              = seqZ 0 (Z.pred size)
                  ++ seqZ (0 + Z.pred size) (Ring._size b - Z.pred size))
        as -> by (rewrite <-seqZ_app by lia; f_equal; lia).
      rewrite omap_app, take_app_length'; [done|].
      rewrite length_omap_total, length_seqZ; [lia|].
      apply Forall_seqZ. intros i Hi. apply Hall. lia.
Qed.

Lemma ring_wf_enq (value : A) b :
  Ring.wf b = true → Ring.wf (Ring.enq value b) = true.
Proof.
  intros Hwf. pose proof Hwf as (Hc & Hf & Hs & Hall)%ring_wf_spec.
  apply ring_wf_spec. unfold Ring.enq; simpl.
  set (first := if 0 <? Ring._first b then Ring._first b - 1
                else Ring._capacity b - 1).
  assert (0 ≤ first < Ring._capacity b) as Hfirst
    by (subst first; destruct (Z.ltb_spec 0 (Ring._first b)); lia).
  repeat split; try lia;
    try (destruct (Z.ltb_spec (Ring._size b) (Ring._capacity b)); lia).
  intros i Hi. destruct (decide (i = 0)) as [->|].
  - rewrite Z.add_0_r, Z.mod_small, lookup_insert_eq by done. eauto.
  - destruct (ring_enq_index (Ring._capacity b) (Ring._first b) first (i - 1))
      as [Heq Hne]; [done|..].
    1-3: destruct (Z.ltb_spec (Ring._size b) (Ring._capacity b)); lia.
    replace (1 + (i - 1)) with i in Heq by lia.
    rewrite Heq, lookup_insert_ne by done. apply Hall.
    destruct (Z.ltb_spec (Ring._size b) (Ring._capacity b)); lia.
Qed.

Lemma ring_get_tail b :
  Ring.wf b = true → Ring._capacity b ≤ Ring._size b →
  ∃ c, Ring.get (Ring._capacity b - 1) b = Ok c
       ∧ Ring.toarray b
         = take (Z.to_nat (Ring._capacity b - 1)) (Ring.toarray b) ++ [c].
Proof.
  intros Hwf Hfull. pose proof (ring_length_toarray b Hwf) as Hlen.
  apply ring_wf_spec in Hwf as (Hc & Hf & Hs & Hall).
  destruct (Hall (Ring._capacity b - 1)) as [c Hc']; [lia|].
  exists c. unfold Ring.get. rewrite Hc'.
  destruct (Z.eqb_spec (Ring._size b) 0); [lia|]. simpl.
  destruct (Z.ltb_spec (Ring._capacity b - 1) 0); [lia|].
  destruct (Z.leb_spec (Ring._size b) (Ring._capacity b - 1)); [lia|].
  split; [done|]. unfold Ring.toarray in *.
  assert (seqZ 0 (Ring._size b)
          = seqZ 0 (Ring._capacity b - 1) ++ [Ring._capacity b - 1]) as ->.
  { replace (Ring._size b) with ((Ring._capacity b - 1) + 1) by lia.
    by rewrite seqZ_app by lia. }
  rewrite omap_app, take_app_length'.
  - f_equal. csimpl. by rewrite Hc'.
  - rewrite length_omap_total, length_seqZ; [lia|].
    apply Forall_seqZ. intros i Hi. apply Hall. lia.
Qed.

End Ring_facts.

(** The two embeddings of the package agree: seen as a ring of cells, a
    [CircularBuffer.t] has the same well-formedness, the same contents and
    the same [get], and [enq] and [new] commute with the view. *)
Lemma ring_of_CircularBuffer {Stat} (b : CircularBuffer.t Stat)
    (value : Cell Stat) (start : Z) :
  Ring.wf (Ring.of_CircularBuffer b) = CircularBuffer.wf b
  ∧ Ring.toarray (Ring.of_CircularBuffer b) = CircularBuffer.toarray b
  ∧ Ring.get start (Ring.of_CircularBuffer b) = CircularBuffer.get start b
  ∧ Ring.enq value (Ring.of_CircularBuffer b)
    = Ring.of_CircularBuffer (CircularBuffer.enq value b)
  ∧ ∀ capacity, Ring.new capacity
                = Ring.of_CircularBuffer
                    <$> CircularBuffer.new (Stat:=Stat) capacity.
Proof.
  repeat split. intros capacity. unfold Ring.new, CircularBuffer.new.
  by destruct (capacity <? 1).
Qed.

(** ** The flush of the older variant *)

Lemma sum_Z_app (l k : list Z) : Older.sum_Z (l ++ k) = Older.sum_Z l + Older.sum_Z k.
Proof. induction l as [|x l IH]; simpl; [done|]. rewrite IH. lia. Qed.

Lemma sum_Z_cons (x : Z) (l : list Z) : Older.sum_Z (x :: l) = x + Older.sum_Z l.
Proof. done. Qed.

Section Older_facts.

Import Older.

Context {Msg Stat : Type}
  (calculateMsgStatistics : Z → option Stat → option Msg → option Stat).
Implicit Types (w : World Msg Stat) (s : State Stat).

Lemma older_State_wf_spec s :
  State_wf s = true ↔
  Ring.wf (circularBuffer s) = true
  ∧ Ring._capacity (circularBuffer s) = bufferSize s.
Proof. unfold State_wf. by rewrite andb_true_iff, Z.eqb_eq. Qed.

(** One iteration on a well-formed instance. *)
Lemma older_iteration_Ok (i : Z) (msg : option Msg) w :
  State_wf (self w) = true →
  let added := if i =? 0 then Z.max 0 (msgCount (self w) - 1)
               else Z.max 0 (msgCount (self w)) in
  ∃ w', iteration calculateMsgStatistics i msg w = Ok w'
    ∧ State_wf (self w') = true
    ∧ bufferSize (self w') = bufferSize (self w)
    ∧ counts (self w')
      = take (Z.to_nat (bufferSize (self w))) (added :: counts (self w))
    ∧ (total_consistent (self w) → total_consistent (self w'))
    ∧ msgCount (self w') = Z.max 0 (msgCount (self w) - added)
    ∧ statistics_calls (calls w') = statistics_calls (calls w) ++ [msg]
    ∧ paused (self w') = paused (self w) ∧ timer (self w') = timer (self w)
    ∧ startTime (self w') = startTime (self w)
    ∧ endTime (self w') = endTime (self w)
    ∧ intervals w' = intervals w ∧ nextTimer w' = nextTimer w.
Proof.
  intros Hs added. pose proof Hs as [Hwf Hcap]%older_State_wf_spec.
  pose proof Hwf as (Hc & Hf & Hsz & _)%ring_wf_spec.
  pose proof (ring_length_toarray _ Hwf) as Hlen.
  unfold iteration, Ring.size. fold added.
  assert (∀ st,
            Ring.wf (Ring.enq {| OlderCell.msgCount := added;
                                 OlderCell.msgStatistics := st |}
                       (circularBuffer (self w))) = true) as Hwf'
    by (intros st; by apply ring_wf_enq).
  destruct (Z.leb_spec (bufferSize (self w))
              (Ring._size (circularBuffer (self w)))) as [Hfull|Hroom].
  - destruct (ring_get_tail _ Hwf) as (c & Hget & Hlast); [lia|].
    rewrite Hcap in Hget, Hlast. rewrite Hget. simpl.
    eexists; split; [done|]. simpl.
    split; [apply older_State_wf_spec; split; [apply Hwf'|exact Hcap]|].
    split; [done|].
    unfold counts, total_consistent; simpl.
    rewrite ring_toarray_enq, Hcap by done.
    rewrite fmap_take. simpl.
    split; [done|]. split.
    { intros Htot. unfold total_consistent, counts in *. simpl.
      rewrite ring_toarray_enq, Hcap, Htot by done.
      rewrite <-take_push, fmap_cons, fmap_take, sum_Z_cons by lia.
      rewrite Hlast at 1.
      rewrite fmap_app, sum_Z_app, fmap_take, fmap_cons, sum_Z_cons.
      cbn [OlderCell.msgCount fmap list_fmap Older.sum_Z foldr]. lia. }
    split; [done|]. split; [|done].
    unfold statistics_calls. rewrite !omap_app. simpl.
    by destruct (_ || _), (_ || _).
  - simpl. eexists; split; [done|]. simpl.
    split; [apply older_State_wf_spec; split; [apply Hwf'|exact Hcap]|].
    split; [done|].
    unfold counts, total_consistent; simpl.
    rewrite ring_toarray_enq, Hcap by done.
    rewrite fmap_take. simpl.
    split; [done|]. split.
    { intros Htot. unfold total_consistent, counts in *. simpl.
      rewrite ring_toarray_enq, Hcap, Htot by done.
      rewrite <-take_push, fmap_cons, sum_Z_cons by lia.
      rewrite take_ge by lia. cbn [OlderCell.msgCount]. lia. }
    split; [done|]. split; [|done].
    unfold statistics_calls. rewrite !omap_app. simpl.
    by destruct (_ || _), (_ || _).
Qed.

Lemma older_for_loop_Ok (i : Z) n (msg : option Msg) w :
  State_wf (self w) = true →
  ∃ w', for_loop calculateMsgStatistics i n msg w = Ok w'
    ∧ State_wf (self w') = true
    ∧ bufferSize (self w') = bufferSize (self w)
    ∧ (total_consistent (self w) → total_consistent (self w'))
    ∧ (0 ≤ msgCount (self w) → 0 ≤ msgCount (self w'))
    ∧ statistics_calls (calls w') = statistics_calls (calls w) ++ replicate n msg
    ∧ paused (self w') = paused (self w) ∧ timer (self w') = timer (self w)
    ∧ startTime (self w') = startTime (self w)
    ∧ endTime (self w') = endTime (self w)
    ∧ intervals w' = intervals w ∧ nextTimer w' = nextTimer w.
Proof.
  revert i w. induction n as [|n IH]; intros i w Hwf; simpl.
  - exists w. rewrite app_nil_r. done.
  - destruct (older_iteration_Ok i msg w Hwf)
      as (w1 & -> & Hwf1 & Hsz1 & _ & Htot1 & Hcnt1 & Hcalls1 & Hp1 & Ht1
          & Hs1 & He1 & Hi1 & Hn1).
    destruct (IH (i + 1) w1 Hwf1)
      as (w' & Hloop & Hwf' & Hsz' & Htot' & Hcnt' & Hcalls' & Hp' & Ht'
          & Hs' & He' & Hi' & Hn').
    exists w'. simpl. split; [done|]. split; [done|].
    split; [congruence|]. split; [auto|]. split; [intros _; apply Hcnt'; lia|].
    split; [by rewrite Hcalls', Hcalls1, <-(assoc_L (++))|].
    repeat split; congruence.
Qed.

(** After the first iteration of a pass: what waits is stored at once,
    and only empty cells follow. *)
Lemma older_for_loop_later (i : Z) n (msg : option Msg) w :
  State_wf (self w) = true → 1 ≤ i →
  ∃ w', for_loop calculateMsgStatistics i (S n) msg w = Ok w'
    ∧ counts (self w')
      = take (Z.to_nat (bufferSize (self w)))
             (replicate n 0 ++ Z.max 0 (msgCount (self w)) :: counts (self w))
    ∧ msgCount (self w') = 0.
Proof.
  revert i w. induction n as [|n IH]; intros i w Hwf Hi.
  - destruct (older_iteration_Ok i msg w Hwf)
      as (w1 & Hit & _ & _ & Harr & _ & Hcnt & _).
    destruct (Z.eqb_spec i 0); [lia|].
    exists w1. simpl. rewrite Hit. split; [done|]. split; [done|]. lia.
  - destruct (older_iteration_Ok i msg w Hwf)
      as (w1 & Hit & Hwf1 & Hsz1 & Harr & _ & Hcnt & _).
    destruct (Z.eqb_spec i 0); [lia|].
    destruct (IH (i + 1) w1 Hwf1) as (w' & Hloop & Harr' & Hcnt'); [lia|].
    exists w'. split; [|split; [|done]].
    + change (for_loop calculateMsgStatistics i (S (S n)) msg w)
        with (iteration calculateMsgStatistics i msg w
                ≫= for_loop calculateMsgStatistics (i + 1) (S n) msg).
      by rewrite Hit.
    + rewrite Harr', Hsz1, Harr, Hcnt.
      replace (Z.max 0 (Z.max 0 (msgCount (self w) - Z.max 0 (msgCount (self w)))))
        with 0 by lia.
      rewrite replicate_shift. apply take_app_take.
Qed.

Lemma older_analyse_unfold now (msg : option Msg) w :
  _analyse calculateMsgStatistics now msg w
  = (let t := default now (startTime (self w)) in
     w1 ← for_loop calculateMsgStatistics 0 (Z.to_nat ((now - t) / 1000)) msg
            (with_self (set_endTime (Some (now - (now - t) `mod` 1000)))
               (with_self (set_startTime (Some t)) w));
     Ok (if 0 <? (now - t) / 1000
         then with_self (λ s, set_startTime (endTime s) s) w1
         else w1)).
Proof. done. Qed.

Lemma older_analyse_Ok now (msg : option Msg) w :
  State_wf (self w) = true →
  ∃ w', _analyse calculateMsgStatistics now msg w = Ok w'
    ∧ State_wf (self w') = true
    ∧ bufferSize (self w') = bufferSize (self w)
    ∧ (total_consistent (self w) → total_consistent (self w'))
    ∧ (0 ≤ msgCount (self w) → 0 ≤ msgCount (self w'))
    ∧ statistics_calls (calls w')
      = statistics_calls (calls w)
        ++ replicate (Z.to_nat ((now - default now (startTime (self w))) / 1000))
                     msg
    ∧ paused (self w') = paused (self w) ∧ timer (self w') = timer (self w)
    ∧ intervals w' = intervals w ∧ nextTimer w' = nextTimer w.
Proof.
  intros Hwf. rewrite older_analyse_unfold. cbv zeta.
  set (w0 := with_self (set_endTime _) _).
  destruct (older_for_loop_Ok 0
              (Z.to_nat ((now - default now (startTime (self w))) / 1000))
              msg w0)
    as (w1 & -> & Hwf1 & Hsz1 & Htot1 & Hcnt1 & Hcalls1 & Hp1 & Ht1 & _ & _
        & Hi1 & Hn1); [done|].
  simpl. eexists; split; [done|].
  destruct (0 <? _); simpl; repeat split; done.
Qed.

Lemma older_process_Ok now (msg : option Msg) w :
  State_wf (self w) = true →
  ∃ w', process calculateMsgStatistics now msg w = Ok w'
    ∧ State_wf (self w') = true
    ∧ bufferSize (self w') = bufferSize (self w)
    ∧ (total_consistent (self w) → total_consistent (self w'))
    ∧ (0 ≤ msgCount (self w) → 0 ≤ msgCount (self w'))
    ∧ paused (self w') = paused (self w).
Proof.
  intros Hwf. unfold process. destruct (paused (self w)) eqn:Hp; simpl;
    [by eauto 10|].
  set (w0 := with_self _ _).
  assert (State_wf (self w0) = true
          ∧ bufferSize (self w0) = bufferSize (self w)
          ∧ (total_consistent (self w) → total_consistent (self w0))
          ∧ msgCount (self w0) = msgCount (self w) + 1
          ∧ paused (self w0) = false) as (Hwf0 & Hsz0 & Htot0 & Hcnt0 & Hp0)
    by (subst w0; by destruct (timer (self w))).
  destruct (older_analyse_Ok now msg w0 Hwf0)
    as (w1 & -> & Hwf1 & Hsz1 & Htot1 & Hcnt1 & _ & Hp1 & _).
  simpl. eexists; split; [done|]. simpl.
  split; [done|]. split; [congruence|]. split; [auto|].
  split; [intros ?; apply Hcnt1; lia|congruence].
Qed.

Lemma older_reset_Ok w :
  1 ≤ bufferSize (self w) →
  ∃ w', reset w = Ok w'
    ∧ State_wf (self w') = true ∧ bufferSize (self w') = bufferSize (self w)
    ∧ total_consistent (self w') ∧ msgCount (self w') = 0
    ∧ timer (self w') = timer (self w) ∧ paused (self w') = paused (self w)
    ∧ intervals w' = intervals w ∧ calls w' = calls w.
Proof.
  intros Hsz. unfold reset, Ring.new.
  destruct (Z.ltb_spec (bufferSize (self w)) 1); [lia|]. simpl.
  eexists; split; [done|]. simpl. split; [|done].
  apply older_State_wf_spec; simpl. split; [|done].
  apply ring_wf_spec; simpl. repeat split; lia.
Qed.

Lemma older_State_wf_bufferSize s : State_wf s = true → 1 ≤ bufferSize s.
Proof. intros [(? & _)%ring_wf_spec <-]%older_State_wf_spec. done. Qed.

Lemma older_step_Ok (op : Op Msg) w :
  State_wf (self w) = true →
  ∃ w', step calculateMsgStatistics op w = Ok w'
    ∧ State_wf (self w') = true
    ∧ (total_consistent (self w) → total_consistent (self w'))
    ∧ (0 ≤ msgCount (self w) → 0 ≤ msgCount (self w')).
Proof.
  intros Hwf. destruct op as [now msg|now| |now| |]; simpl.
  - destruct (older_process_Ok now msg w Hwf) as (w' & ? & ? & _ & ? & ? & _).
    eauto 10.
  - unfold tick. case_decide; [by eauto 10|].
    destruct (older_analyse_Ok now None w Hwf) as (w' & ? & ? & _ & ? & ? & _).
    eauto 10.
  - eexists; split; [done|]. unfold pause.
    destruct (paused (self w)); simpl; [done|]. by destruct (timer (self w)).
  - eexists; split; [done|]. unfold resume. by destruct (paused (self w)).
  - eexists; split; [done|]. unfold stop. by destruct (timer (self w)).
  - destruct (older_reset_Ok w) as (w' & ? & ? & _ & ? & Hcnt & _);
      [by apply older_State_wf_bufferSize|].
    exists w'. rewrite Hcnt. done.
Qed.

Lemma older_constructor_Ok (config : Config) w :
  constructor config = Ok w →
  State_wf (self w) = true ∧ total_consistent (self w) ∧ msgCount (self w) = 0
  ∧ timer (self w) = None ∧ intervals w = ∅.
Proof.
  unfold constructor.
  destruct (interval_of config) as [|i]; [done|].
  destruct (bufferSize_of config) as [|n]; [done|].
  unfold reset, Ring.new; simpl.
  destruct (Z.ltb_spec n 1); [done|]. simpl. intros [= <-]. simpl.
  split; [|done]. apply older_State_wf_spec; simpl. split; [|done].
  apply ring_wf_spec; simpl. repeat split; lia.
Qed.

(** X16. The running total of the older variant: in every state a
    constructed instance reaches, through [process] calls, timer ticks,
    [pause], [resume], [stop] and [reset] at whatever times,
    [totalMsgCount] is the sum of [msgCount] over the cells in the buffer,
    the count of waiting messages is not negative, and every such run
    returns. *)
Theorem older_total_consistent (config : Config) (w0 : World Msg Stat)
    (ops : list (Op Msg)) :
  constructor config = Ok w0 →
  ∃ w, run calculateMsgStatistics ops w0 = Ok w
       ∧ totalMsgCount (self w)
         = sum_Z (OlderCell.msgCount <$> Ring.toarray (circularBuffer (self w)))
       ∧ 0 ≤ msgCount (self w).
Proof.
  intros (Hwf & Htot & Hcnt & _)%older_constructor_Ok.
  assert (0 ≤ msgCount (self w0)) as Hpos by lia. clear Hcnt.
  revert w0 Hwf Htot Hpos. induction ops as [|op ops IH]; intros w0 Hwf Htot Hpos.
  - exists w0. done.
  - destruct (older_step_Ok op w0 Hwf) as (w1 & Hstep & Hwf1 & Htot1 & Hpos1).
    destruct (IH w1 Hwf1 (Htot1 Htot) (Hpos1 Hpos)) as (w & Hrun & Hres).
    exists w. simpl. by rewrite Hstep.
Qed.

(** X17. How the older variant spreads waiting messages over the seconds
    a flush closes: with [k] messages waiting, the first closed second
    stores [k - 1] of them, a second closed second stores the one left,
    all further seconds store 0.  So a flush that closes exactly one
    second leaves one message waiting, whoever called it. *)
Theorem older_flush_counts now (msg : option Msg) (t : Z) n w :
  State_wf (self w) = true →
  startTime (self w) = Some t → (now - t) / 1000 = Z.of_nat n →
  ∃ w', _analyse calculateMsgStatistics now msg w = Ok w'
    ∧ counts (self w')
      = take (Z.to_nat (bufferSize (self w)))
             (pushed_counts (msgCount (self w)) n ++ counts (self w))
    ∧ msgCount (self w')
      = match n with
        | O => msgCount (self w)
        | S O => Z.min (Z.max 0 (msgCount (self w))) 1
        | S (S _) => 0
        end.
Proof.
  intros Hwf Hstart Hn. rewrite older_analyse_unfold. cbv zeta.
  rewrite Hstart. simpl default. rewrite Hn, Nat2Z.id.
  set (w0 := with_self (set_endTime _) _).
  pose proof (older_State_wf_bufferSize _ Hwf) as Hsz.
  pose proof Hwf as [Hr Hcap]%older_State_wf_spec.
  pose proof (ring_length_toarray _ Hr) as Hlen.
  apply ring_wf_spec in Hr as (_ & _ & Hsize & _).
  assert (∀ (q : Z) (w1 : World Msg Stat),
            let w' := if 0 <? q
                      then with_self (λ s, set_startTime (endTime s) s) w1
                      else w1 in
            counts (self w') = counts (self w1)
            ∧ msgCount (self w') = msgCount (self w1)) as Hfin
    by (intros q w1; simpl; by destruct (0 <? q)).
  destruct n as [|[|n]].
  - cbn [for_loop mbind result_bind]. eexists; split; [done|].
    destruct (Hfin (Z.of_nat 0) w0) as [-> ->]. split; [|done].
    simpl. rewrite take_ge; [done|]. unfold counts. rewrite length_fmap. lia.
  - destruct (older_iteration_Ok 0 msg w0) as (w1 & Hit & _ & _ & Harr & _ & Hcnt & _);
      [done|].
    cbn [for_loop]. rewrite Hit. cbn [mbind result_bind].
    eexists; split; [done|].
    destruct (Hfin (Z.of_nat 1) w1) as [-> ->]. rewrite Harr, Hcnt.
    change (msgCount (self w0)) with (msgCount (self w)).
    change (0 =? 0) with true. cbv iota.
    split; [done|]. lia.
  - destruct (older_iteration_Ok 0 msg w0)
      as (w1 & Hit & Hwf1 & Hsz1 & Harr & _ & Hcnt & _); [done|].
    destruct (older_for_loop_later 1 n msg w1 Hwf1) as (w2 & Hloop & Harr2 & Hcnt2);
      [lia|].
    change (for_loop calculateMsgStatistics 0 (S (S n)) msg w0)
      with (iteration calculateMsgStatistics 0 msg w0
              ≫= for_loop calculateMsgStatistics (0 + 1) (S n) msg).
    rewrite Hit. cbn [mbind result_bind]. change (0 + 1) with 1.
    rewrite Hloop. cbn [mbind result_bind].
    eexists; split; [done|].
    destruct (Hfin (Z.of_nat (S (S n))) w2) as [-> ->].
    change (msgCount (self w0)) with (msgCount (self w)) in *.
    change (counts (self w0)) with (counts (self w)) in *.
    change (bufferSize (self w0)) with (bufferSize (self w)) in *.
    change (0 =? 0) with true in *. cbv iota in Harr, Hcnt.
    rewrite Harr2, Hcnt2, Hsz1, Harr, Hcnt.
    split; [|done].
    replace (Z.max 0 (Z.max 0 (msgCount (self w) - Z.max 0 (msgCount (self w) - 1))))
      with (Z.min (Z.max 0 (msgCount (self w))) 1) by lia.
    unfold pushed_counts.
    generalize (Z.min (Z.max 0 (msgCount (self w))) 1) as a.
    generalize (Z.max 0 (msgCount (self w) - 1)) as c. intros c a.
    transitivity (take (Z.to_nat (bufferSize (self w)))
                    ((replicate n 0 ++ [a]) ++ c :: counts (self w))).
    + rewrite <-(take_app_take _ (replicate n 0 ++ [a])).
      by rewrite <-(assoc_L (++)).
    + by rewrite <-!(assoc_L (++)).
Qed.

(** X18. In the older variant [calculateMsgStatistics] is called once for
    every second a flush closes, each time with the message of that flush,
    and not once per message: a message processed within the running
    second causes no call at all. *)
Theorem older_statistics_per_second now (msg : option Msg) w :
  State_wf (self w) = true →
  ∃ w', _analyse calculateMsgStatistics now msg w = Ok w'
    ∧ statistics_calls (calls w')
      = statistics_calls (calls w)
        ++ replicate (Z.to_nat ((now - default now (startTime (self w))) / 1000))
                     msg.
Proof.
  intros Hwf.
  destruct (older_analyse_Ok now msg w Hwf) as (w' & Ha & _ & _ & _ & _ & Hc & _).
  by exists w'.
Qed.

(** ** The timer of the older variant *)

Lemma older_step_timer_table (op : Op Msg) w w' :
  State_wf (self w) = true →
  step calculateMsgStatistics op w = Ok w' →
  (timer (self w) = None ∧ intervals w = ∅)
  ∨ (∃ t, timer (self w) = Some t ∧ paused (self w) = false
          ∧ intervals w = {[t := timer_period]}) →
  (timer (self w') = None ∧ intervals w' = ∅)
  ∨ (∃ t, timer (self w') = Some t ∧ paused (self w') = false
          ∧ intervals w' = {[t := timer_period]}).
Proof.
  intros Hwf Hstep Htab. destruct op as [now msg|now| |now| |]; simpl in Hstep.
  - unfold process in Hstep. destruct (paused (self w)) eqn:Hp; simpl in Hstep.
    + injection Hstep as <-.
      destruct Htab as [?|(? & ? & ? & ?)]; [by left|done].
    + right. set (w0 := with_self _ _) in Hstep.
      assert (State_wf (self w0) = true ∧ intervals w0 = ∅
              ∧ paused (self w0) = false) as (Hwf0 & Hint0 & Hp0).
      { subst w0. destruct Htab as [[Ht Hint]|(t & Ht & _ & Hint)]; rewrite Ht;
          simpl; rewrite ?Hint, ?delete_singleton_eq; done. }
      destruct (older_analyse_Ok now msg w0 Hwf0)
        as (w1 & Ha & _ & _ & _ & _ & _ & Hp1 & _ & Hint1 & _).
      rewrite Ha in Hstep. simpl in Hstep. injection Hstep as <-. simpl.
      exists (nextTimer w1). split; [done|]. split; [congruence|].
      by rewrite Hint1, Hint0, insert_empty.
  - unfold tick in Hstep. case_decide; [by injection Hstep as <-|].
    destruct (older_analyse_Ok now None w Hwf)
      as (w1 & Ha & _ & _ & _ & _ & _ & Hp1 & Ht1 & Hint1 & _).
    rewrite Ha in Hstep. injection Hstep as <-. by rewrite Hp1, Ht1, Hint1.
  - left. injection Hstep as <-. unfold pause.
    destruct (paused (self w)) eqn:Hp; simpl.
    + destruct Htab as [?|(t & _ & ? & _)]; [done|congruence].
    + destruct Htab as [[Ht Hint]|(t & Ht & _ & Hint)]; rewrite Ht; simpl;
        [done|]. split; [done|]. rewrite Hint. apply delete_singleton_eq.
  - injection Hstep as <-. unfold resume.
    destruct (paused (self w)) eqn:Hp; simpl.
    + destruct Htab as [?|(? & ? & ? & ?)]; [by left|done].
    + destruct Htab as [?|(t & ? & _ & ?)]; [by left|right; by exists t].
  - left. injection Hstep as <-. unfold stop.
    destruct Htab as [[Ht Hint]|(t & Ht & _ & Hint)]; rewrite Ht; simpl;
      [done|]. split; [done|]. rewrite Hint. apply delete_singleton_eq.
  - unfold reset in Hstep. destruct (Ring.new _); simpl in Hstep; [|done].
    by injection Hstep as <-.
Qed.

Lemma older_run_timer_table (config : Config) (ops : list (Op Msg)) w0 :
  constructor config = Ok w0 →
  ∃ w, run calculateMsgStatistics ops w0 = Ok w
       ∧ State_wf (self w) = true
       ∧ ((timer (self w) = None ∧ intervals w = ∅)
          ∨ (∃ t, timer (self w) = Some t ∧ paused (self w) = false
                  ∧ intervals w = {[t := timer_period]})).
Proof.
  intros (Hwf & _ & _ & Ht & Hint)%older_constructor_Ok.
  assert ((timer (self w0) = None ∧ intervals w0 = ∅)
          ∨ (∃ t, timer (self w0) = Some t ∧ paused (self w0) = false
                  ∧ intervals w0 = {[t := timer_period]})) as Htab by (by left).
  clear Ht Hint. revert w0 Hwf Htab.
  induction ops as [|op ops IH]; intros w0 Hwf Htab.
  - exists w0. done.
  - destruct (older_step_Ok op w0 Hwf) as (w1 & Hstep & Hwf1 & _).
    destruct (IH w1 Hwf1) as (w & Hrun & Hres);
      [by apply (older_step_timer_table op w0 w1)|].
    exists w. simpl. by rewrite Hstep.
Qed.

(** X19. In every state a constructed instance of the older variant
    reaches, at most one interval timer is live: none while [this.timer]
    is null, and otherwise exactly the one [this.timer] names, armed for
    1000 milliseconds, on an instance that is not paused. *)
Theorem older_one_timer_at_most (config : Config) (ops : list (Op Msg))
    (w0 : World Msg Stat) :
  constructor config = Ok w0 →
  ∃ w, run calculateMsgStatistics ops w0 = Ok w
       ∧ ((timer (self w) = None ∧ intervals w = ∅)
          ∨ (∃ t, timer (self w) = Some t ∧ paused (self w) = false
                  ∧ intervals w = {[t := 1000]})).
Proof.
  intros Hnew.
  destruct (older_run_timer_table config ops w0 Hnew) as (w & Hrun & _ & Htab).
  by exists w.
Qed.

(** X20. In the older variant [resume] arms no timer: after a [pause] and
    a [resume] of an instance in a reachable state, no timer is live
    although the instance is running again, so timer ticks do nothing and
    the window stands still until the next message. *)
Theorem older_resume_arms_no_timer (config : Config) (ops ticks : list (Op Msg))
    (now : Z) (w0 w : World Msg Stat) :
  constructor config = Ok w0 →
  run calculateMsgStatistics ops w0 = Ok w →
  forallb is_tick ticks = true →
  paused (self (resume now (pause w))) = false
  ∧ timer (self (resume now (pause w))) = None
  ∧ intervals (resume now (pause w)) = ∅
  ∧ run calculateMsgStatistics ticks (resume now (pause w))
    = Ok (resume now (pause w)).
Proof.
  intros Hnew Hrun Hticks.
  destruct (older_run_timer_table config ops w0 Hnew) as (w1 & Hrun1 & _ & Htab).
  rewrite Hrun in Hrun1. injection Hrun1 as <-.
  assert (paused (self (resume now (pause w))) = false
          ∧ timer (self (resume now (pause w))) = None
          ∧ intervals (resume now (pause w)) = ∅) as (Hp & Ht & Hint).
  { unfold resume, pause. destruct (paused (self w)) eqn:Hpw; simpl.
    - rewrite Hpw. simpl.
      destruct Htab as [[? ?]|(t & _ & ? & _)]; [done|congruence].
    - destruct Htab as [[Htw Hintw]|(t & Htw & _ & Hintw)]; rewrite Htw; simpl;
        [done|]. rewrite Hintw. by rewrite delete_singleton_eq. }
  split; [done|]. split; [done|]. split; [done|].
  revert Hint. generalize (resume now (pause w)) as v. intros v Hint.
  induction ticks as [|op ticks IH]; simpl; [done|].
  simpl in Hticks. apply andb_true_iff in Hticks as [Hop Hticks].
  destruct op; try done. simpl. unfold tick. rewrite decide_True by done.
  simpl. by apply IH.
Qed.

End Older_facts.

(** ** The further properties at concrete instances *)

Lemma window_bounded_witness :
  ∃ w, run id [Process 0 (Some 3); Process 400 (Some 4); Tick 1000;
               Tick 7000; Process 7100 (Some 1)] fresh_world = Ok w
       ∧ bufferSize (self w) = bufferSize (self fresh_world)
       ∧ bufferSize_of (config_of "sec" (Number (Num 3)) true)
         = Num (bufferSize (self w))
       ∧ 1 ≤ bufferSize (self w)
       ∧ CircularBuffer.capacity (circularBuffer (self w)) = bufferSize (self w)
       ∧ 0 ≤ CircularBuffer.size (circularBuffer (self w)) ≤ bufferSize (self w)
       ∧ length (CircularBuffer.toarray (circularBuffer (self w)))
         = Z.to_nat (CircularBuffer.size (circularBuffer (self w))).
Proof.
  apply (window_bounded id (config_of "sec" (Number (Num 3)) true)).
  reflexivity.
Defined.

Lemma one_timer_at_most_witness :
  ∃ w, run id [Process 0 (Some 3); Process 400 (Some 4); Pause; Resume 9000;
               Tick 9500; Stop; Process 9900 None] fresh_world = Ok w
       ∧ ((timer (self w) = None ∧ intervals w = ∅)
          ∨ (∃ t, timer (self w) = Some t ∧ paused (self w) = false
                  ∧ intervals w = {[t := timer_period]})).
Proof.
  apply (one_timer_at_most id (config_of "sec" (Number (Num 3)) true)).
  reflexivity.
Defined.

Lemma paused_drops_arrivals_witness :
  paused (self (pause running_world)) = true
  ∧ intervals (pause running_world) = ∅
  ∧ run id [Process 2000 (Some 5); Tick 3000; Process 9000 None]
        (pause running_world)
    = Ok (pause running_world).
Proof.
  split; [reflexivity|]. split; [reflexivity|].
  apply (paused_drops_arrivals id
           [Process 2000 (Some 5); Tick 3000; Process 9000 None]
           (pause running_world)); reflexivity.
Defined.

Lemma flush_within_second_witness :
  ∃ w', _analyse id 1999 (Some 5) running_world = Ok w'
    ∧ circularBuffer (self w') = circularBuffer (self running_world)
    ∧ msgCountInBuffer (self w') = msgCountInBuffer (self running_world)
    ∧ msgStatisticInBuffer (self w') = msgStatisticInBuffer (self running_world)
    ∧ status_memo (self w') = status_memo (self running_world)
    ∧ startTime (self w') = Some (default 1999 (startTime (self running_world)))
    ∧ newMsgCount (self w') = newMsgCount (self running_world) + 1
    ∧ newMsgStatistic (self w') = newMsgStatistic (self running_world) + id 5
    ∧ calls w' = calls running_world ++ [CalculateMsgStatistic 5].
Proof.
  refine (flush_within_second id 1999 (Some 5) running_world _). simpl. lia.
Defined.

Lemma cursor_on_boundary_witness :
  ∃ w', _analyse id 3750 None running_world = Ok w'
    ∧ startTime (self w') = Some (1000 + 1000 * Z.max 0 ((3750 - 1000) / 1000))
    ∧ endTime (self w') = Some (1000 + 1000 * ((3750 - 1000) / 1000))
    ∧ (1000 ≤ 3750 → ∀ t', startTime (self w') = Some t' → 0 ≤ 3750 - t' < 1000).
Proof.
  apply (cursor_on_boundary id 3750 None 1000 running_world); reflexivity.
Defined.

Lemma sendMsg_once_per_second_witness :
  ∃ w', _analyse id 5200 (Some 1) running_world = Ok w'
    ∧ length (send_calls (calls w'))
      = (length (send_calls (calls running_world))
         + Z.to_nat ((5200 - default 5200 (startTime (self running_world)))
                     / 1000)%Z)%nat.
Proof.
  apply (sendMsg_once_per_second id 5200 (Some 1) running_world); reflexivity.
Defined.

Lemma window_fills_witness :
  ∃ w', _analyse id 5200 None running_world = Ok w'
    ∧ CircularBuffer.size (circularBuffer (self w'))
      = Z.min (CircularBuffer.size (circularBuffer (self running_world))
               + Z.max 0 ((5200 - default 5200 (startTime (self running_world)))
                          / 1000))
              (bufferSize (self running_world)).
Proof.
  apply (window_fills id 5200 None running_world). reflexivity.
Defined.

Lemma sendMsg_after_startup_witness :
  ∃ w', process id 0 (Some 4) ignoring_world ≫= _analyse id 5000 None = Ok w'
    ∧ length (send_calls (calls w')) = 3%nat.
Proof.
  destruct (sendMsg_after_startup id 5000 None
              {| self :=
                   set_timer (Some 0%nat)
                     (set_newMsg 1 4
                        (set_endTime (Some 0)
                           (set_startTime (Some 0) (self ignoring_world))));
                 intervals := {[ 0%nat := 60000 ]}; nextTimer := 1%nat;
                 calls := [CalculateMsgStatistic 4] |}
              eq_refl eq_refl) as (w' & Ha & Hn).
  exists w'. split; [exact Ha|exact Hn].
Defined.


Lemma count_bounds_witness :
  ∃ w, run id [Process 0 (Some 3); Process 400 (Some 4); Tick 1000;
               Process 1200 (Some 2); Reset; Process 4000 (Some 6)] fresh_world
       = Ok w
       ∧ 0 ≤ msgCountInBuffer (self w) ∧ 0 ≤ newMsgCount (self w)
       ∧ Forall (λ c, 0 ≤ msgCount c)
                (CircularBuffer.toarray (circularBuffer (self w)))
       ∧ msgCountInBuffer (self w) + newMsgCount (self w)
         ≤ Z.of_nat (length (statistic_calls (calls w))).
Proof.
  apply (count_bounds id (config_of "sec" (Number (Num 3)) true)).
  reflexivity.
Defined.


(** ** The older variant at concrete instances *)

Example older_waiting_world_reached :
  Older.constructor (config_of "sec" (Number (Num 3)) true)
    ≫= Older.run older_hook [Older.Process 0 (Some 7); Older.Process 300 (Some 8)]
  = Ok older_waiting_world.
Proof. reflexivity. Qed.

Lemma older_total_consistent_witness :
  ∃ w0, Older.constructor (config_of "sec" (Number (Num 3)) true) = Ok w0
    ∧ ∃ w, Older.run older_hook
             [Older.Process 0 (Some 7); Older.Process 300 (Some 8);
              Older.Tick 1300; Older.Pause; Older.Resume 5000;
              Older.Process 9000 (Some 3); Older.Stop;
              Older.Process 9100 (Some 1); Older.Reset] w0 = Ok w
           ∧ Older.totalMsgCount (Older.self w)
             = Older.sum_Z (OlderCell.msgCount
                              <$> Ring.toarray (Older.circularBuffer (Older.self w)))
           ∧ 0 ≤ Older.msgCount (Older.self w).
Proof.
  eexists. split; [reflexivity|].
  apply (older_total_consistent older_hook
           (config_of "sec" (Number (Num 3)) true)).
  reflexivity.
Defined.

Lemma older_flush_counts_witness :
  ∃ w', Older._analyse older_hook 5100 None older_waiting_world = Ok w'
    ∧ Older.counts (Older.self w')
      = take (Z.to_nat (Older.bufferSize (Older.self older_waiting_world)))
             (Older.pushed_counts
                (Older.msgCount (Older.self older_waiting_world)) 5
                ++ Older.counts (Older.self older_waiting_world))
    ∧ Older.msgCount (Older.self w') = 0.
Proof.
  apply (older_flush_counts older_hook 5100 None 0 5 older_waiting_world);
    reflexivity.
Defined.

Lemma older_statistics_per_second_witness :
  ∃ w', Older._analyse older_hook 2100 (Some 4) older_waiting_world = Ok w'
    ∧ Older.statistics_calls (Older.calls w')
      = Older.statistics_calls (Older.calls older_waiting_world)
        ++ replicate
             (Z.to_nat ((2100 - default 2100
                                  (Older.startTime (Older.self older_waiting_world)))
                        / 1000))
             (Some 4).
Proof.
  apply (older_statistics_per_second older_hook 2100 (Some 4) older_waiting_world).
  reflexivity.
Defined.

Lemma older_one_timer_at_most_witness :
  ∃ w0, Older.constructor (config_of "sec" (Number (Num 3)) true) = Ok w0
    ∧ ∃ w, Older.run older_hook
             [Older.Process 0 (Some 7); Older.Tick 1300; Older.Pause;
              Older.Resume 5000; Older.Process 9000 (Some 3)] w0 = Ok w
           ∧ ((Older.timer (Older.self w) = None ∧ Older.intervals w = ∅)
              ∨ (∃ t, Older.timer (Older.self w) = Some t
                      ∧ Older.paused (Older.self w) = false
                      ∧ Older.intervals w = {[t := 1000]})).
Proof.
  eexists. split; [reflexivity|].
  apply (older_one_timer_at_most older_hook
           (config_of "sec" (Number (Num 3)) true)).
  reflexivity.
Defined.

Lemma older_resume_arms_no_timer_witness :
  Older.constructor (config_of "sec" (Number (Num 3)) true)
    ≫= Older.run older_hook [Older.Process 0 (Some 7); Older.Process 300 (Some 8)]
  = Ok older_waiting_world
  ∧ Older.paused (Older.self (Older.resume 5000 (Older.pause older_waiting_world)))
    = false
  ∧ Older.timer (Older.self (Older.resume 5000 (Older.pause older_waiting_world)))
    = None
  ∧ Older.intervals (Older.resume 5000 (Older.pause older_waiting_world)) = ∅
  ∧ Older.run older_hook [Older.Tick 6000; Older.Tick 7000]
      (Older.resume 5000 (Older.pause older_waiting_world))
    = Ok (Older.resume 5000 (Older.pause older_waiting_world)).
Proof.
  split; [reflexivity|].
  eapply (older_resume_arms_no_timer older_hook
            (config_of "sec" (Number (Num 3)) true)
            [Older.Process 0 (Some 7); Older.Process 300 (Some 8)]
            [Older.Tick 6000; Older.Tick 7000] 5000);
    reflexivity.
Defined.
